(** * blog-automation: the SEO scoring engine and the readability scorer

    A shallow embedding of the SEO optimizer ([src/unnamed/part_000],
    which the route imports as [@/lib/seo/optimizer]: [analyzeSEO] and its
    helpers, [generateMetaTags], [generateSchemaMarkup]), of
    [src/lib/ai/blog-generator.ts] ([calculateReadability],
    [countSyllables], [generateBlogPost], [generateBulkPosts],
    [improveReadability]) and of the handler [POST] of
    [src/app/api/generate/blog-post/route.ts].

    Conventions of the embedding.

    - A JavaScript string is a sequence of UTF-16 code units.  The model
      covers the strings whose code units are below 256 (the Latin-1
      range) and writes them as [string]; [toLowerCase], white space and
      line terminators are the ECMAScript ones restricted to that range.
    - A JavaScript number is an IEEE binary64 value.  Every finite binary64
      value is a rational, so a number is a [Q]; each arithmetic operation
      rounds its exact result to the nearest binary64 value, ties to even
      ([fl] below).  Numbers that the code only ever uses as integers
      (lengths, counts, heading levels, the rounded scores) are [Z] or
      [nat].
    - Arrays are lists. *)

From Stdlib Require Import ZArith QArith Qround Qabs Qpower Lqa Lia.
From Stdlib Require Import List Bool Ascii String DecimalString.
Import ListNotations.

Local Open Scope string_scope.
Local Open Scope list_scope.

(** ** Strings of the host language *)

Module JS.

(** The double quote of the template literals. *)
Definition dquote : string := String "034"%char EmptyString.

(** The arrow U+2192 of a source literal, in its UTF-8 encoding. *)
Definition arrow : string :=
  String "226"%char (String "134"%char (String "146"%char EmptyString)).

(** The line feed. *)
Definition LF : ascii := "010"%char.

(** [\s] of a regular expression and the characters [trim] removes:
    TAB, LF, VT, FF, CR, SPACE and NBSP. *)
Definition isWhiteSpace (c : ascii) : bool :=
  let n := N_of_ascii c in
  ((9 <=? n) && (n <=? 13) || (n =? 32) || (n =? 160))%N.

(** The characters that [.] of a regular expression does not match. *)
Definition isLineTerminator (c : ascii) : bool :=
  let n := N_of_ascii c in ((n =? 10) || (n =? 13))%N.

(** [[a-z]] *)
Definition isLowerLetter (c : ascii) : bool :=
  let n := N_of_ascii c in ((97 <=? n) && (n <=? 122))%N.

(** [[aeiouy]] *)
Definition isVowel (c : ascii) : bool :=
  match c with
  | "a" | "e" | "i" | "o" | "u" | "y" => true
  | _ => false
  end%char.

(** [[.!?]] *)
Definition isSentenceEnd (c : ascii) : bool :=
  match c with
  | "." | "!" | "?" => true
  | _ => false
  end%char.

(** Lower case of one code unit: A-Z, and the Latin-1 capitals
    U+00C0-U+00DE except the multiplication sign U+00D7. *)
Definition lowerUnit (c : ascii) : ascii :=
  let n := N_of_ascii c in
  if ((65 <=? n) && (n <=? 90) ||
      (192 <=? n) && (n <=? 222) && negb (n =? 215))%N
  then ascii_of_N (n + 32) else c.

(** [s.toLowerCase()] *)
Fixpoint toLowerCase (s : string) : string :=
  match s with
  | EmptyString => EmptyString
  | String c r => String (lowerUnit c) (toLowerCase r)
  end.

(** [s.includes(sub)] *)
Fixpoint includes (s sub : string) : bool :=
  String.prefix sub s ||
  match s with
  | EmptyString => false
  | String _ r => includes r sub
  end.

(** [s.trimStart()] and [s.trimEnd()], [s.trim()] *)
Fixpoint trimStart (s : string) : string :=
  match s with
  | EmptyString => EmptyString
  | String c r => if isWhiteSpace c then trimStart r else s
  end.

Fixpoint trimEnd (s : string) : string :=
  match s with
  | EmptyString => EmptyString
  | String c r =>
      match trimEnd r with
      | EmptyString => if isWhiteSpace c then EmptyString else String c EmptyString
      | r' => String c r'
      end
  end.

Definition trim (s : string) : string := trimEnd (trimStart s).

(** Puts a character in front of the segment under construction. *)
Definition consHead (c : ascii) (l : list string) : list string :=
  match l with
  | [] => [String c EmptyString]
  | h :: t => String c h :: t
  end.

(** [s.split(/[class]+/)] for a character class: the segments between the
    maximal runs of characters of the class, the empty segments at both
    ends included.  [inSep] tells that the previous character belonged to
    a separator. *)
Fixpoint splitRuns (sep : ascii -> bool) (inSep : bool) (s : string) : list string :=
  match s with
  | EmptyString => [EmptyString]
  | String c r =>
      if sep c then
        if inSep then splitRuns sep true r else EmptyString :: splitRuns sep true r
      else consHead c (splitRuns sep false r)
  end.

Definition split_class (sep : ascii -> bool) (s : string) : list string :=
  splitRuns sep false s.

(** [s.split(/\n\n+/)]: a separator is a run of two or more line feeds;
    a single line feed belongs to its segment. *)
Fixpoint splitBlank (inSep : bool) (s : string) : list string :=
  match s with
  | EmptyString => [EmptyString]
  | String c r =>
      if Ascii.eqb c LF then
        if inSep then splitBlank true r
        else
          match r with
          | String c' r' =>
              if Ascii.eqb c' LF then EmptyString :: splitBlank true r'
              else consHead c (splitBlank false r)
          | EmptyString => consHead c (splitBlank false r)
          end
      else consHead c (splitBlank false r)
  end.

Definition split_blank_lines (s : string) : list string := splitBlank false s.

(** [s.replace(/[^a-z]/g, ' ')] *)
Fixpoint replace_non_letters (s : string) : string :=
  match s with
  | EmptyString => EmptyString
  | String c r =>
      String (if isLowerLetter c then c else " "%char) (replace_non_letters r)
  end.

(** The regular expression [/!\[.*?\]\(.*?\)/].  [scanParen s] consumes
    [.*?\)]: the shortest run of characters other than line terminators
    that a closing parenthesis follows; it returns what it consumed. *)
Fixpoint scanParen (s : string) : option string :=
  match s with
  | EmptyString => None
  | String c r =>
      if Ascii.eqb c ")"%char then Some (String c EmptyString)
      else if isLineTerminator c then None
      else option_map (String c) (scanParen r)
  end.

(** [scanBracket s] consumes [.*?\]\(.*?\)].  A later bracket-parenthesis pair on the line
    cannot succeed where the first one fails, so the first one decides. *)
Fixpoint scanBracket (s : string) : option string :=
  match s with
  | EmptyString => None
  | String c r =>
      let later :=
        if isLineTerminator c then None
        else option_map (String c) (scanBracket r) in
      if Ascii.eqb c "]"%char then
        match r with
        | String c' r' =>
            if Ascii.eqb c' "("%char then
              option_map (fun m => String c (String c' m)) (scanParen r')
            else later
        | EmptyString => later
        end
      else later
  end.

(** The match of the whole expression at the start of [s]. *)
Definition matchImageHere (s : string) : option string :=
  match s with
  | String c (String c' r) =>
      if Ascii.eqb c "!"%char && Ascii.eqb c' "["%char then
        option_map (fun m => String c (String c' m)) (scanBracket r)
      else None
  | _ => None
  end.

(** The successive matches of the global expression; [skip] counts the
    characters of the last match still to step over. *)
Fixpoint execImage (skip : nat) (s : string) : list string :=
  match s with
  | EmptyString => []
  | String _ r =>
      match skip with
      | S k => execImage k r
      | O =>
          match matchImageHere s with
          | Some m => m :: execImage (String.length m - 1) r
          | None => execImage 0 r
          end
      end
  end.

(** [s.match(/!\[.*?\]\(.*?\)/g)]: [null] ([None]) when nothing matches,
    the array of the matches otherwise. *)
Definition match_image (s : string) : option (list string) :=
  match execImage 0 s with
  | [] => None
  | l => Some l
  end.

(** [s.match(/[aeiouy]+/g)] gives the maximal runs of vowels (or [null]
    when there is none); [vowelRuns] is the list of those runs. *)
Definition startsWithVowel (s : string) : bool :=
  match s with
  | String c _ => isVowel c
  | EmptyString => false
  end.

Fixpoint vowelRuns (s : string) : list string :=
  match s with
  | EmptyString => []
  | String c r =>
      if isVowel c then
        if startsWithVowel r then consHead c (vowelRuns r)
        else String c EmptyString :: vowelRuns r
      else vowelRuns r
  end.

Definition match_vowels (s : string) : option (list string) :=
  match vowelRuns s with
  | [] => None
  | l => Some l
  end.

End JS.

(** ** Numbers of the host language *)

Module Number.

Local Open Scope Q_scope.

(** [ilog2 x] is the binary exponent of a positive [x]: the integer [e]
    with [2^e <= x < 2^(e+1)]. *)
Definition ilog2 (x : Q) : Z :=
  let d := (Z.log2 (Qnum x) - Z.log2 (Zpos (Qden x)))%Z in
  if Qle_bool (2 ^ d) x then d else (d - 1)%Z.

(** Rounding to the nearest integer, ties to the even one. *)
Definition rne (x : Q) : Z :=
  let f := Qfloor x in
  match Qcompare (x - inject_Z f) (1 # 2) with
  | Lt => f
  | Gt => (f + 1)%Z
  | Eq => if Z.even f then f else (f + 1)%Z
  end.

(** [fl x] is the binary64 value nearest to the real [x] (53 significant
    bits, ties to even).  The values that the code computes here stay far
    inside the normal range of binary64 (magnitudes between 2^-1022 and
    2^1024), where this is the rounding that IEEE 754 prescribes. *)
Definition fl (x : Q) : Q :=
  if Qeq_bool x 0 then 0
  else
    let u := 2 ^ (ilog2 (Qabs x) - 52) in
    Qred (inject_Z (rne (x / u)) * u).

(** A decimal literal of the source denotes the nearest binary64 value. *)
Definition literal (x : Q) : Q := fl x.

Definition add (x y : Q) : Q := fl (x + y).
Definition sub (x y : Q) : Q := fl (x - y).
Definition mul (x y : Q) : Q := fl (x * y).
Definition div (x y : Q) : Q := fl (x / y).

(** A length or a count as a number (exact below 2^53). *)
Definition of_nat (n : nat) : Q := inject_Z (Z.of_nat n).

(** [x < y], [x <= y], [x >= y] on numbers. *)
Definition ltb (x y : Q) : bool := negb (Qle_bool y x).
Definition leb (x y : Q) : bool := Qle_bool x y.
Definition geb (x y : Q) : bool := Qle_bool y x.

(** [Math.round(x)]: the integer nearest to [x], ties towards +infinity. *)
Definition Math_round (x : Q) : Z := Qfloor (x + (1 # 2)).

End Number.

(** ** Printing a number

    [Number::toString] of ECMAScript, radix 10, as the template literals
    of the recommendations apply it. *)

Module NumberToString.
Import Number.
Local Open Scope Q_scope.
Local Open Scope string_scope.

(** The decimal digits of a positive integer. *)
Definition digits (s : Z) : string :=
  NilZero.string_of_uint (N.to_uint (Z.to_N s)).

Fixpoint zeros (n : nat) : string :=
  match n with
  | O => EmptyString
  | S m => String "0" (zeros m)
  end.

(** The pairs [(n, s)] with [10^(k-1) <= s < 10^k] whose value
    [s * 10^(n-k)] rounds to [x].  The decimal exponent [n] is looked for
    around its estimate from the binary exponent. *)
Definition candidates (x : Q) (k : Z) : list (Z * Z) :=
  let ne := (ilog2 x * 30103 / 100000)%Z in
  flat_map
    (fun n =>
       let f := Qfloor (x / 10 ^ (n - k)) in
       filter
         (fun c : Z * Z =>
            let (n, s) := c in
            (10 ^ (k - 1) <=? s)%Z && (s <? 10 ^ k)%Z &&
            Qeq_bool (fl (inject_Z s * 10 ^ (n - k))) x)
         [(n, f); (n, (f + 1)%Z)])
    [(ne - 1)%Z; ne; (ne + 1)%Z; (ne + 2)%Z; (ne + 3)%Z].

(** Among the candidates, the one whose value is closest to [x], and
    the one of even [s] when two are as close. *)
Fixpoint closest (x : Q) (k : Z) (best : Z * Z) (l : list (Z * Z)) : Z * Z :=
  match l with
  | [] => best
  | c :: r =>
      let dist (p : Z * Z) := Qabs (inject_Z (snd p) * 10 ^ (fst p - k) - x) in
      closest x k
        (if ltb (dist c) (dist best) then c
         else if Qeq_bool (dist c) (dist best) && Z.even (snd c) then c
         else best) r
  end.

(** The least number of digits [k] that identifies [x], with its [n] and
    [s]; a binary64 value needs at most 17 digits. *)
Fixpoint shortest (fuel : nat) (k : Z) (x : Q) : option (Z * Z * Z) :=
  match fuel with
  | O => None
  | S f =>
      match candidates x k with
      | [] => shortest f (k + 1)%Z x
      | c :: r => let (n, s) := closest x k c r in Some (n, k, s)
      end
  end.

Definition toStringPos (x : Q) : string :=
  match shortest 17 1 x with
  | None => EmptyString
  | Some (n, k, s) =>
      let d := digits s in
      if ((k <=? n) && (n <=? 21))%Z then d ++ zeros (Z.to_nat (n - k))
      else if ((0 <? n) && (n <=? 21))%Z then
        substring 0 (Z.to_nat n) d ++ "." ++ substring (Z.to_nat n) (Z.to_nat (k - n)) d
      else if ((-6 <? n) && (n <=? 0))%Z then
        "0." ++ zeros (Z.to_nat (- n)) ++ d
      else
        let e := (n - 1)%Z in
        let ex := (if (e <? 0)%Z then "e-" else "e+") ++ digits (Z.abs e) in
        if (k =? 1)%Z then d ++ ex
        else substring 0 1 d ++ "." ++ substring 1 (Z.to_nat (k - 1)) d ++ ex
  end.

Definition Number_toString (x : Q) : string :=
  if Qeq_bool x 0 then "0"
  else if ltb x 0 then "-" ++ toStringPos (- x)
  else toStringPos x.

End NumberToString.

(** ** The SEO optimizer ([src/unnamed/part_000]) *)

Module Optimizer.
Import JS Number NumberToString.
Local Open Scope string_scope.
Local Open Scope nat_scope.

(** The element types of the parameter object.  The property [text] of
    an external link is [anchor] here, [text] being taken by the
    headings. *)
Record Heading := { level : Z; text : string }.
Record FAQ := { question : string; answer : string }.
Record ExternalLink := { url : string; anchor : string }.

(** The parameter object of [analyzeSEO]; an optional property is an
    [option], [None] when the caller leaves it out. *)
Record Params := {
  content : string;
  title : string;
  metaDescription : option string;
  keyword : string;
  headings : list Heading;
  wordCount : Z;
  readabilityScore : Q;
  faqs : option (list FAQ);
  internalLinks : option (list string);
  externalLinks : option (list ExternalLink)
}.

(** The check set.  Its properties [wordCount] and [readabilityScore]
    are [wordCountCheck] and [readabilityScoreCheck] here, the parameter
    object having properties of those names. *)
Record SEOChecks := {
  keywordDensity : bool;
  keywordInTitle : bool;
  keywordInMetaDescription : bool;
  keywordInH1 : bool;
  keywordInFirstParagraph : bool;
  titleLength : bool;
  metaDescriptionLength : bool;
  headingStructure : bool;
  internalLinkCount : bool;
  externalLinkCount : bool;
  wordCountCheck : bool;
  readabilityScoreCheck : bool;
  hasFAQs : bool;
  hasCallToAction : bool;
  hasImages : bool;
  imageAltTags : bool
}.

(** The report.  Its property [keywordDensity] is [density] here, the
    check set having a property of that name. *)
Record SEOAnalysis := {
  score : Z;
  checks : SEOChecks;
  recommendations : list string;
  density : Q
}.

(** [Object.keys(checks)] and [Object.values(checks)]: the properties of
    the object literal, in the order of their creation. *)
Definition Object_keys (c : SEOChecks) : list string :=
  [ "keywordDensity"; "keywordInTitle"; "keywordInMetaDescription";
    "keywordInH1"; "keywordInFirstParagraph"; "titleLength";
    "metaDescriptionLength"; "headingStructure"; "internalLinkCount";
    "externalLinkCount"; "wordCount"; "readabilityScore"; "hasFAQs";
    "hasCallToAction"; "hasImages"; "imageAltTags" ].

Definition Object_values (c : SEOChecks) : list bool :=
  [ keywordDensity c; keywordInTitle c; keywordInMetaDescription c;
    keywordInH1 c; keywordInFirstParagraph c; titleLength c;
    metaDescriptionLength c; headingStructure c; internalLinkCount c;
    externalLinkCount c; wordCountCheck c; readabilityScoreCheck c; hasFAQs c;
    hasCallToAction c; hasImages c; imageAltTags c ].

Definition TARGET_KEYWORD_DENSITY_min : Q := 1.
Definition TARGET_KEYWORD_DENSITY_max : Q := 3.
Definition TARGET_TITLE_LENGTH_min : nat := 30.
Definition TARGET_TITLE_LENGTH_max : nat := 60.
Definition TARGET_META_DESCRIPTION_LENGTH_min : nat := 120.
Definition TARGET_META_DESCRIPTION_LENGTH_max : nat := 160.
Definition TARGET_WORD_COUNT : Z := 2000.
Definition TARGET_INTERNAL_LINKS_min : nat := 3.
Definition TARGET_INTERNAL_LINKS_max : nat := 7.
Definition TARGET_EXTERNAL_LINKS_min : nat := 3.
Definition TARGET_READABILITY_SCORE : Q := 60.

(** The whitespace-delimited, non-empty tokens of the lowercased content:
    [content.toLowerCase().split(/\s+/).filter(w => w.length > 0)]. *)
Definition tokens (content : string) : list string :=
  filter (fun w => 0 <? String.length w)
         (split_class isWhiteSpace (toLowerCase content)).

Definition calculateKeywordDensity (content keyword : string) : Q :=
  let words := tokens content in
  let keywordLower := toLowerCase keyword in
  let keywordMatches := List.length (filter (fun w => includes w keywordLower) words) in
  if List.length words =? 0 then 0%Q
  else
    div (inject_Z
           (Math_round
              (mul (mul (div (of_nat keywordMatches) (of_nat (List.length words))) 100) 100)))
        100.

Definition checkKeywordDensity (content keyword : string) : bool :=
  let density := calculateKeywordDensity content keyword in
  geb density TARGET_KEYWORD_DENSITY_min && leb density TARGET_KEYWORD_DENSITY_max.

(** [content.split(/\n\n+/)[0] || content]: the first segment, or the
    content when that segment is the empty string (which is falsy). *)
Definition firstParagraphOf (content : string) : string :=
  match split_blank_lines content with
  | [] => content
  | seg :: _ => if String.eqb seg EmptyString then content else seg
  end.

Definition checkKeywordInFirstParagraph (content keyword : string) : bool :=
  let firstParagraph := firstParagraphOf content in
  includes (toLowerCase firstParagraph) (toLowerCase keyword).

(** The loop of [validateHeadingStructure]: [None] is the early
    [return false], [Some l] the value of [previousLevel] at the end. *)
Fixpoint walkHeadings (previousLevel : Z) (hs : list Heading) : option Z :=
  match hs with
  | [] => Some previousLevel
  | heading :: rest =>
      if (level heading >? previousLevel + 1)%Z then None
      else walkHeadings (level heading) rest
  end.

Definition validateHeadingStructure (hs : list Heading) : bool :=
  if List.length hs =? 0 then false
  else
    let hasH1 := existsb (fun h => (level h =? 1)%Z) hs in
    if negb hasH1 then false
    else
      match walkHeadings 1 hs with
      | None => false
      | Some _ => true
      end.

(** [recommendations.push(message)] *)
Definition push (l : list string) (message : string) : list string :=
  List.app l [message].

(** [if (cond) { body }] on the array of the recommendations: the array
    after the statement. *)
Definition when (cond : bool) (body : list string -> list string)
           (recommendations : list string) : list string :=
  if cond then body recommendations else recommendations.

Definition generateRecommendations (c : SEOChecks) (density : Q) (keyword : string)
  : list string :=
  let recommendations : list string := [] in
  let recommendations :=
    when (negb (keywordDensity c))
      (fun recommendations =>
         if ltb density TARGET_KEYWORD_DENSITY_min then
           push recommendations
             ("Add more mentions of " ++ dquote ++ keyword ++ dquote ++
              " naturally (currently " ++ Number_toString density ++
              "%, aim for 1-3%)")
         else
           push recommendations
             ("Reduce keyword usage (currently " ++ Number_toString density ++
              "%, aim for 1-3%) to avoid keyword stuffing"))
      recommendations in
  let recommendations :=
    when (negb (keywordInTitle c))
      (fun recommendations =>
         push recommendations
           ("Include your keyword " ++ dquote ++ keyword ++ dquote ++ " in the title"))
      recommendations in
  let recommendations :=
    when (negb (keywordInMetaDescription c))
      (fun recommendations =>
         push recommendations
           ("Add your keyword " ++ dquote ++ keyword ++ dquote ++
            " to the meta description"))
      recommendations in
  let recommendations :=
    when (negb (keywordInH1 c))
      (fun recommendations =>
         push recommendations
           ("Include your keyword in the main H1 heading"))
      recommendations in
  let recommendations :=
    when (negb (keywordInFirstParagraph c))
      (fun recommendations =>
         push recommendations
           ("Mention " ++ dquote ++ keyword ++ dquote ++
            " in the first paragraph for better SEO"))
      recommendations in
  let recommendations :=
    when (negb (titleLength c))
      (fun recommendations =>
         push recommendations
           ("Optimize title length (30-60 characters)"))
      recommendations in
  let recommendations :=
    when (negb (metaDescriptionLength c))
      (fun recommendations =>
         push recommendations
           ("Adjust meta description to 120-160 characters for optimal display"))
      recommendations in
  let recommendations :=
    when (negb (headingStructure c))
      (fun recommendations =>
         push recommendations
           ("Fix heading structure: Use H1" ++ arrow ++ "H2" ++ arrow ++
            "H3 hierarchy without skipping levels"))
      recommendations in
  let recommendations :=
    when (negb (internalLinkCount c))
      (fun recommendations =>
         push recommendations
           ("Add " ++ Number_toString (of_nat TARGET_INTERNAL_LINKS_min) ++ "-" ++
            Number_toString (of_nat TARGET_INTERNAL_LINKS_max) ++
            " internal links to related content"))
      recommendations in
  let recommendations :=
    when (negb (externalLinkCount c))
      (fun recommendations =>
         push recommendations
           ("Include at least " ++ Number_toString (of_nat TARGET_EXTERNAL_LINKS_min) ++
            " authoritative external links"))
      recommendations in
  let recommendations :=
    when (negb (wordCountCheck c))
      (fun recommendations =>
         push recommendations
           ("Expand content to at least " ++
            Number_toString (inject_Z TARGET_WORD_COUNT) ++
            " words for better rankings"))
      recommendations in
  let recommendations :=
    when (negb (readabilityScoreCheck c))
      (fun recommendations =>
         push recommendations
           ("Improve readability (aim for score of " ++
            Number_toString TARGET_READABILITY_SCORE ++
            "+). Use shorter sentences and simpler words."))
      recommendations in
  let recommendations :=
    when (negb (hasFAQs c))
      (fun recommendations =>
         push recommendations
           ("Add an FAQ section with at least 3 common questions"))
      recommendations in
  let recommendations :=
    when (negb (hasCallToAction c))
      (fun recommendations =>
         push recommendations
           ("Add a clear call-to-action at the end of the post"))
      recommendations in
  let recommendations :=
    when (negb (hasImages c))
      (fun recommendations =>
         push recommendations
           ("Add relevant images to make the content more engaging"))
      recommendations in
  let recommendations :=
    when (negb (imageAltTags c))
      (fun recommendations =>
         push recommendations
           ("Ensure all images have descriptive alt text for accessibility and SEO"))
      recommendations in
  recommendations.

Definition calculateSEOScore (c : SEOChecks) : Z :=
  let totalChecks := List.length (Object_keys c) in
  let passedChecks := List.length (filter (fun b : bool => b) (Object_values c)) in
  Math_round (mul (div (of_nat passedChecks) (of_nat totalChecks)) 100).

(** The default of an optional property. *)
Definition orDefault {A : Type} (o : option A) (d : A) : A :=
  match o with
  | Some a => a
  | None => d
  end.

(** [analyzeSEO].  In [imageAltTags], [content.match(...)?.length > 0]
    is the comparison of [undefined] with 0, which is false, when the
    match is [null]. *)
Definition analyzeSEO (params : Params) : SEOAnalysis :=
  let content := content params in
  let title := title params in
  let metaDescription := orDefault (metaDescription params) EmptyString in
  let keyword := keyword params in
  let headings := headings params in
  let wordCount := wordCount params in
  let readabilityScore := readabilityScore params in
  let faqs := orDefault (faqs params) [] in
  let internalLinks := orDefault (internalLinks params) [] in
  let externalLinks := orDefault (externalLinks params) [] in
  let checks := {|
    keywordDensity := checkKeywordDensity content keyword;
    keywordInTitle := includes (toLowerCase title) (toLowerCase keyword);
    keywordInMetaDescription :=
      includes (toLowerCase metaDescription) (toLowerCase keyword);
    keywordInH1 :=
      existsb (fun h => (level h =? 1)%Z &&
                        includes (toLowerCase (text h)) (toLowerCase keyword))
              headings;
    keywordInFirstParagraph := checkKeywordInFirstParagraph content keyword;
    titleLength :=
      (TARGET_TITLE_LENGTH_min <=? String.length title) &&
      (String.length title <=? TARGET_TITLE_LENGTH_max);
    metaDescriptionLength :=
      (TARGET_META_DESCRIPTION_LENGTH_min <=? String.length metaDescription) &&
      (String.length metaDescription <=? TARGET_META_DESCRIPTION_LENGTH_max);
    headingStructure := validateHeadingStructure headings;
    internalLinkCount :=
      (TARGET_INTERNAL_LINKS_min <=? List.length internalLinks) &&
      (List.length internalLinks <=? TARGET_INTERNAL_LINKS_max);
    externalLinkCount := TARGET_EXTERNAL_LINKS_min <=? List.length externalLinks;
    wordCountCheck := (TARGET_WORD_COUNT <=? wordCount)%Z;
    readabilityScoreCheck := geb readabilityScore TARGET_READABILITY_SCORE;
    hasFAQs := 3 <=? List.length faqs;
    hasCallToAction :=
      includes (toLowerCase content) "cta" ||
      includes (toLowerCase content) "call to action" ||
      includes (toLowerCase content) "get started" ||
      includes (toLowerCase content) "learn more";
    hasImages := includes content "<img" || includes content "![";
    imageAltTags :=
      includes content "alt=" ||
      match match_image content with
      | Some l => 0 <? List.length l
      | None => false
      end
  |} in
  let keywordDensity := calculateKeywordDensity content keyword in
  let recommendations := generateRecommendations checks keywordDensity keyword in
  let score := calculateSEOScore checks in
  {| score := score;
     checks := checks;
     recommendations := recommendations;
     density := keywordDensity |}.

End Optimizer.

(** ** Meta tags and schema markup ([src/unnamed/part_000], continued) *)

Module Markup.
Import JS Optimizer.
Local Open Scope string_scope.
Local Open Scope nat_scope.

(** The values that [generateMetaTags] and [generateSchemaMarkup] build:
    strings, arrays, and objects as the list of their properties in the
    order of their creation; [JUndefined] is the value [undefined]. *)
Local Unset Elimination Schemes.

Inductive JSValue :=
| JUndefined
| JString (s : string)
| JArray (items : list JSValue)
| JObject (props : list (string * JSValue)).

Local Set Elimination Schemes.

(** [o[key]] on the properties of an object: [undefined] when there
    is no such property. *)
Fixpoint lookup (props : list (string * JSValue)) (key : string) : JSValue :=
  match props with
  | [] => JUndefined
  | (k, v) :: rest => if String.eqb k key then v else lookup rest key
  end.

(** [o.key] *)
Definition get (o : JSValue) (key : string) : JSValue :=
  match o with
  | JObject props => lookup props key
  | _ => JUndefined
  end.

(** [a[i]] *)
Definition item (a : JSValue) (i : nat) : JSValue :=
  match a with
  | JArray items => nth i items JUndefined
  | _ => JUndefined
  end.

(** [o.key = v]: the property is replaced where it is, or added after
    the others. *)
Fixpoint assign (props : list (string * JSValue)) (key : string) (v : JSValue)
  : list (string * JSValue) :=
  match props with
  | [] => [(key, v)]
  | (k, x) :: rest =>
      if String.eqb k key then (k, v) :: rest else (k, x) :: assign rest key v
  end.

Definition setProp (o : JSValue) (key : string) (v : JSValue) : JSValue :=
  match o with
  | JObject props => JObject (assign props key v)
  | _ => o
  end.

(** The truth value of an optional string: absent and empty are falsy. *)
Definition truthy (s : option string) : bool :=
  match s with
  | Some (String _ _) => true
  | _ => false
  end.

(** An optional string as a value. *)
Definition optional (s : option string) : JSValue :=
  match s with
  | Some x => JString x
  | None => JUndefined
  end.

(** [generateMetaTags]; its parameter object is destructured into the
    arguments. *)
Definition generateMetaTags (title description keyword url : string)
           (image publishedAt : option string) : JSValue :=
  JObject
    [ ("title", JString title);
      ("description", JString description);
      ("keywords", JString keyword);
      ("openGraph",
       JObject
         [ ("title", JString title);
           ("description", JString description);
           ("url", JString url);
           ("siteName", JString "Blog Automation");
           ("images",
            if truthy image then JArray [JObject [("url", optional image)]]
            else JUndefined);
           ("type", JString "article");
           ("publishedTime", optional publishedAt) ]);
      ("twitter",
       JObject
         [ ("card", JString "summary_large_image");
           ("title", JString title);
           ("description", JString description);
           ("images",
            if truthy image then JArray [optional image] else JUndefined) ]) ].

(** The [Question] node of a FAQ. *)
Definition questionNode (faq : FAQ) : JSValue :=
  JObject
    [ ("@type", JString "Question");
      ("name", JString (question faq));
      ("acceptedAnswer",
       JObject [ ("@type", JString "Answer"); ("text", JString (answer faq)) ]) ].

(** [generateSchemaMarkup]; its parameter object is destructured into the
    arguments. *)
Definition generateSchemaMarkup
           (title description author publishedAt modifiedAt url : string)
           (image : option string) (faqs : option (list FAQ)) : JSValue :=
  let baseSchema :=
    JObject
      [ ("@context", JString "https://schema.org");
        ("@type", JString "BlogPosting");
        ("headline", JString title);
        ("description", JString description);
        ("author",
         JObject [ ("@type", JString "Person"); ("name", JString author) ]);
        ("datePublished", JString publishedAt);
        ("dateModified", JString modifiedAt);
        ("url", JString url);
        ("mainEntityOfPage",
         JObject [ ("@type", JString "WebPage"); ("@id", JString url) ]) ] in
  let baseSchema :=
    if truthy image then
      setProp baseSchema "image"
              (JObject [ ("@type", JString "ImageObject"); ("url", optional image) ])
    else baseSchema in
  match faqs with
  | Some faqs =>
      if 0 <? List.length faqs then
        JObject
          [ ("@context", JString "https://schema.org");
            ("@graph",
             JArray
               [ baseSchema;
                 JObject
                   [ ("@type", JString "FAQPage");
                     ("mainEntity", JArray (map questionNode faqs)) ] ]) ]
      else baseSchema
  | None => baseSchema
  end.

End Markup.

(** ** The blog generator ([src/lib/ai/blog-generator.ts]) *)

Module BlogGenerator.
Import JS Number.
Local Open Scope string_scope.
Local Open Scope nat_scope.

(** The syllables of one word of [countSyllables]: the body of the
    reducer without its accumulator. *)
Definition syllablesOfWord (word : string) : nat :=
  if String.length word <=? 3 then 1
  else
    let syllableMatches := match_vowels word in
    Nat.max 1 (match syllableMatches with
               | Some l => List.length l
               | None => 1
               end).

Definition countSyllables (text : string) : nat :=
  fold_left
    (fun acc word => acc + syllablesOfWord word)
    (filter (fun word => 0 <? String.length word)
            (split_class isWhiteSpace (replace_non_letters (toLowerCase text))))
    0.

Definition sentencesOf (text : string) : list string :=
  filter (fun s => 0 <? String.length (trim s)) (split_class isSentenceEnd text).

Definition wordsOf (text : string) : list string :=
  filter (fun w => 0 <? String.length w) (split_class isWhiteSpace text).

(** The Flesch Reading Ease expression of the source, in the arithmetic
    of the host, on numbers of words, sentences and syllables. *)
Definition fleschScore (words sentences syllables : nat) : Q :=
  let avgSentenceLength := div (of_nat words) (of_nat sentences) in
  let avgSyllablesPerWord := div (of_nat syllables) (of_nat words) in
  sub (sub (literal (206835 # 1000)) (mul (literal (1015 # 1000)) avgSentenceLength))
      (mul (literal (846 # 10)) avgSyllablesPerWord).

Definition calculateReadability (text : string) : Z :=
  let sentences := sentencesOf text in
  let words := wordsOf text in
  let syllables := countSyllables text in
  if (List.length sentences =? 0) || (List.length words =? 0) then 0%Z
  else
    let score := fleschScore (List.length words) (List.length sentences) syllables in
    Z.max 0 (Z.min 100 (Math_round score)).

(** The object that the model service returns ([blogPostSchema]). *)
Record GeneratedObject := {
  title : string;
  slug : string;
  metaTitle : string;
  metaDescription : string;
  content : string;
  headings : list Optimizer.Heading;
  faqs : list Optimizer.FAQ;
  internalLinks : list string;
  externalLinks : list Optimizer.ExternalLink;
  wordCount : Q;
  readabilityScore : Q
}.

(** The post that [generateBlogPost] returns: the object with its
    readability and word count recomputed, and the time of generation. *)
Record Post := {
  object : GeneratedObject;
  postReadabilityScore : Z;
  postWordCount : nat;
  generatedAt : string
}.

(** What the prompts of [generateBlogPost] are built from. *)
Record GenerateParams := {
  topic : string;
  keyword : string;
  tone : option string;
  audience : option string;
  includeData : option bool;
  targetWordCount : option Z
}.

(** The defaults of [generateBlogPost] applied. *)
Record Prompt := {
  promptTopic : string;
  promptKeyword : string;
  promptTone : string;
  promptAudience : string;
  promptIncludeData : bool;
  promptWordCount : Z
}.

Record BulkItem := {
  itemTopic : string;
  itemKeyword : string;
  itemTone : option string
}.

Record BulkParams := {
  topics : list BulkItem;
  bulkAudience : option string;
  bulkIncludeData : option bool
}.

Section Generation.

(** The world outside the program: the model service and the clock.
    [generateObject] is the awaited call of the model service with the
    prompts built from a [Prompt]; it either rejects with an error or
    resolves to an object.  [toISOString_now] reads the clock. *)
Variable World : Type.
Variable Error : Type.
Variable generateObject : Prompt -> World -> (Error + GeneratedObject) * World.
Variable toISOString_now : World -> string * World.

(** One entry of the array that [generateBulkPosts] returns:
    [{ success: true, post }] or [{ success: false, topic, error }]. *)
Inductive BulkResult :=
| Succeeded (post : Post)
| Failed (failedTopic : string) (error : Error).

Definition success (r : BulkResult) : bool :=
  match r with
  | Succeeded _ => true
  | Failed _ _ => false
  end.

Definition generateBlogPost (params : GenerateParams) (w : World)
  : (Error + Post) * World :=
  let prompt := {|
    promptTopic := topic params;
    promptKeyword := keyword params;
    promptTone := Optimizer.orDefault (tone params) "professional";
    promptAudience := Optimizer.orDefault (audience params) "general audience";
    promptIncludeData := Optimizer.orDefault (includeData params) true;
    promptWordCount := Optimizer.orDefault (targetWordCount params) 2000%Z
  |} in
  match generateObject prompt w with
  | (inl error, w1) => (inl error, w1)
  | (inr obj, w1) =>
      let readabilityScore := calculateReadability (content obj) in
      let words := List.length (split_class isWhiteSpace (content obj)) in
      let (stamp, w2) := toISOString_now w1 in
      (inr {| object := obj;
              postReadabilityScore := readabilityScore;
              postWordCount := words;
              generatedAt := stamp |}, w2)
  end.

(** [(item.tone as any) || 'professional']: an absent or empty tone is
    falsy. *)
Definition toneOrProfessional (t : option string) : string :=
  match t with
  | Some EmptyString | None => "professional"
  | Some t' => t'
  end.

(** The loop of [generateBulkPosts] over the topics still to process,
    with the array [posts] built so far. *)
Fixpoint bulkLoop (audience : string) (includeData : bool)
         (items : list BulkItem) (posts : list BulkResult) (w : World)
  : list BulkResult * World :=
  match items with
  | [] => (posts, w)
  | item :: rest =>
      match generateBlogPost
              {| topic := itemTopic item;
                 keyword := itemKeyword item;
                 tone := Some (toneOrProfessional (itemTone item));
                 audience := Some audience;
                 includeData := Some includeData;
                 targetWordCount := None |} w with
      | (inr post, w1) =>
          bulkLoop audience includeData rest (List.app posts [Succeeded post]) w1
      | (inl error, w1) =>
          bulkLoop audience includeData rest
                   (List.app posts [Failed (itemTopic item) error]) w1
      end
  end.

Definition generateBulkPosts (params : BulkParams) (w : World)
  : list BulkResult * World :=
  let audience := Optimizer.orDefault (bulkAudience params) "general audience" in
  let includeData := Optimizer.orDefault (bulkIncludeData params) true in
  bulkLoop audience includeData (topics params) [] w.

End Generation.

Arguments Succeeded {Error} post.
Arguments Failed {Error} failedTopic error.
Arguments success {Error} r.

(** What the prompt of [improveReadability] is built from. *)
Record RevisionPrompt := {
  revisedContent : string;
  revisionTarget : Q;
  revisionCurrent : Z
}.

Section Revision.

(** [generateText] is the awaited call of the model service with the
    prompt built from a [RevisionPrompt]. *)
Variable World : Type.
Variable Error : Type.
Variable generateText : RevisionPrompt -> World -> (Error + string) * World.

Definition improveReadability (content : string) (targetScore : option Q) (w : World)
  : (Error + string) * World :=
  let targetScore := Optimizer.orDefault targetScore 70%Q in
  let currentScore := calculateReadability content in
  if geb (inject_Z currentScore) targetScore then (inr content, w)
  else
    match generateText {| revisedContent := content;
                          revisionTarget := targetScore;
                          revisionCurrent := currentScore |} w with
    | (inl error, w1) => (inl error, w1)
    | (inr text, w1) => (inr text, w1)
    end.

End Revision.

End BlogGenerator.

(** ** The route ([src/app/api/generate/blog-post/route.ts]) *)

Module Route.
Import JS BlogGenerator.
Local Open Scope string_scope.
Local Open Scope nat_scope.

(** The values that [await req.json()] resolves to: what [JSON.parse]
    makes of the body of the request.  A number is a binary64 value; a
    literal too large for binary64 is read as an infinity.  An object is
    the list of its properties, each name once. *)
Local Unset Elimination Schemes.

Inductive Json :=
| JsonNull
| JsonBool (b : bool)
| JsonNumber (x : Q)
| JsonInfinity (negative : bool)
| JsonString (s : string)
| JsonArray (items : list Json)
| JsonObject (props : list (string * Json)).

Local Set Elimination Schemes.

Fixpoint lookupProperty (props : list (string * Json)) (key : string) : option Json :=
  match props with
  | [] => None
  | (k, v) :: rest => if String.eqb k key then Some v else lookupProperty rest key
  end.

(** [body.key] for the six names that the handler reads, [None] being
    [undefined]: a property of an object; nothing on a number, a
    boolean, a string or an array, which have no property of these
    names.  (Reading a property of [null] throws, see [POST].) *)
Definition property (body : Json) (key : string) : option Json :=
  match body with
  | JsonObject props => lookupProperty props key
  | _ => None
  end.

(** The truth value of a value: [undefined], [null], [false], zero and
    the empty string are falsy, everything else is truthy. *)
Definition truthy (v : option Json) : bool :=
  match v with
  | None => false
  | Some JsonNull => false
  | Some (JsonBool b) => b
  | Some (JsonNumber x) => negb (Qeq_bool x 0)
  | Some (JsonInfinity _) => true
  | Some (JsonString EmptyString) => false
  | Some (JsonString (String _ _)) => true
  | Some (JsonArray _) => true
  | Some (JsonObject _) => true
  end.

(** The JSON of a response: [{ error }], [{ success: true, post, seo }]
    or [{ success: false, error }]. *)
Inductive Payload :=
| MissingFields (error : string)
| Generated (post : Post) (seo : Optimizer.SEOAnalysis)
| Unsuccessful (error : string).

Record Response := { payload : Payload; status : nat }.

(** The parameter object that the handler gives to [analyzeSEO]. *)
Definition seoParams (post : Post) (keyword : string) : Optimizer.Params :=
  {| Optimizer.content := content (object post);
     Optimizer.title := title (object post);
     Optimizer.metaDescription := Some (metaDescription (object post));
     Optimizer.keyword := keyword;
     Optimizer.headings := headings (object post);
     Optimizer.wordCount := Z.of_nat (postWordCount post);
     Optimizer.readabilityScore := inject_Z (postReadabilityScore post);
     Optimizer.faqs := Some (faqs (object post));
     Optimizer.internalLinks := Some (internalLinks (object post));
     Optimizer.externalLinks := Some (externalLinks (object post)) |}.

(** The parameter object that the handler gives to [generateBlogPost]:
    the types of the source are erased when the handler runs, and the
    properties are the values of the request, whatever they are. *)
Record RawParams := {
  givenTopic : option Json;
  givenKeyword : option Json;
  givenTone : option Json;
  givenAudience : option Json;
  givenIncludeData : option Json;
  givenWordCount : option Json
}.

(** What the prompts of [generateBlogPost] are built from, the defaults
    applied. *)
Record RawPrompt := {
  rawTopic : option Json;
  rawKeyword : option Json;
  rawTone : Json;
  rawAudience : Json;
  rawIncludeData : Json;
  rawWordCount : Json
}.

(** The typed parameters and prompt as values of the request. *)
Definition rawOfPrompt (pr : Prompt) : RawPrompt :=
  {| rawTopic := Some (JsonString (promptTopic pr));
     rawKeyword := Some (JsonString (promptKeyword pr));
     rawTone := JsonString (promptTone pr);
     rawAudience := JsonString (promptAudience pr);
     rawIncludeData := JsonBool (promptIncludeData pr);
     rawWordCount := JsonNumber (inject_Z (promptWordCount pr)) |}.

Definition rawOfParams (params : GenerateParams) : RawParams :=
  {| givenTopic := Some (JsonString (topic params));
     givenKeyword := Some (JsonString (keyword params));
     givenTone := option_map JsonString (tone params);
     givenAudience := option_map JsonString (audience params);
     givenIncludeData := option_map JsonBool (includeData params);
     givenWordCount :=
       option_map (fun n => JsonNumber (inject_Z n)) (targetWordCount params) |}.

Section Handler.

(** The world is the one of the generator.  [generateObjectRaw] is the
    making of the two prompts from the values (which throws when a value
    has no string form) followed by the awaited call of the model
    service.  [messageOf] is [error instanceof Error ? error.message :
    ...]: the message of an error object, nothing for another thrown
    value.  [nullBodyError] is the TypeError that the destructuring of
    [null] throws, [notAFunction v] the TypeError that the call
    [keyword.toLowerCase()] throws for a keyword [v] that is no
    string. *)
Variable World : Type.
Variable Error : Type.
Variable generateObjectRaw : RawPrompt -> World -> (Error + GeneratedObject) * World.
Variable toISOString_now : World -> string * World.
Variable messageOf : Error -> option string.
Variable nullBodyError : Error.
Variable notAFunction : option Json -> Error.

(** [generateBlogPost] on the values of the request. *)
Definition generateBlogPostRaw (params : RawParams) (w : World)
  : (Error + Post) * World :=
  let prompt := {|
    rawTopic := givenTopic params;
    rawKeyword := givenKeyword params;
    rawTone := Optimizer.orDefault (givenTone params) (JsonString "professional");
    rawAudience :=
      Optimizer.orDefault (givenAudience params) (JsonString "general audience");
    rawIncludeData := Optimizer.orDefault (givenIncludeData params) (JsonBool true);
    rawWordCount := Optimizer.orDefault (givenWordCount params) (JsonNumber 2000)
  |} in
  match generateObjectRaw prompt w with
  | (inl error, w1) => (inl error, w1)
  | (inr obj, w1) =>
      let readabilityScore := calculateReadability (content obj) in
      let words := List.length (split_class isWhiteSpace (content obj)) in
      let (stamp, w2) := toISOString_now w1 in
      (inr {| object := obj;
              postReadabilityScore := readabilityScore;
              postWordCount := words;
              generatedAt := stamp |}, w2)
  end.

(** The [catch] clause: the error goes to the console and into a
    response of status 500. *)
Definition caught (error : Error) : Response * list Error :=
  ({| payload :=
        Unsuccessful (Optimizer.orDefault (messageOf error)
                                          "Failed to generate blog post");
      status := 500 |},
   [error]).

(** [POST].  [json] is the outcome of [await req.json()]; the result is
    the response, what went to [console.error], and the world after.
    [analyzeSEO] lowers the case of the keyword first of all, which
    throws when the keyword is no string. *)
Definition POST (json : Error + Json) (w : World)
  : Response * list Error * World :=
  match json with
  | inl error => (caught error, w)
  | inr JsonNull => (caught nullBodyError, w)
  | inr body =>
      let topic := property body "topic" in
      let keyword := property body "keyword" in
      let tone :=
        Optimizer.orDefault (property body "tone") (JsonString "professional") in
      let audience :=
        Optimizer.orDefault (property body "audience")
                            (JsonString "general audience") in
      let includeData :=
        Optimizer.orDefault (property body "includeData") (JsonBool true) in
      let wordCount :=
        Optimizer.orDefault (property body "wordCount") (JsonNumber 2000) in
      if negb (truthy topic) || negb (truthy keyword) then
        ({| payload :=
              MissingFields "Missing required fields: topic and keyword are required";
            status := 400 |}, [], w)
      else
        match generateBlogPostRaw
                {| givenTopic := topic;
                   givenKeyword := keyword;
                   givenTone := Some tone;
                   givenAudience := Some audience;
                   givenIncludeData := Some includeData;
                   givenWordCount := Some wordCount |} w with
        | (inl error, w1) => (caught error, w1)
        | (inr generatedPost, w1) =>
            match keyword with
            | Some (JsonString keyword) =>
                let seoAnalysis :=
                  Optimizer.analyzeSEO (seoParams generatedPost keyword) in
                ({| payload := Generated generatedPost seoAnalysis; status := 200 |},
                 [], w1)
            | _ => (caught (notAFunction keyword), w1)
            end
        end
  end.

End Handler.

End Route.

(** ** The words of the specification

    Definitions that follow the specification rather than the code; the
    properties below compare them with the code. *)

Module Spec.
Import JS Number.
Local Open Scope string_scope.
Local Open Scope nat_scope.

(** The level that precedes the heading of index [i]: the level of the
    heading before it, and the assumed level 1 before the first one. *)
Definition previousLevel (hs : list Optimizer.Heading) (i : nat) : Z :=
  match i with
  | O => 1%Z
  | S j => match nth_error hs j with
           | Some h => Optimizer.level h
           | None => 1%Z
           end
  end.

(** No heading is more than one level deeper than what precedes it. *)
Definition noSkippedLevel (hs : list Optimizer.Heading) : Prop :=
  forall i h, nth_error hs i = Some h ->
              (Optimizer.level h <= previousLevel hs i + 1)%Z.

Definition startsWithLF (s : string) : bool :=
  match s with
  | String c _ => Ascii.eqb c LF
  | EmptyString => false
  end.

(** The text that precedes the first run of two or more consecutive
    line feeds (U+000A), that is, the first empty line; the whole text
    when no two line feeds follow each other. *)
Fixpoint beforeEmptyLines (s : string) : string :=
  match s with
  | EmptyString => EmptyString
  | String c r =>
      if Ascii.eqb c LF && startsWithLF r then EmptyString
      else String c (beforeEmptyLines r)
  end.

(** The first-paragraph test on the first segment alone, the segments
    being separated by the runs of two or more line feeds: the whole
    content when nothing splits it. *)
Definition inFirstParagraph_spec (content keyword : string) : bool :=
  includes (toLowerCase (beforeEmptyLines content)) (toLowerCase keyword).

(** The reading of the specification in which a blank line is a line
    that holds nothing but white space, so that the blank line of a text
    whose lines end with CR LF, and a line of spaces, separate two
    paragraphs.  [blankLineAhead s] tells that [s] starts with white
    space up to a line feed. *)
Fixpoint blankLineAhead (s : string) : bool :=
  match s with
  | EmptyString => false
  | String c r =>
      if Ascii.eqb c LF then true else isWhiteSpace c && blankLineAhead r
  end.

Fixpoint beforeBlankLine_claimed (s : string) : string :=
  match s with
  | EmptyString => EmptyString
  | String c r =>
      if Ascii.eqb c LF && blankLineAhead r then EmptyString
      else String c (beforeBlankLine_claimed r)
  end.

Definition inFirstParagraph_claimed (content keyword : string) : bool :=
  includes (toLowerCase (beforeBlankLine_claimed content)) (toLowerCase keyword).

(** Two line feeds follow each other somewhere in the text. *)
Definition hasEmptyLine (s : string) : bool :=
  includes s (String LF (String LF EmptyString)).

(** Rounding of an exact quotient to the nearest integer, a half going up. *)
Definition roundHalfUp (q : Q) : Z := Qfloor (q + (1 # 2)).

Definition startsWith (p : ascii -> bool) (s : string) : bool :=
  match s with
  | String c _ => p c
  | EmptyString => false
  end.

(** The maximal runs of the characters that satisfy [p], in the order of
    the text; each of them has a character at least. *)
Fixpoint runs (p : ascii -> bool) (s : string) : list string :=
  match s with
  | EmptyString => []
  | String c r =>
      if p c then
        if startsWith p r then consHead c (runs p r)
        else String c EmptyString :: runs p r
      else runs p r
  end.

Definition notWhiteSpace (c : ascii) : bool := negb (isWhiteSpace c).

(** The whitespace-delimited tokens of the lowercased content, and those
    that hold the lowercased keyword. *)
Definition tokens_spec (content : string) : list string :=
  runs notWhiteSpace (toLowerCase content).

Definition matches_spec (content keyword : string) : list string :=
  filter (fun w => includes w (toLowerCase keyword)) (tokens_spec content).

(** [round (x, 2 decimals)], a half going up. *)
Definition round2 (x : Q) : Q := (inject_Z (roundHalfUp (x * 100)) / 100)%Q.

(** The density as the specification words it: the percentage of the
    matching tokens rounded to two decimals (the binary64 number nearest
    to it), and 0 when there is no token. *)
Definition density_spec (content keyword : string) : Q :=
  let total := List.length (tokens_spec content) in
  let matches := List.length (matches_spec content keyword) in
  if total =? 0 then 0%Q
  else fl (round2 (inject_Z (Z.of_nat matches) / inject_Z (Z.of_nat total) * 100)).

(** All the characters of a string satisfy a test. *)
Fixpoint allChars (p : ascii -> bool) (s : string) : bool :=
  match s with
  | EmptyString => true
  | String c r => p c && allChars p r
  end.

(** *** Readability, as the specification words it *)

Definition notSentenceEnd (c : ascii) : bool := negb (isSentenceEnd c).

(** A segment that holds something else than white space. *)
Definition notBlank (s : string) : bool := negb (allChars isWhiteSpace s).

(** The sentences: the text between the runs of [.], [!] and [?], the
    blank pieces left out. *)
Definition sentences_spec (text : string) : list string :=
  filter notBlank (runs notSentenceEnd text).

(** The words: the text between the runs of white space. *)
Definition words_spec (text : string) : list string := runs notWhiteSpace text.

(** The syllables of a word: 1 for a word of at most three characters,
    else the number of its runs of vowels, and 1 at least. *)
Definition syllables_spec (word : string) : nat :=
  if String.length word <=? 3 then 1
  else Nat.max 1 (List.length (runs isVowel word)).

(** The words that the syllables are counted on: the maximal runs of
    the letters a to z of the lowercased text. *)
Definition letterWords (text : string) : list string :=
  runs isLowerLetter (toLowerCase text).

Definition syllableCount_spec (text : string) : nat :=
  list_sum (map syllables_spec (letterWords text)).

(** Clamping to the interval from 0 to 100. *)
Definition clamp (x : Q) : Q :=
  if Qle_bool x 0 then 0%Q else if Qle_bool 100 x then 100%Q else x.

(** The Flesch Reading Ease expression of the specification, in exact
    arithmetic, on numbers of words, sentences and syllables. *)
Definition flesch_spec (words sentences syllables : nat) : Q :=
  ((206835 # 1000)
   - (1015 # 1000) * (inject_Z (Z.of_nat words) / inject_Z (Z.of_nat sentences))
   - (846 # 10) * (inject_Z (Z.of_nat syllables) / inject_Z (Z.of_nat words)))%Q.

(** The score of given numbers of words, sentences and syllables: the
    exact value of the Flesch expression clamped to the interval from 0
    to 100 and rounded to the nearest integer, a half going up; 0 without
    a sentence or without a word. *)
Definition readabilityOf (words sentences syllables : nat) : Z :=
  if (sentences =? 0) || (words =? 0) then 0%Z
  else roundHalfUp (clamp (flesch_spec words sentences syllables)).

(** A value is clear of the ties of the rounding when it lies 2^-40 at
    least away from the two half-integers around its nearest integer. *)
Definition tieMargin : Q := 1 # 2 ^ 40.

Definition clearOfTies (x : Q) : bool :=
  Qle_bool (inject_Z (roundHalfUp x) - (1 # 2) + tieMargin) x &&
  Qle_bool x (inject_Z (roundHalfUp x) + (1 # 2) - tieMargin).

Definition readability_spec (text : string) : Z :=
  readabilityOf (List.length (words_spec text))
                (List.length (sentences_spec text))
                (syllableCount_spec text).

(** The reading of the specification in which the syllables are counted
    on the whitespace-delimited words. *)
Definition syllableCount_claimed (text : string) : nat :=
  list_sum (map syllables_spec (words_spec (toLowerCase text))).

Definition readability_claimed (text : string) : Z :=
  readabilityOf (List.length (words_spec text))
                (List.length (sentences_spec text))
                (syllableCount_claimed text).

(** The number of checks that pass. *)
Definition passedCount (c : Optimizer.SEOChecks) : nat :=
  count_occ bool_dec (Optimizer.Object_values c) true.

(** The rule table of the specification: one row per check, in the order
    of declaration, with the name of the check, its outcome and the
    message of its failure. *)
Record Rule := { ruleName : string; outcome : bool; message : string }.

Definition densityMessage (density : Q) (keyword : string) : string :=
  if ltb density 1 then
    "Add more mentions of " ++ dquote ++ keyword ++ dquote ++
    " naturally (currently " ++ NumberToString.Number_toString density ++
    "%, aim for 1-3%)"
  else
    "Reduce keyword usage (currently " ++ NumberToString.Number_toString density ++
    "%, aim for 1-3%) to avoid keyword stuffing".

Definition ruleTable (c : Optimizer.SEOChecks) (density : Q) (keyword : string)
  : list Rule :=
  [ {| ruleName := "keywordDensity"; outcome := Optimizer.keywordDensity c;
       message := densityMessage density keyword |};
    {| ruleName := "keywordInTitle"; outcome := Optimizer.keywordInTitle c;
       message := "Include your keyword " ++ dquote ++ keyword ++ dquote ++
                  " in the title" |};
    {| ruleName := "keywordInMetaDescription";
       outcome := Optimizer.keywordInMetaDescription c;
       message := "Add your keyword " ++ dquote ++ keyword ++ dquote ++
                  " to the meta description" |};
    {| ruleName := "keywordInH1"; outcome := Optimizer.keywordInH1 c;
       message := "Include your keyword in the main H1 heading" |};
    {| ruleName := "keywordInFirstParagraph";
       outcome := Optimizer.keywordInFirstParagraph c;
       message := "Mention " ++ dquote ++ keyword ++ dquote ++
                  " in the first paragraph for better SEO" |};
    {| ruleName := "titleLength"; outcome := Optimizer.titleLength c;
       message := "Optimize title length (30-60 characters)" |};
    {| ruleName := "metaDescriptionLength";
       outcome := Optimizer.metaDescriptionLength c;
       message := "Adjust meta description to 120-160 characters for optimal display" |};
    {| ruleName := "headingStructure"; outcome := Optimizer.headingStructure c;
       message := "Fix heading structure: Use H1" ++ arrow ++ "H2" ++ arrow ++
                  "H3 hierarchy without skipping levels" |};
    {| ruleName := "internalLinkCount"; outcome := Optimizer.internalLinkCount c;
       message := "Add 3-7 internal links to related content" |};
    {| ruleName := "externalLinkCount"; outcome := Optimizer.externalLinkCount c;
       message := "Include at least 3 authoritative external links" |};
    {| ruleName := "wordCount"; outcome := Optimizer.wordCountCheck c;
       message := "Expand content to at least 2000 words for better rankings" |};
    {| ruleName := "readabilityScore"; outcome := Optimizer.readabilityScoreCheck c;
       message := "Improve readability (aim for score of 60+). Use shorter sentences and simpler words." |};
    {| ruleName := "hasFAQs"; outcome := Optimizer.hasFAQs c;
       message := "Add an FAQ section with at least 3 common questions" |};
    {| ruleName := "hasCallToAction"; outcome := Optimizer.hasCallToAction c;
       message := "Add a clear call-to-action at the end of the post" |};
    {| ruleName := "hasImages"; outcome := Optimizer.hasImages c;
       message := "Add relevant images to make the content more engaging" |};
    {| ruleName := "imageAltTags"; outcome := Optimizer.imageAltTags c;
       message := "Ensure all images have descriptive alt text for accessibility and SEO" |} ].

(** The messages of the rules that fail, in the order of the table. *)
Definition failedMessages (table : list Rule) : list string :=
  map message (filter (fun r => negb (outcome r)) table).

(** What tells the messages of two rules apart: the first six
    characters, and the character that follows the words
    [Include your keyword] when the message starts with them. *)
Definition messageKey (m : string) : string :=
  substring 0 6 m ++
  (if String.prefix "Include your keyword " m then substring 21 1 m
   else EmptyString).

Definition notLineTerminator (c : ascii) : bool := negb (isLineTerminator c).

(** The content holds a Markdown image [![alt](url)] written on one
    line. *)
Definition hasMarkdownImage (content : string) : Prop :=
  exists pre alt url post : string,
    content = pre ++ "![" ++ alt ++ "](" ++ url ++ ")" ++ post /\
    allChars notLineTerminator alt = true /\
    allChars notLineTerminator url = true.







(** The artifact in which every input that the error-handling section
    lists is degenerate at once: empty content, no heading, no link, no
    meta description, no FAQ, zero words.  Absent and empty optional
    properties are the same to [analyzeSEO]. *)
Record DegenerateArtifact (p : Optimizer.Params) : Prop := {
  dgContent : Optimizer.content p = EmptyString;
  dgHeadings : Optimizer.headings p = [];
  dgMeta : Optimizer.orDefault (Optimizer.metaDescription p) EmptyString = EmptyString;
  dgFaqs : Optimizer.orDefault (Optimizer.faqs p) [] = [];
  dgInternal : Optimizer.orDefault (Optimizer.internalLinks p) [] = [];
  dgExternal : Optimizer.orDefault (Optimizer.externalLinks p) [] = [];
  dgWords : Optimizer.wordCount p = 0%Z
}.

(** *** Bulk generation, as the specification words it

    The topics are processed one after the other, in the order of the
    input, each generation starting in the world that the previous one
    left; a failure is recorded with its topic and the run goes on. *)

Section Bulk.

Variable World : Type.
Variable Error : Type.
Variable generateObject :
  BlogGenerator.Prompt -> World ->
  (Error + BlogGenerator.GeneratedObject) * World.
Variable toISOString_now : World -> string * World.

(** The request that the bulk run makes for an item. *)
Definition itemParams (audience : string) (includeData : bool)
           (item : BlogGenerator.BulkItem) : BlogGenerator.GenerateParams :=
  {| BlogGenerator.topic := BlogGenerator.itemTopic item;
     BlogGenerator.keyword := BlogGenerator.itemKeyword item;
     BlogGenerator.tone :=
       Some (BlogGenerator.toneOrProfessional (BlogGenerator.itemTone item));
     BlogGenerator.audience := Some audience;
     BlogGenerator.includeData := Some includeData;
     BlogGenerator.targetWordCount := None |}.

Inductive bulkRun (audience : string) (includeData : bool) :
  World -> list BlogGenerator.BulkItem ->
  list (BlogGenerator.BulkResult Error) -> World -> Prop :=
| bulkRun_done (w : World) : bulkRun audience includeData w [] [] w
| bulkRun_succeeded (w w1 w2 : World) item rest post results :
    BlogGenerator.generateBlogPost World Error generateObject toISOString_now
      (itemParams audience includeData item) w = (inr post, w1) ->
    bulkRun audience includeData w1 rest results w2 ->
    bulkRun audience includeData w (item :: rest)
            (BlogGenerator.Succeeded post :: results) w2
| bulkRun_failed (w w1 w2 : World) item rest error results :
    BlogGenerator.generateBlogPost World Error generateObject toISOString_now
      (itemParams audience includeData item) w = (inl error, w1) ->
    bulkRun audience includeData w1 rest results w2 ->
    bulkRun audience includeData w (item :: rest)
            (BlogGenerator.Failed (BlogGenerator.itemTopic item) error :: results) w2.

(** An entry of the result stands for an item: a failure echoes the
    topic of the item. *)
Definition resultOf (item : BlogGenerator.BulkItem)
           (r : BlogGenerator.BulkResult Error) : Prop :=
  match r with
  | BlogGenerator.Succeeded _ => BlogGenerator.success r = true
  | BlogGenerator.Failed t _ =>
      BlogGenerator.success r = false /\ t = BlogGenerator.itemTopic item
  end.

End Bulk.

End Spec.

(** ** Example artifacts *)

Module Scenario.
Import JS Optimizer.
Local Open Scope string_scope.

Definition blankLine : string := String LF (String LF EmptyString).

(** Fifty tokens, one of which holds the keyword. *)
Definition sampleContent : string :=
  "Good seo starts with a clear plan and honest writing for real readers." ++
  blankLine ++ "![chart](chart.png)" ++ blankLine ++
  "Pick one topic per page, write short sentences, answer the questions people ask, link to trusted sources, and check every page on a phone. Get started today and learn more in our free starter guide online.".

Definition sampleFaqs : list FAQ :=
  [ {| question := "What is SEO?"; answer := "Making pages easy to find." |};
    {| question := "How long does it take?"; answer := "A few months." |};
    {| question := "Is it free?"; answer := "It costs time." |} ].

Definition fullScoreArtifact : Params :=
  {| content := sampleContent;
     title := "A practical SEO guide for small online stores";
     metaDescription :=
       Some "Learn how a simple SEO routine helps a small online shop earn steady search traffic, with clear steps you can follow in under an hour a week";
     keyword := "seo";
     headings := [ {| level := 1; text := "A practical SEO guide" |};
                   {| level := 2; text := "Plan the page" |} ];
     wordCount := 2200;
     readabilityScore := 70;
     faqs := Some sampleFaqs;
     internalLinks := Some ["/plan"; "/write"; "/links"; "/speed"; "/measure"];
     externalLinks :=
       Some [ {| url := "https://a.example/guide"; anchor := "guide" |};
              {| url := "https://b.example/study"; anchor := "study" |};
              {| url := "https://c.example/tool"; anchor := "tool" |};
              {| url := "https://d.example/data"; anchor := "data" |} ] |}.



(** The same artifact analysed for the empty keyword. *)
Definition emptyKeywordArtifact : Params :=
  {| content := sampleContent;
     title := title fullScoreArtifact;
     metaDescription := metaDescription fullScoreArtifact;
     keyword := EmptyString;
     headings := headings fullScoreArtifact;
     wordCount := 2200;
     readabilityScore := 70;
     faqs := Some sampleFaqs;
     internalLinks := internalLinks fullScoreArtifact;
     externalLinks := externalLinks fullScoreArtifact |}.

(** A degenerate artifact whose title and readability are fine. *)
Definition emptyBodyArtifact : Params :=
  {| content := EmptyString;
     title := "A practical SEO guide for small online stores";
     metaDescription := None;
     keyword := "seo";
     headings := [];
     wordCount := 0;
     readabilityScore := 70;
     faqs := None;
     internalLinks := Some [];
     externalLinks := None |}.

(** A degenerate artifact with nothing in it at all. *)
Definition emptyArtifact : Params :=
  {| content := EmptyString;
     title := EmptyString;
     metaDescription := None;
     keyword := "seo";
     headings := [];
     wordCount := 0;
     readabilityScore := 0;
     faqs := None;
     internalLinks := None;
     externalLinks := None |}.

(** A model service that rejects the topics whose name is [bad] and
    counts its calls, and a clock that shows the number of calls. *)
Definition sampleObject (pr : BlogGenerator.Prompt) : BlogGenerator.GeneratedObject :=
  {| BlogGenerator.title := BlogGenerator.promptTopic pr;
     BlogGenerator.slug := "post";
     BlogGenerator.metaTitle := BlogGenerator.promptTopic pr;
     BlogGenerator.metaDescription := "A post.";
     BlogGenerator.content := "Cat sat. Dog ran.";
     BlogGenerator.headings := [];
     BlogGenerator.faqs := [];
     BlogGenerator.internalLinks := [];
     BlogGenerator.externalLinks := [];
     BlogGenerator.wordCount := 4;
     BlogGenerator.readabilityScore := 100 |}.

Definition sampleService (pr : BlogGenerator.Prompt) (calls : nat)
  : (string + BlogGenerator.GeneratedObject) * nat :=
  if String.eqb (BlogGenerator.promptTopic pr) "bad"
  then (inl "the model service timed out", S calls)
  else (inr (sampleObject pr), S calls).

Definition sampleClock (calls : nat) : string * nat :=
  (NilZero.string_of_uint (Nat.to_uint calls), calls).

Definition firstItem : BlogGenerator.BulkItem :=
  {| BlogGenerator.itemTopic := "first"; BlogGenerator.itemKeyword := "seo";
     BlogGenerator.itemTone := None |}.

Definition badItem : BlogGenerator.BulkItem :=
  {| BlogGenerator.itemTopic := "bad"; BlogGenerator.itemKeyword := "seo";
     BlogGenerator.itemTone := Some "casual" |}.

Definition thirdItem : BlogGenerator.BulkItem :=
  {| BlogGenerator.itemTopic := "third"; BlogGenerator.itemKeyword := "seo";
     BlogGenerator.itemTone := Some EmptyString |}.

Definition sampleTopics : list BlogGenerator.BulkItem :=
  [firstItem; badItem; thirdItem].

(** A content whose lines end with CR LF, with a blank line before the
    keyword, and a content whose blank line holds a space. *)
Definition CRLF : string := String "013"%char (String LF EmptyString).

Definition crlfContent : string :=
  "intro" ++ CRLF ++ CRLF ++ "seo after a blank line".

Definition spaceLineContent : string :=
  "intro" ++ String LF (String " "%char (String LF "seo after a blank line")).

(** [n] copies of a string, one after the other. *)
Fixpoint repeatString (n : nat) (s : string) : string :=
  match n with
  | O => EmptyString
  | S m => s ++ repeatString m s
  end.

(** 160 tokens, 23 of which hold the keyword [seo]: 14.375 per cent. *)
Definition tieContent : string :=
  repeatString 23 "seo " ++ repeatString 137 "word ".

(** 520 words in 14 sentences, with 637 syllables: 403 words of one
    syllable and 117 of two.  The exact value of the Flesch expression is
    65.5. *)
Definition halfPointText : string :=
  repeatString 13 "a. " ++ repeatString 390 "a " ++ repeatString 117 "baba ".

End Scenario.

(** ** Notions for the further properties *)

Module Observations.
Import JS Number Optimizer Markup.
Local Open Scope string_scope.
Local Open Scope nat_scope.

(** Two strings that differ by the case of their letters only. *)
Definition sameUpToCase (a b : string) : Prop := toLowerCase a = toLowerCase b.

(** Two lists of headings of the same levels and of the same texts up to
    case. *)
Definition sameHeadings (hs hs' : list Heading) : Prop :=
  Forall2 (fun h h' => level h = level h' /\ sameUpToCase (text h) (text h'))
          hs hs'.

(** The last character of a string satisfies a test. *)
Fixpoint endsWith (p : ascii -> bool) (s : string) : bool :=
  match s with
  | EmptyString => false
  | String c r =>
      match r with
      | EmptyString => p c
      | String _ _ => endsWith p r
      end
  end.

(** The number of tokens of the content that hold the keyword. *)
Definition matchCount (content keyword : string) : nat :=
  List.length (filter (fun w => includes w (toLowerCase keyword)) (tokens content)).

(** The two messages of the keywordDensity check. *)
Definition addMentionsMessage (density : Q) (keyword : string) : string :=
  "Add more mentions of " ++ dquote ++ keyword ++ dquote ++
  " naturally (currently " ++ NumberToString.Number_toString density ++
  "%, aim for 1-3%)".

Definition reduceUsageMessage (density : Q) : string :=
  "Reduce keyword usage (currently " ++ NumberToString.Number_toString density ++
  "%, aim for 1-3%) to avoid keyword stuffing".

(** Reading a FAQ back from its [Question] node, and the FAQs back from
    the [FAQPage] node of a schema. *)
Definition faqOfNode (v : JSValue) : option FAQ :=
  match get v "name", get (get v "acceptedAnswer") "text" with
  | JString q, JString a => Some {| question := q; answer := a |}
  | _, _ => None
  end.

Fixpoint allSome {A : Type} (l : list (option A)) : option (list A) :=
  match l with
  | [] => Some []
  | Some a :: r => option_map (cons a) (allSome r)
  | None :: _ => None
  end.

Definition faqsOfSchema (v : JSValue) : option (list FAQ) :=
  match get (item (get v "@graph") 1) "mainEntity" with
  | JArray nodes => allSome (map faqOfNode nodes)
  | _ => None
  end.

(** The [BlogPosting] node of a schema: the first node of the graph
    when there is a graph, the schema itself otherwise. *)
Definition blogPostingOf (v : JSValue) : JSValue :=
  match get v "@graph" with
  | JArray _ => item (get v "@graph") 0
  | _ => v
  end.

(** The artifact of the scenarios written in capital letters: the same
    content, the keyword, the title and the main heading in upper case. *)
Definition upperCaseArtifact : Params :=
  {| content := Scenario.sampleContent;
     title := "A PRACTICAL SEO GUIDE FOR SMALL ONLINE STORES";
     metaDescription := metaDescription Scenario.fullScoreArtifact;
     keyword := "SEO";
     headings := [ {| level := 1; text := "A PRACTICAL SEO GUIDE" |};
                   {| level := 2; text := "Plan The Page" |} ];
     wordCount := 10;
     readabilityScore := 0;
     faqs := None;
     internalLinks := None;
     externalLinks := None |}.

(** Three requests to the route: one with a topic and a keyword, one
    whose keyword is the empty string, one whose keyword is a number. *)
Definition sampleBody : Route.Json :=
  Route.JsonObject
    [ ("topic", Route.JsonString "first"); ("keyword", Route.JsonString "seo") ].

Definition bodyWithoutKeyword : Route.Json :=
  Route.JsonObject
    [ ("topic", Route.JsonString "first");
      ("keyword", Route.JsonString EmptyString);
      ("tone", Route.JsonString "casual");
      ("wordCount", Route.JsonNumber 500) ].

Definition bodyWithNumberKeyword : Route.Json :=
  Route.JsonObject
    [ ("topic", Route.JsonString "first"); ("keyword", Route.JsonNumber 123) ].

(** The parameters that the handler of the route gives to
    [generateBlogPost] for a body. *)
Definition requestOf (body : Route.Json) : Route.RawParams :=
  {| Route.givenTopic := Route.property body "topic";
     Route.givenKeyword := Route.property body "keyword";
     Route.givenTone :=
       Some (orDefault (Route.property body "tone")
                       (Route.JsonString "professional"));
     Route.givenAudience :=
       Some (orDefault (Route.property body "audience")
                       (Route.JsonString "general audience"));
     Route.givenIncludeData :=
       Some (orDefault (Route.property body "includeData") (Route.JsonBool true));
     Route.givenWordCount :=
       Some (orDefault (Route.property body "wordCount") (Route.JsonNumber 2000)) |}.

(** A revision service that always answers the same text and counts its
    calls. *)
Definition sampleRevision (pr : BlogGenerator.RevisionPrompt) (calls : nat)
  : (string + string) * nat :=
  (inr "Short words. Short lines.", S calls).

(** A request to the generator, the prompt made of it, and the post that
    the sample service and the sample clock make of it. *)
Definition sampleRequest : BlogGenerator.GenerateParams :=
  {| BlogGenerator.topic := "first";
     BlogGenerator.keyword := "seo";
     BlogGenerator.tone := None;
     BlogGenerator.audience := None;
     BlogGenerator.includeData := None;
     BlogGenerator.targetWordCount := None |}.

Definition samplePrompt : BlogGenerator.Prompt :=
  {| BlogGenerator.promptTopic := "first";
     BlogGenerator.promptKeyword := "seo";
     BlogGenerator.promptTone := "professional";
     BlogGenerator.promptAudience := "general audience";
     BlogGenerator.promptIncludeData := true;
     BlogGenerator.promptWordCount := 2000 |}.

Definition samplePost : BlogGenerator.Post :=
  {| BlogGenerator.object := Scenario.sampleObject samplePrompt;
     BlogGenerator.postReadabilityScore := 100;
     BlogGenerator.postWordCount := 4;
     BlogGenerator.generatedAt := "1" |}.

(** A model service for the route that answers every prompt with the
    sample object and counts its calls. *)
Definition sampleRawService (pr : Route.RawPrompt) (calls : nat)
  : (string + BlogGenerator.GeneratedObject) * nat :=
  (inr (Scenario.sampleObject samplePrompt), S calls).

End Observations.

(** * Properties *)

(** ** Binary64 rounding *)

Module NumberFacts.
Import Number.
Local Open Scope Q_scope.

Lemma pow2_pos (e : Z) : 0 < 2 ^ e.
Proof. apply Qpower_0_lt. reflexivity. Qed.

Lemma pow2_succ (e : Z) : 2 ^ (e + 1) == 2 * 2 ^ e.
Proof.
  rewrite Qpower_plus by discriminate.
  change (2 ^ 1) with 2. ring.
Qed.

Lemma pow2_add (a b : Z) : 2 ^ (a + b) == 2 ^ a * 2 ^ b.
Proof. apply Qpower_plus. discriminate. Qed.

Lemma pow2_le (a b : Z) : (a <= b)%Z -> 2 ^ a <= 2 ^ b.
Proof. intros H. apply Qpower_le_compat_l; [exact H | discriminate]. Qed.

Lemma pow2_log2 (a : Z) :
  (0 < a)%Z -> 2 ^ Z.log2 a <= inject_Z a /\ inject_Z a < 2 * 2 ^ Z.log2 a.
Proof.
  intros Ha.
  destruct (Z.log2_spec a Ha) as [Hl Hu].
  pose proof (Z.log2_nonneg a) as Hn.
  rewrite <- pow2_succ.
  rewrite <- (Zpower_Qpower 2 (Z.log2 a)) by exact Hn.
  rewrite <- (Zpower_Qpower 2 (Z.log2 a + 1)) by lia.
  rewrite <- Zle_Qle, <- Zlt_Qlt.
  split; [exact Hl | ].
  replace (Z.log2 a + 1)%Z with (Z.succ (Z.log2 a)) by lia. exact Hu.
Qed.

(** The exponent that [ilog2] computes is the binary exponent. *)
Lemma ilog2_spec (x : Q) :
  0 < x -> 2 ^ ilog2 x <= x /\ x < 2 * 2 ^ ilog2 x.
Proof.
  intros Hx.
  destruct x as [a b].
  assert (Ha : (0 < a)%Z).
  { unfold Qlt in Hx. simpl in Hx. lia. }
  unfold ilog2. cbn [Qnum Qden].
  set (la := Z.log2 a). set (lb := Z.log2 (Z.pos b)).
  destruct (pow2_log2 a Ha) as [A1 A2]. fold la in A1, A2.
  destruct (pow2_log2 (Z.pos b) (Pos2Z.is_pos b)) as [B1 B2]. fold lb in B1, B2.
  pose proof (pow2_pos la) as Pa. pose proof (pow2_pos lb) as Pb.
  assert (E : (a # b) * inject_Z (Z.pos b) == inject_Z a).
  { rewrite (Qmake_Qdiv a b). field. discriminate. }
  assert (D : 2 ^ (la - lb) * 2 ^ lb == 2 ^ la).
  { rewrite <- pow2_add. replace (la - lb + lb)%Z with la by lia. reflexivity. }
  assert (D1 : 2 ^ (la - lb - 1) * 2 == 2 ^ (la - lb)).
  { replace (la - lb)%Z with ((la - lb - 1) + 1)%Z at 2 by lia.
    rewrite pow2_succ. ring. }
  pose proof (pow2_pos (la - lb)) as Pd.
  pose proof (pow2_pos (la - lb - 1)) as Pd1.
  set (x := a # b) in *.
  destruct (Qle_bool (2 ^ (la - lb)) x) eqn:Hc.
  - apply Qle_bool_iff in Hc. split; [exact Hc | ].
    nra.
  - assert (Hlt : x < 2 ^ (la - lb)).
    { apply Qnot_le_lt. intros Hle. apply Qle_bool_iff in Hle. congruence. }
    split; [ | lra ].
    apply Qnot_lt_le. intros Hn.
    assert (x * 2 ^ lb < 2 ^ (la - lb - 1) * 2 ^ lb) by nra.
    assert (x * inject_Z (Z.pos b) <= x * (2 * 2 ^ lb)) by nra.
    nra.
Qed.

(** Two binades that share a point are the same binade. *)
Lemma binade_unique (x : Q) (e e' : Z) :
  2 ^ e <= x -> x < 2 * 2 ^ e -> 2 ^ e' <= x -> x < 2 * 2 ^ e' -> e = e'.
Proof.
  intros H1 H2 H3 H4.
  destruct (Z.lt_trichotomy e e') as [L | [E | L]]; [exfalso | exact E | exfalso].
  - pose proof (pow2_le (e + 1) e' ltac:(lia)) as P.
    rewrite pow2_succ in P. lra.
  - pose proof (pow2_le (e' + 1) e ltac:(lia)) as P.
    rewrite pow2_succ in P. lra.
Qed.

Lemma ilog2_compat (x y : Q) : 0 < x -> x == y -> ilog2 x = ilog2 y.
Proof.
  intros Hx E.
  assert (Hy : 0 < y) by (rewrite <- E; exact Hx).
  destruct (ilog2_spec x Hx) as [A B], (ilog2_spec y Hy) as [C D].
  apply (binade_unique x); try assumption; rewrite E; assumption.
Qed.

Lemma ilog2_mono (x y : Q) : 0 < x -> x <= y -> (ilog2 x <= ilog2 y)%Z.
Proof.
  intros Hx Hxy.
  assert (Hy : 0 < y) by lra.
  destruct (ilog2_spec x Hx) as [A B], (ilog2_spec y Hy) as [C D].
  destruct (Z_le_gt_dec (ilog2 x) (ilog2 y)) as [L | G]; [exact L | exfalso].
  pose proof (pow2_le (ilog2 y + 1) (ilog2 x) ltac:(lia)) as P.
  rewrite pow2_succ in P. lra.
Qed.

(** Turns the outcome of a comparison into the order it stands for. *)
Ltac compare_to_order :=
  repeat match goal with
  | C : Qcompare _ _ = Eq |- _ => apply Qeq_alt in C
  | C : Qcompare _ _ = Lt |- _ => apply Qlt_alt in C
  | C : Qcompare _ _ = Gt |- _ => apply Qgt_alt in C
  end.

(** Rounding to the nearest integer. *)
Lemma rne_cases (x : Q) :
  let f := Qfloor x in
  (rne x = f /\ x - inject_Z f <= 1 # 2) \/
  (rne x = (f + 1)%Z /\ 1 # 2 <= x - inject_Z f).
Proof.
  intros f. unfold rne. fold f.
  destruct (Qcompare (x - inject_Z f) (1 # 2)) eqn:C.
  - apply Qeq_alt in C.
    destruct (Z.even f); [left | right]; split; try reflexivity; lra.
  - apply Qlt_alt in C. left. split; [reflexivity | lra].
  - apply Qgt_alt in C. right. split; [reflexivity | lra].
Qed.

Lemma rne_near (x : Q) :
  inject_Z (rne x) - x <= 1 # 2 /\ x - inject_Z (rne x) <= 1 # 2.
Proof.
  pose proof (Qfloor_le x) as L. pose proof (Qlt_floor x) as U.
  rewrite inject_Z_plus in U. change (inject_Z 1) with 1 in U.
  destruct (rne_cases x) as [[E H] | [E H]]; rewrite E.
  - lra.
  - rewrite inject_Z_plus. change (inject_Z 1) with 1. lra.
Qed.

Lemma rne_compat (x y : Q) : x == y -> rne x = rne y.
Proof.
  intros E. unfold rne.
  assert (F : Qfloor x = Qfloor y) by (rewrite E; reflexivity).
  rewrite F.
  assert (C : Qcompare (x - inject_Z (Qfloor y)) (1 # 2) =
              Qcompare (y - inject_Z (Qfloor y)) (1 # 2)).
  { rewrite E. reflexivity. }
  rewrite C. reflexivity.
Qed.

Lemma rne_ge (x : Q) (z : Z) : inject_Z z <= x -> (z <= rne x)%Z.
Proof.
  intros H.
  assert (F : (z <= Qfloor x)%Z).
  { rewrite <- (Qfloor_Z z). apply Qfloor_resp_le. exact H. }
  destruct (rne_cases x) as [[E _] | [E _]]; rewrite E; lia.
Qed.

Lemma rne_le (x : Q) (z : Z) : x <= inject_Z z -> (rne x <= z)%Z.
Proof.
  intros H.
  pose proof (Qfloor_le x) as L.
  assert (F : (Qfloor x <= z)%Z) by (rewrite Zle_Qle; lra).
  destruct (rne_cases x) as [[E _] | [E Hf]]; rewrite E; [exact F | ].
  destruct (Z.eq_dec (Qfloor x) z) as [Ez | Nz]; [ | lia].
  rewrite Ez in Hf. lra.
Qed.

Lemma rne_mono (x y : Q) : x <= y -> (rne x <= rne y)%Z.
Proof.
  intros H.
  pose proof (Qfloor_resp_le x y H) as F.
  destruct (Z.eq_dec (Qfloor x) (Qfloor y)) as [E | N].
  - unfold rne. rewrite E.
    destruct (Qcompare (x - inject_Z (Qfloor y)) (1 # 2)) eqn:Cx;
      destruct (Qcompare (y - inject_Z (Qfloor y)) (1 # 2)) eqn:Cy;
      compare_to_order;
      try (destruct (Z.even (Qfloor y))); try lia; exfalso; lra.
  - destruct (rne_cases x) as [[Ex _] | [Ex _]]; rewrite Ex;
      destruct (rne_cases y) as [[Ey _] | [Ey _]]; rewrite Ey; lia.
Qed.

(** [fl] in terms of the exponent, for a positive argument. *)
Lemma fl_pos_eq (x : Q) :
  0 < x ->
  fl x == inject_Z (rne (x / 2 ^ (ilog2 x - 52))) * 2 ^ (ilog2 x - 52).
Proof.
  intros Hx. unfold fl.
  destruct (Qeq_bool x 0) eqn:Z0.
  - apply Qeq_bool_iff in Z0. lra.
  - rewrite Qred_correct.
    assert (E : ilog2 (Qabs x) = ilog2 x).
    { apply ilog2_compat.
      - rewrite Qabs_pos by lra. exact Hx.
      - apply Qabs_pos. lra. }
    rewrite E. reflexivity.
Qed.

(** The scaled argument lies between 2^52 and 2^53. *)
Lemma scaled_range (x : Q) :
  0 < x ->
  let t := x / 2 ^ (ilog2 x - 52) in
  inject_Z (2 ^ 52) <= t /\ t < inject_Z (2 ^ 53) /\
  t * 2 ^ (ilog2 x - 52) == x /\
  inject_Z (2 ^ 52) * 2 ^ (ilog2 x - 52) == 2 ^ ilog2 x.
Proof.
  intros Hx t.
  destruct (ilog2_spec x Hx) as [A B].
  pose proof (pow2_pos (ilog2 x - 52)) as Pu.
  assert (U : inject_Z (2 ^ 52) * 2 ^ (ilog2 x - 52) == 2 ^ ilog2 x).
  { rewrite (Zpower_Qpower 2 52) by lia.
    change (inject_Z 2) with 2.
    rewrite <- pow2_add. replace (52 + (ilog2 x - 52))%Z with (ilog2 x) by lia.
    reflexivity. }
  assert (T : t * 2 ^ (ilog2 x - 52) == x).
  { unfold t. field. lra. }
  assert (I : inject_Z (2 ^ 53) == 2 * inject_Z (2 ^ 52)) by reflexivity.
  clearbody t.
  set (c52 := inject_Z (2 ^ 52)) in *. set (c53 := inject_Z (2 ^ 53)) in *.
  assert (P52 : 0 < c52) by reflexivity.
  clearbody c52 c53.
  set (u := 2 ^ (ilog2 x - 52)) in *. clearbody u.
  split; [ | split; [ | split; [exact T | exact U]]].
  - apply Qnot_lt_le. intros N.
    assert (t * u < c52 * u) by nra.
    lra.
  - apply Qnot_le_lt. intros N.
    assert (c53 * u <= t * u) by nra.
    nra.
Qed.

Lemma fl_compat (x y : Q) : x == y -> fl x = fl y.
Proof.
  intros E. unfold fl.
  assert (B : Qeq_bool x 0 = Qeq_bool y 0).
  { destruct (Qeq_bool x 0) eqn:X, (Qeq_bool y 0) eqn:Y; try reflexivity; exfalso.
    - apply Qeq_bool_iff in X. apply Qeq_bool_neq in Y. apply Y. rewrite <- E. exact X.
    - apply Qeq_bool_iff in Y. apply Qeq_bool_neq in X. apply X. rewrite E. exact Y. }
  rewrite <- B.
  destruct (Qeq_bool x 0) eqn:X; [reflexivity | ].
  apply Qeq_bool_neq in X.
  assert (L : ilog2 (Qabs x) = ilog2 (Qabs y)).
  { apply ilog2_compat.
    - pose proof (Qabs_nonneg x) as N.
      destruct (Qlt_le_dec 0 (Qabs x)) as [P | P]; [exact P | exfalso].
      assert (Z0 : Qabs x == 0) by lra.
      apply X. revert Z0. apply Qabs_case; intros; lra.
    - rewrite E. reflexivity. }
  rewrite <- L.
  rewrite (rne_compat (x / 2 ^ (ilog2 (Qabs x) - 52)) (y / 2 ^ (ilog2 (Qabs x) - 52)))
    by (apply Qdiv_comp; [exact E | reflexivity]).
  reflexivity.
Qed.

Lemma fl_zero (x : Q) : x == 0 -> fl x = 0.
Proof. intros E. rewrite (fl_compat x 0 E). reflexivity. Qed.

(** A positive number is rounded inside its binade. *)
Lemma fl_binade (x : Q) :
  0 < x -> 2 ^ ilog2 x <= fl x /\ fl x <= 2 * 2 ^ ilog2 x.
Proof.
  intros Hx.
  rewrite (fl_pos_eq x Hx).
  destruct (scaled_range x Hx) as (A & B & T & U).
  pose proof (pow2_pos (ilog2 x - 52)) as Pu.
  pose proof (rne_ge _ _ A) as R1.
  pose proof (rne_le (x / 2 ^ (ilog2 x - 52)) (2 ^ 53) (Qlt_le_weak _ _ B)) as R2.
  rewrite Zle_Qle in R1. rewrite Zle_Qle in R2.
  assert (I : inject_Z (2 ^ 53) == 2 * inject_Z (2 ^ 52)) by reflexivity.
  set (r := inject_Z (rne (x / 2 ^ (ilog2 x - 52)))) in *. clearbody r.
  set (c52 := inject_Z (2 ^ 52)) in *. set (c53 := inject_Z (2 ^ 53)) in *.
  clearbody c52 c53.
  set (u := 2 ^ (ilog2 x - 52)) in *. clearbody u.
  split; nra.
Qed.

Lemma fl_pos (x : Q) : 0 < x -> 0 < fl x.
Proof.
  intros Hx. destruct (fl_binade x Hx) as [A _].
  pose proof (pow2_pos (ilog2 x)). lra.
Qed.

Lemma fl_nonneg (x : Q) : 0 <= x -> 0 <= fl x.
Proof.
  intros Hx. destruct (Qlt_le_dec 0 x) as [P | P].
  - apply Qlt_le_weak, fl_pos, P.
  - rewrite (fl_zero x) by lra. lra.
Qed.

(** Rounding is monotone on the non-negative numbers. *)
Lemma fl_mono (x y : Q) : 0 <= x -> x <= y -> fl x <= fl y.
Proof.
  intros Hx Hxy.
  destruct (Qlt_le_dec 0 x) as [P | P].
  2:{ rewrite (fl_zero x) by lra. apply fl_nonneg. lra. }
  assert (Py : 0 < y) by lra.
  pose proof (ilog2_mono x y P Hxy) as M.
  destruct (Z.eq_dec (ilog2 x) (ilog2 y)) as [E | N].
  - rewrite (fl_pos_eq x P), (fl_pos_eq y Py). rewrite E.
    pose proof (pow2_pos (ilog2 y - 52)) as Pu.
    assert (D : x / 2 ^ (ilog2 y - 52) <= y / 2 ^ (ilog2 y - 52)).
    { apply Qmult_le_compat_r; [exact Hxy | ].
      apply Qlt_le_weak, Qinv_lt_0_compat, Pu. }
    pose proof (rne_mono _ _ D) as R. rewrite Zle_Qle in R.
    nra.
  - destruct (fl_binade x P) as [_ A], (fl_binade y Py) as [B _].
    pose proof (pow2_le (ilog2 x + 1) (ilog2 y) ltac:(lia)) as L.
    rewrite pow2_succ in L. lra.
Qed.

(** The relative error of one rounding is at most 2^-53. *)
Lemma fl_error (x : Q) :
  0 <= x ->
  (fl x - x) * inject_Z (2 ^ 53) <= x /\ (x - fl x) * inject_Z (2 ^ 53) <= x.
Proof.
  intros Hx.
  destruct (Qlt_le_dec 0 x) as [P | P].
  2:{ rewrite (fl_zero x) by lra.
      set (c53 := inject_Z (2 ^ 53)). assert (0 < c53) by reflexivity.
      clearbody c53. split; nra. }
  rewrite (fl_pos_eq x P).
  destruct (scaled_range x P) as (A & B & T & U).
  destruct (ilog2_spec x P) as [S1 S2].
  pose proof (pow2_pos (ilog2 x - 52)) as Pu.
  destruct (rne_near (x / 2 ^ (ilog2 x - 52))) as [N1 N2].
  assert (I : inject_Z (2 ^ 53) == 2 * inject_Z (2 ^ 52)) by reflexivity.
  set (r := inject_Z (rne (x / 2 ^ (ilog2 x - 52)))) in *. clearbody r.
  set (t := x / 2 ^ (ilog2 x - 52)) in *. clearbody t.
  set (c52 := inject_Z (2 ^ 52)) in *. set (c53 := inject_Z (2 ^ 53)) in *.
  assert (P52 : 0 < c52) by reflexivity.
  clearbody c52 c53.
  set (u := 2 ^ (ilog2 x - 52)) in *. clearbody u.
  assert (K1 : (r - t) * u <= (1 # 2) * u) by nra.
  assert (K2 : (t - r) * u <= (1 # 2) * u) by nra.
  assert (K3 : c52 * u <= x) by lra.
  split.
  - assert (E1 : (r * u - x) * c53 == ((r - t) * u) * c53) by (rewrite <- T; ring).
    rewrite E1. nra.
  - assert (E1 : (x - r * u) * c53 == ((t - r) * u) * c53) by (rewrite <- T; ring).
    rewrite E1. nra.
Qed.

End NumberFacts.


(** ** Heading structure *)

Module HeadingFacts.
Import Optimizer Spec.
Local Open Scope nat_scope.

Lemma walkHeadings_spec (hs : list Heading) (p : Z) :
  walkHeadings p hs <> None <->
  (forall i h, nth_error hs i = Some h ->
     (level h <= match i with
                 | O => p
                 | S j => match nth_error hs j with
                          | Some h' => level h'
                          | None => 1
                          end
                 end + 1)%Z).
Proof.
  revert p. induction hs as [ | a hs IH]; intros p; cbn [walkHeadings].
  - split; [ | discriminate ].
    intros _ [ | i] h E; discriminate E.
  - destruct (Z.gtb_spec (level a) (p + 1)) as [G | L].
    + split; [intros N; exfalso; apply N; reflexivity | ].
      intros H. specialize (H O a eq_refl). cbn in H. lia.
    + rewrite IH. split.
      * intros H [ | i] h E.
        -- injection E as <-. exact L.
        -- cbn [nth_error] in E. specialize (H i h E).
           destruct i as [ | j]; cbn [nth_error]; exact H.
      * intros H i h E. specialize (H (S i) h E).
        destruct i as [ | j]; cbn [nth_error] in H; exact H.
Qed.

(** C3. [validateHeadingStructure] is false for the empty list, false
    when no heading has level 1, and otherwise true exactly when, walking
    the headings in order from an assumed previous level of 1, no heading
    is deeper than the preceding level plus one (so that a decrease of the
    level is always allowed); the five examples of the specification
    evaluate as it says. *)
Theorem validateHeadingStructure_spec :
  (forall hs : list Heading,
     validateHeadingStructure hs = true <->
     hs <> [] /\ (exists h, In h hs /\ level h = 1%Z) /\ noSkippedLevel hs) /\
  (forall (hs : list Heading) (a b : Heading),
     (level b <= level a)%Z ->
     validateHeadingStructure (hs ++ [a]) = true ->
     validateHeadingStructure (hs ++ [a; b]) = true) /\
  (forall t1 t2 t3 t4 : string,
     validateHeadingStructure [] = false /\
     validateHeadingStructure [{| level := 1; text := t1 |}] = true /\
     validateHeadingStructure
       [{| level := 1; text := t1 |}; {| level := 3; text := t2 |}] = false /\
     validateHeadingStructure
       [{| level := 1; text := t1 |}; {| level := 2; text := t2 |};
        {| level := 1; text := t3 |}; {| level := 2; text := t4 |}] = true /\
     validateHeadingStructure [{| level := 2; text := t1 |}] = false).
Proof.
  assert (Main : forall hs : list Heading,
     validateHeadingStructure hs = true <->
     hs <> [] /\ (exists h, In h hs /\ level h = 1%Z) /\ noSkippedLevel hs).
  { intros hs. unfold validateHeadingStructure, noSkippedLevel, previousLevel.
    destruct hs as [ | a hs].
    - cbn. split; [discriminate | intros [N _]; congruence].
    - cbn [List.length Nat.eqb].
      rewrite <- (walkHeadings_spec (a :: hs) 1).
      destruct (existsb (fun h => (level h =? 1)%Z) (a :: hs)) eqn:Ex; cbn [negb].
      + apply existsb_exists in Ex. destruct Ex as (h & Hin & Hl).
        apply Z.eqb_eq in Hl.
        destruct (walkHeadings 1 (a :: hs)).
        * split; [ | reflexivity ].
          intros _. split; [discriminate | split; [exists h; auto | discriminate]].
        * split; [discriminate | ].
          intros (_ & _ & N). congruence.
      + split; [discriminate | ].
        intros (_ & (h & Hin & Hl) & _).
        assert (T : existsb (fun h => (level h =? 1)%Z) (a :: hs) = true).
        { apply existsb_exists. exists h. split; [exact Hin | apply Z.eqb_eq, Hl]. }
        congruence. }
  split; [exact Main | split].
  - intros hs a b Hle Hv.
    apply Main in Hv. destruct Hv as (_ & (h & Hin & Hl) & Hs).
    apply Main. split; [ | split ].
    + destruct hs; discriminate.
    + exists h. split; [ | exact Hl ].
      apply in_app_iff in Hin. apply in_app_iff.
      destruct Hin as [Hin | Hin]; [left; exact Hin | right].
      destruct Hin as [<- | []]. left. reflexivity.
    + intros i x E.
      destruct (Nat.lt_ge_cases i (List.length (hs ++ [a]))) as [Lt | Ge].
      * replace (hs ++ [a; b]) with ((hs ++ [a]) ++ [b]) in *
          by (rewrite <- app_assoc; reflexivity).
        rewrite nth_error_app1 in E by exact Lt.
        specialize (Hs i x E).
        destruct i as [ | j]; [exact Hs | ].
        cbn [previousLevel] in *.
        rewrite nth_error_app1 by lia. exact Hs.
      * replace (hs ++ [a; b]) with ((hs ++ [a]) ++ [b]) in *
          by (rewrite <- app_assoc; reflexivity).
        rewrite nth_error_app2 in E by exact Ge.
        destruct (i - List.length (hs ++ [a])) as [ | k] eqn:D.
        2:{ destruct k; discriminate E. }
        injection E as <-.
        assert (Ei : i = S (List.length hs)).
        { rewrite length_app in *. cbn [List.length] in *. lia. }
        subst i. cbn [previousLevel].
        rewrite nth_error_app1 by (rewrite length_app; cbn; lia).
        rewrite nth_error_app2 by lia.
        rewrite Nat.sub_diag. cbn [nth_error]. lia.
  - intros t1 t2 t3 t4. repeat split; reflexivity.
Qed.

(** An instance of C3: going back from an H2 to an H1 keeps a valid
    structure valid. *)
Lemma validateHeadingStructure_witness :
  (1 <= 2)%Z /\
  validateHeadingStructure
    [{| level := 1; text := "Guide" |}; {| level := 2; text := "Plan" |}] = true /\
  validateHeadingStructure
    [{| level := 1; text := "Guide" |}; {| level := 2; text := "Plan" |};
     {| level := 1; text := "Appendix" |}] = true.
Proof.
  destruct validateHeadingStructure_spec as (_ & Decrease & _).
  assert (L : (1 <= 2)%Z) by lia.
  assert (V : validateHeadingStructure
                [{| level := 1; text := "Guide" |}; {| level := 2; text := "Plan" |}]
              = true) by reflexivity.
  exact (conj L (conj V
           (Decrease [{| level := 1; text := "Guide" |}]
                 {| level := 2; text := "Plan" |}
                 {| level := 1; text := "Appendix" |} L V))).
Defined.

End HeadingFacts.

(** ** Strings *)

Module JSFacts.
Import JS Spec.
Local Open Scope nat_scope.
Local Open Scope string_scope.

Lemma prefix_empty (s : string) : String.prefix EmptyString s = true.
Proof. destruct s; reflexivity. Qed.

(** Every string includes the empty string. *)
Lemma includes_empty (s : string) : includes s EmptyString = true.
Proof. destruct s; reflexivity. Qed.

Lemma prefix_app (p s : string) : String.prefix p (p ++ s) = true.
Proof.
  induction p as [ | c p IH]; cbn.
  - apply prefix_empty.
  - destruct (ascii_dec c c) as [_ | N]; [exact IH | congruence].
Qed.

Lemma includes_prefix (s p : string) :
  String.prefix p s = true -> includes s p = true.
Proof. intros H. destruct s; cbn [includes]; rewrite H; reflexivity. Qed.

Lemma includes_app (a p s : string) : includes (a ++ p ++ s) p = true.
Proof.
  induction a as [ | c a IH].
  - change (EmptyString ++ p ++ s) with (p ++ s).
    apply includes_prefix, prefix_app.
  - cbn [String.append includes]. rewrite IH. apply orb_true_r.
Qed.

(** The first segment of the split on blank lines is the text before
    the first run of blank lines. *)
Lemma splitBlank_head (s : string) :
  exists rest, splitBlank false s = Spec.beforeEmptyLines s :: rest.
Proof.
  induction s as [ | c r IH].
  - exists []. reflexivity.
  - destruct IH as [rest IH].
    cbn [splitBlank Spec.beforeEmptyLines].
    destruct (Ascii.eqb c LF) eqn:Ec; cbn [andb].
    + destruct r as [ | c' r'].
      * cbn in IH |- *. exists []. reflexivity.
      * cbn [Spec.startsWithLF].
        destruct (Ascii.eqb c' LF) eqn:Ec'.
        -- eexists. reflexivity.
        -- rewrite IH. eexists. reflexivity.
    + rewrite IH. eexists. reflexivity.
Qed.

(** The head of a split is empty exactly when the text does not start
    with a character of a segment. *)
Lemma splitRuns_head (sep : ascii -> bool) (s : string) :
  exists h t,
    splitRuns sep false s = h :: t /\
    (0 <? String.length h)%nat = startsWith (fun c => negb (sep c)) s.
Proof.
  destruct s as [ | c r]; cbn [splitRuns startsWith].
  - exists EmptyString, []. split; reflexivity.
  - destruct (sep c); cbn [negb].
    + eexists _, _. split; reflexivity.
    + destruct (splitRuns sep false r) as [ | h t]; cbn [consHead];
        eexists _, _; split; reflexivity.
Qed.

(** The non-empty segments of a split on the runs of a class are the
    maximal runs of the other characters. *)
Lemma split_class_runs (sep : ascii -> bool) (b : bool) (s : string) :
  filter (fun w => (0 <? String.length w)%nat) (splitRuns sep b s) =
  runs (fun c => negb (sep c)) s.
Proof.
  revert b. induction s as [ | c r IH]; intros b; [reflexivity | ].
  cbn [splitRuns runs].
  destruct (sep c); cbn [negb].
  - destruct b; cbn [filter String.length Nat.ltb Nat.leb]; apply IH.
  - specialize (IH false).
    destruct (splitRuns_head sep r) as (h & t & E & Hh).
    rewrite E in IH |- *. rewrite <- Hh. cbn [consHead].
    destruct h as [ | a h'].
    + cbn in IH |- *. rewrite IH. reflexivity.
    + cbn in IH |- *. rewrite <- IH. reflexivity.
Qed.

Lemma allChars_app (p : ascii -> bool) (a b : string) :
  allChars p (a ++ b) = allChars p a && allChars p b.
Proof.
  induction a as [ | c a IH]; cbn; [reflexivity | ].
  rewrite IH. apply andb_assoc.
Qed.

Lemma append_assoc3 (a b c : string) : (a ++ b) ++ c = a ++ b ++ c.
Proof. induction a as [ | x a IH]; cbn; congruence. Qed.

(** A closing parenthesis on the line is found. *)
Lemma scanParen_ok (x y : string) :
  allChars notLineTerminator x = true ->
  scanParen (x ++ String ")" y) <> None.
Proof.
  induction x as [ | c x IH]; intros H.
  - cbn. discriminate.
  - cbn in H. apply andb_prop in H. destruct H as [Hc Hx].
    cbn [String.append scanParen].
    destruct (Ascii.eqb c ")"); [discriminate | ].
    apply negb_true_iff in Hc. rewrite Hc.
    specialize (IH Hx).
    destruct (scanParen (x ++ String ")" y)); [discriminate | congruence].
Qed.

(** The rest of a Markdown image written on one line is matched. *)
Lemma scanBracket_ok (alt url post : string) :
  allChars notLineTerminator alt = true ->
  allChars notLineTerminator url = true ->
  scanBracket (alt ++ String "]" (String "(" (url ++ String ")" post))) <> None.
Proof.
  intros Ha Hu.
  induction alt as [ | c alt IH].
  - cbn. pose proof (scanParen_ok url post Hu) as P.
    destruct (scanParen (url ++ String ")" post)); [discriminate | congruence].
  - cbn in Ha. apply andb_prop in Ha. destruct Ha as [Hc Ha].
    specialize (IH Ha).
    cbn [String.append scanBracket].
    apply negb_true_iff in Hc. rewrite Hc.
    set (tail := String "]" (String "(" (url ++ String ")" post))) in *.
    assert (L : option_map (String c) (scanBracket (alt ++ tail)) <> None).
    { destruct (scanBracket (alt ++ tail)); [discriminate | congruence]. }
    destruct (Ascii.eqb c "]"); [ | exact L].
    destruct alt as [ | c' alt'].
    + subst tail. cbn. cbn in L. exact L.
    + cbn [String.append] in *.
      destruct (Ascii.eqb c' "("); [ | exact L].
      cbn in Ha. apply andb_prop in Ha. destruct Ha as [_ Ha'].
      assert (A : allChars notLineTerminator (alt' ++ String "]" (String "(" url)) = true).
      { rewrite allChars_app. rewrite Ha'. cbn. exact Hu. }
      pose proof (scanParen_ok (alt' ++ String "]" (String "(" url)) post A) as P.
      rewrite append_assoc3 in P. cbn [String.append] in P. fold tail in P.
      destruct (scanParen (alt' ++ tail)); [discriminate | congruence].
Qed.

Lemma execImage_found (pre t : string) :
  matchImageHere t <> None -> execImage 0 (pre ++ t) <> [].
Proof.
  intros H. induction pre as [ | c pre IH].
  - cbn [String.append]. destruct t as [ | c t]; [cbn in H; congruence | ].
    cbn [execImage]. destruct (matchImageHere (String c t)); [discriminate | congruence].
  - cbn [String.append execImage].
    destruct (matchImageHere (String c (pre ++ t))); [discriminate | exact IH].
Qed.

(** A content with a Markdown image has a non-empty array of matches. *)
Lemma match_image_ok (content : string) :
  hasMarkdownImage content ->
  exists l, match_image content = Some l /\ (0 <? List.length l)%nat = true.
Proof.
  intros (pre & alt & url & post & E & Ha & Hu). subst content.
  assert (M : matchImageHere ("![" ++ alt ++ "](" ++ url ++ ")" ++ post) <> None).
  { cbn. pose proof (scanBracket_ok alt url post Ha Hu) as B.
    destruct (scanBracket (alt ++ String "]" (String "(" (url ++ String ")" post))));
      [discriminate | congruence]. }
  pose proof (execImage_found pre _ M) as X.
  unfold match_image.
  destruct (execImage 0 (pre ++ "![" ++ alt ++ "](" ++ url ++ ")" ++ post));
    [congruence | ].
  eexists. split; reflexivity.
Qed.

(** A content without the two characters that open a Markdown image has
    no match. *)
Lemma execImage_none (s : string) :
  includes s "![" = false -> execImage 0 s = [].
Proof.
  induction s as [ | c r IH]; intros H; [reflexivity | ].
  cbn [includes] in H. apply orb_false_iff in H. destruct H as [P I].
  cbn [execImage].
  assert (M : matchImageHere (String c r) = None).
  { unfold matchImageHere. destruct r as [ | c' r']; [reflexivity | ].
    cbn in P.
    destruct (Ascii.eqb_spec c "!") as [-> | N].
    - destruct (Ascii.eqb_spec c' "[") as [-> | N'].
      + destruct (ascii_dec "!" "!"); [ | congruence].
        destruct (ascii_dec "[" "["); [ | congruence].
        destruct r'; discriminate P.
      + reflexivity.
    - reflexivity. }
  rewrite M. exact (IH I).
Qed.

End JSFacts.

(** ** Keyword placement *)

Module KeywordFacts.
Import JS Number Optimizer Spec JSFacts.
Local Open Scope nat_scope.
Local Open Scope string_scope.

Lemma firstParagraphOf_eq (content : string) :
  firstParagraphOf content =
  if String.eqb (beforeEmptyLines content) EmptyString then content
  else beforeEmptyLines content.
Proof.
  unfold firstParagraphOf, split_blank_lines.
  destruct (splitBlank_head content) as [rest E]. rewrite E. reflexivity.
Qed.

(** A text in which no two line feeds follow each other is one segment. *)
Lemma beforeEmptyLines_whole (s : string) :
  hasEmptyLine s = false -> beforeEmptyLines s = s.
Proof.
  unfold hasEmptyLine. induction s as [ | c r IH]; [reflexivity | ].
  cbn [includes beforeEmptyLines]. intros H.
  apply orb_false_iff in H. destruct H as [P I].
  assert (E : Ascii.eqb c LF && startsWithLF r = false).
  { destruct (Ascii.eqb_spec c LF) as [-> | N]; [ | reflexivity].
    destruct r as [ | d r']; [reflexivity | ].
    cbn [startsWithLF andb].
    destruct (Ascii.eqb_spec d LF) as [-> | N]; [ | reflexivity].
    exfalso. cbn in P. rewrite prefix_empty in P. discriminate P. }
  rewrite E, (IH I). reflexivity.
Qed.


(** C9, as the specification words it, fails in two ways.  On a content
    that starts with two line feeds the first segment is empty, and the
    code then searches the whole content.  And the code splits on two or
    more consecutive line feeds only: the blank line of a text whose lines
    end with CR LF, and a line that holds a space, do not end the first
    paragraph, so a keyword that comes after them is found. *)
Lemma firstParagraph_counterexample :
  (checkKeywordInFirstParagraph
     (String LF (String LF "seo tips for a small shop")) "seo" = true /\
   inFirstParagraph_spec
     (String LF (String LF "seo tips for a small shop")) "seo" = false) /\
  (checkKeywordInFirstParagraph Scenario.crlfContent "seo" = true /\
   inFirstParagraph_claimed Scenario.crlfContent "seo" = false) /\
  (checkKeywordInFirstParagraph Scenario.spaceLineContent "seo" = true /\
   inFirstParagraph_claimed Scenario.spaceLineContent "seo" = false).
Proof. repeat split; vm_compute; reflexivity. Qed.

(** C9, amended.  The keywordInFirstParagraph check splits the content on
    the runs of two or more consecutive line feeds (U+000A) and on nothing
    else, takes the first segment, or the whole content when that first
    segment is empty (an empty content, or a content that starts with two
    line feeds), and tests whether it contains the keyword as a substring,
    both lowercased.  Whenever the first segment is not empty this is the
    test on the first segment; and a content in which no two line feeds
    follow each other, whatever blank lines of white space or of CR LF it
    holds, is searched as a whole. *)
Theorem checkKeywordInFirstParagraph_spec :
  forall content keyword : string,
    checkKeywordInFirstParagraph content keyword =
    includes
      (toLowerCase (if String.eqb (beforeEmptyLines content) EmptyString
                    then content else beforeEmptyLines content))
      (toLowerCase keyword) /\
    (beforeEmptyLines content <> EmptyString \/ content = EmptyString ->
     checkKeywordInFirstParagraph content keyword =
     inFirstParagraph_spec content keyword) /\
    (hasEmptyLine content = false ->
     checkKeywordInFirstParagraph content keyword =
     includes (toLowerCase content) (toLowerCase keyword)).
Proof.
  intros content keyword.
  unfold checkKeywordInFirstParagraph, inFirstParagraph_spec.
  rewrite firstParagraphOf_eq.
  split; [reflexivity | ].
  split.
  - intros [N | ->]; [ | reflexivity ].
    destruct (String.eqb_spec (beforeEmptyLines content) EmptyString) as [E | _];
      [contradiction | reflexivity].
  - intros H. rewrite (beforeEmptyLines_whole _ H).
    destruct (String.eqb content EmptyString); reflexivity.
Qed.

(** An instance of C9: a content whose first paragraph is not empty, and
    a content whose lines end with CR LF. *)
Lemma checkKeywordInFirstParagraph_witness :
  beforeEmptyLines ("Good seo starts here." ++ Scenario.blankLine ++ "More.")
    <> EmptyString /\
  checkKeywordInFirstParagraph
    ("Good seo starts here." ++ Scenario.blankLine ++ "More.") "SEO" =
  inFirstParagraph_spec
    ("Good seo starts here." ++ Scenario.blankLine ++ "More.") "SEO" /\
  checkKeywordInFirstParagraph
    ("Good seo starts here." ++ Scenario.blankLine ++ "More.") "SEO" = true /\
  hasEmptyLine Scenario.crlfContent = false /\
  checkKeywordInFirstParagraph Scenario.crlfContent "seo" =
  includes (toLowerCase Scenario.crlfContent) (toLowerCase "seo").
Proof.
  assert (N : beforeEmptyLines ("Good seo starts here." ++ Scenario.blankLine ++ "More.")
              <> EmptyString) by (vm_compute; discriminate).
  assert (H : hasEmptyLine Scenario.crlfContent = false) by (vm_compute; reflexivity).
  destruct (checkKeywordInFirstParagraph_spec
              ("Good seo starts here." ++ Scenario.blankLine ++ "More.") "SEO")
    as (_ & S & _).
  destruct (checkKeywordInFirstParagraph_spec Scenario.crlfContent "seo")
    as (_ & _ & W).
  exact (conj N (conj (S (or_introl N)) (conj eq_refl (conj H (W H))))).
Defined.

End KeywordFacts.

(** ** Score and recommendations *)

Module ScoreFacts.
Import JS Number NumberToString Optimizer Spec.
Local Open Scope nat_scope.

Lemma count_occ_filter (l : list bool) :
  count_occ bool_dec l true = List.length (filter (fun b : bool => b) l).
Proof.
  induction l as [ | [ | ] l IH]; cbn; [reflexivity | | exact IH].
  rewrite IH. reflexivity.
Qed.

Lemma count_occ_le_length (l : list bool) :
  count_occ bool_dec l true <= List.length l.
Proof.
  induction l as [ | [ | ] l IH]; cbn; lia.
Qed.

(** The score of [p] passed checks out of 16, computed in binary64, is
    the exact quotient rounded: the division by a power of two and the
    products that occur are exact. *)
Lemma score_of_count (p : nat) :
  p <= 16 ->
  Math_round (mul (div (of_nat p) (of_nat 16)) 100) =
    roundHalfUp (100 * inject_Z (Z.of_nat p) / 16) /\
  (0 <= Math_round (mul (div (of_nat p) (of_nat 16)) 100) <= 100)%Z.
Proof.
  intros H.
  do 17 (destruct p as [ | p]; [vm_compute; intuition discriminate | ]).
  lia.
Qed.

(** C1. For every artifact and keyword the check set has exactly 16
    members, and the score that [analyzeSEO] returns is
    [round (100 * passed / 16)] -- the exact quotient, a half rounded
    up -- and therefore lies between 0 and 100. *)
Theorem analyzeSEO_score :
  forall params : Params,
    let r := analyzeSEO params in
    let passed := passedCount (checks r) in
    List.length (Object_keys (checks r)) = 16 /\
    List.length (Object_values (checks r)) = 16 /\
    passed <= 16 /\
    score r = roundHalfUp (100 * inject_Z (Z.of_nat passed) / 16) /\
    (0 <= score r <= 100)%Z.
Proof.
  intros params r passed.
  assert (L : passed <= 16).
  { unfold passed, passedCount.
    exact (count_occ_le_length (Object_values (checks r))). }
  split; [reflexivity | split; [reflexivity | split; [exact L | ]]].
  assert (E : score r = Math_round (mul (div (of_nat passed) (of_nat 16)) 100)).
  { unfold passed, passedCount. rewrite count_occ_filter. reflexivity. }
  rewrite E. apply score_of_count, L.
Qed.

(** The loop of pushes over a rule table. *)
Lemma pushes_are_failedMessages (table : list Rule) (acc : list string) :
  fold_left
    (fun acc r => when (negb (outcome r)) (fun recs => push recs (message r)) acc)
    table acc =
  (acc ++ failedMessages table)%list.
Proof.
  revert acc. induction table as [ | r table IH]; intros acc.
  - cbn. rewrite app_nil_r. reflexivity.
  - cbn [fold_left]. rewrite IH. unfold failedMessages, when. cbn [filter].
    destruct (outcome r); cbn [negb map].
    + reflexivity.
    + unfold push. rewrite <- app_assoc. reflexivity.
Qed.

Lemma generateRecommendations_table (c : SEOChecks) (d : Q) (k : string) :
  generateRecommendations c d k = failedMessages (ruleTable c d k).
Proof.
  rewrite <- (app_nil_l (failedMessages (ruleTable c d k))).
  rewrite <- pushes_are_failedMessages.
  unfold generateRecommendations, ruleTable, densityMessage.
  cbn [fold_left outcome message].
  change (ltb d 1) with (ltb d TARGET_KEYWORD_DENSITY_min).
  destruct (ltb d TARGET_KEYWORD_DENSITY_min); reflexivity.
Qed.

Lemma failed_length (table : list Rule) :
  List.length (failedMessages table) =
  List.length table - count_occ bool_dec (map outcome table) true.
Proof.
  unfold failedMessages. rewrite length_map.
  induction table as [ | r table IH]; [reflexivity | ].
  cbn [filter map count_occ List.length].
  pose proof (count_occ_le_length (map outcome table)) as B.
  rewrite length_map in B.
  destruct (outcome r); cbn [negb].
  - destruct (bool_dec true true) as [_ | N]; [ | congruence].
    rewrite IH. lia.
  - destruct (bool_dec false true) as [N | _]; [discriminate | ].
    cbn [List.length]. rewrite IH. lia.
Qed.

Lemma NoDup_map_filter {A B : Type} (h : A -> B) (g : A -> bool) (l : list A) :
  NoDup (map h l) -> NoDup (map h (filter g l)).
Proof.
  induction l as [ | a l IH]; intros N; [exact N | ].
  cbn [map] in N. inversion N as [ | x xs Hn Hd]; subst.
  cbn [filter]. destruct (g a); [ | exact (IH Hd)].
  cbn [map]. constructor; [ | exact (IH Hd)].
  intros Hin. apply Hn.
  apply in_map_iff in Hin. destruct Hin as (y & Ey & Hy).
  apply filter_In in Hy. apply in_map_iff. exists y. tauto.
Qed.

(** The messages of the sixteen rules are pairwise distinct, whatever
    the keyword and the density. *)
Lemma rule_messages_distinct (c : SEOChecks) (d : Q) (k : string) :
  NoDup (map (fun r => messageKey (message r)) (ruleTable c d k)).
Proof.
  unfold ruleTable, densityMessage.
  destruct (ltb d 1); cbn [map message];
    repeat (constructor; [cbn; intuition discriminate | ]); constructor.
Qed.

Lemma ruleTable_shape (c : SEOChecks) (d : Q) (k : string) :
  map ruleName (ruleTable c d k) = Object_keys c /\
  map outcome (ruleTable c d k) = Object_values c /\
  List.length (ruleTable c d k) = 16.
Proof. repeat split; reflexivity. Qed.

Lemma recommendations_of_table (c : SEOChecks) (d : Q) (k : string) :
  let recs := generateRecommendations c d k in
  recs = failedMessages (ruleTable c d k) /\
  List.length recs = 16 - passedCount c /\
  NoDup recs.
Proof.
  intros recs. subst recs.
  rewrite generateRecommendations_table.
  destruct (ruleTable_shape c d k) as (_ & O & L).
  split; [reflexivity | split].
  - rewrite failed_length, O, L. reflexivity.
  - unfold failedMessages.
    apply (NoDup_map_inv messageKey).
    rewrite map_map. apply NoDup_map_filter, rule_messages_distinct.
Qed.

(** C2. The recommendations that [analyzeSEO] returns are the messages
    of the failed checks, one per failed check, in the order in which the
    checks are declared (keywordDensity first, imageAltTags last): their
    number is 16 minus the number of passing checks and no message occurs
    twice. *)
Theorem analyzeSEO_recommendations :
  forall params : Params,
    let r := analyzeSEO params in
    let table := ruleTable (checks r) (density r) (keyword params) in
    map ruleName table = Object_keys (checks r) /\
    map outcome table = Object_values (checks r) /\
    recommendations r = failedMessages table /\
    List.length (recommendations r) = 16 - passedCount (checks r) /\
    NoDup (recommendations r).
Proof.
  intros params r table.
  destruct (ruleTable_shape (checks r) (density r) (keyword params)) as (N & O & _).
  destruct (recommendations_of_table (checks r) (density r) (keyword params))
    as (R & L & D).
  exact (conj N (conj O (conj R (conj L D)))).
Qed.

End ScoreFacts.

(** ** Keyword density *)

Module DensityFacts.
Import JS Number Optimizer Spec JSFacts NumberFacts.
Local Open Scope nat_scope.

Lemma filter_all {A : Type} (f : A -> bool) (l : list A) :
  (forall x, f x = true) -> filter f l = l.
Proof.
  intros H. induction l as [ | a l IH]; cbn; [reflexivity | ].
  rewrite H, IH. reflexivity.
Qed.

Lemma of_nat_pos (n : nat) : n <> 0 -> (0 < of_nat n)%Q.
Proof.
  intros H. unfold of_nat.
  change 0%Q with (inject_Z 0). rewrite <- Zlt_Qlt. lia.
Qed.

(** A number divided by itself is exactly 1. *)
Lemma div_same (n : nat) : n <> 0 -> div (of_nat n) (of_nat n) = 1%Q.
Proof.
  intros H. unfold div.
  rewrite (fl_compat (of_nat n / of_nat n) 1).
  - reflexivity.
  - pose proof (of_nat_pos n H). field. lra.
Qed.

(** With the empty keyword every token matches. *)
Lemma density_empty_keyword (content : string) :
  calculateKeywordDensity content EmptyString =
  if List.length (tokens content) =? 0 then 0%Q else 100%Q.
Proof.
  unfold calculateKeywordDensity. cbn [toLowerCase].
  rewrite (filter_all (fun w => includes w EmptyString)) by apply includes_empty.
  destruct (Nat.eqb_spec (List.length (tokens content)) 0) as [E | N];
    [reflexivity | ].
  rewrite (div_same _ N). reflexivity.
Qed.

Local Open Scope Q_scope.

(** Rounding does not cross a number that it leaves unchanged. *)
Lemma fl_le (x r : Q) : 0 <= x -> x <= r -> fl r = r -> fl x <= r.
Proof.
  intros H0 H E. pose proof (fl_mono x r H0 H) as M.
  rewrite E in M. exact M.
Qed.

(** The quotient, scaled twice by 100 in binary64, stays within
    30000 * 2^-53 of the exact value and inside the range. *)
Lemma scale_chain (q : Q) :
  0 <= q -> q <= 1 ->
  let d3 := mul (mul (fl q) 100) 100 in
  0 <= d3 /\ d3 <= 10000 /\
  (d3 - 10000 * q) * inject_Z (2 ^ 53) <= 30000 /\
  (10000 * q - d3) * inject_Z (2 ^ 53) <= 30000.
Proof.
  intros H0 H1 d3. subst d3. unfold mul.
  set (d1 := fl q).
  assert (D1 : 0 <= d1 /\ d1 <= 1).
  { split; [apply fl_nonneg, H0 | ].
    apply fl_le; [exact H0 | exact H1 | reflexivity]. }
  set (d2 := fl (d1 * 100)).
  assert (D2 : 0 <= d2 /\ d2 <= 100).
  { split; [apply fl_nonneg; lra | ].
    apply fl_le; [lra | lra | reflexivity]. }
  set (d3 := fl (d2 * 100)).
  assert (D3 : 0 <= d3 /\ d3 <= 10000).
  { split; [apply fl_nonneg; lra | ].
    apply fl_le; [lra | lra | reflexivity]. }
  destruct (fl_error q H0) as [E1 E1'].
  destruct (fl_error (d1 * 100) ltac:(lra)) as [E2 E2'].
  destruct (fl_error (d2 * 100) ltac:(lra)) as [E3 E3'].
  fold d1 in E1, E1'. fold d2 in E2, E2'. fold d3 in E3, E3'.
  set (c := inject_Z (2 ^ 53)) in *. clearbody c d1 d2 d3.
  repeat split; lra.
Qed.

(** A number that close to a quotient of denominator at most 2^32 is
    rounded to an integer nearest to the quotient. *)
Lemma nearest_integer (M N : Z) (d : Q) :
  (0 < N <= 2 ^ 32)%Z ->
  (d - inject_Z M / inject_Z N) * inject_Z (2 ^ 53) <= 30000 ->
  (inject_Z M / inject_Z N - d) * inject_Z (2 ^ 53) <= 30000 ->
  inject_Z (Math_round d) - inject_Z M / inject_Z N <= 1 # 2 /\
  inject_Z M / inject_Z N - inject_Z (Math_round d) <= 1 # 2.
Proof.
  intros [N0 N32] Hu Hl.
  unfold Math_round.
  pose proof (Qfloor_le (d + (1 # 2))) as F1.
  pose proof (Qlt_floor (d + (1 # 2))) as F2.
  rewrite inject_Z_plus in F2. change (inject_Z 1) with 1 in F2.
  set (k := Qfloor (d + (1 # 2))) in *.
  assert (Np : 0 < inject_Z N).
  { change 0 with (inject_Z 0). rewrite <- Zlt_Qlt. exact N0. }
  assert (Nb : inject_Z N <= inject_Z (2 ^ 32)).
  { rewrite <- Zle_Qle. exact N32. }
  assert (V : inject_Z M / inject_Z N * inject_Z N == inject_Z M).
  { field. lra. }
  set (v := inject_Z M / inject_Z N) in *.
  assert (C : inject_Z (2 ^ 53) == 9007199254740992) by reflexivity.
  assert (B : inject_Z (2 ^ 32) == 4294967296) by reflexivity.
  split.
  - apply Qnot_lt_le. intros G.
    assert (Z1 : (N + 2 * M < 2 * k * N)%Z).
    { rewrite Zlt_Qlt. rewrite inject_Z_plus, !inject_Z_mult.
      change (inject_Z 2) with 2. rewrite <- V. nra. }
    assert (Z2 : (N + 2 * M + 1 <= 2 * k * N)%Z) by lia.
    rewrite Zle_Qle in Z2.
    rewrite !inject_Z_plus, !inject_Z_mult in Z2.
    change (inject_Z 2) with 2 in Z2. change (inject_Z 1) with 1 in Z2.
    rewrite <- V in Z2.
    set (t := inject_Z k - v - (1 # 2)) in *.
    assert (T1 : 1 <= t * (2 * inject_Z N)) by (unfold t; nra).
    assert (T2 : t * inject_Z (2 ^ 53) <= 30000).
    { assert (t <= d - v) by (unfold t; lra).
      assert (0 < inject_Z (2 ^ 53)) by reflexivity.
      nra. }
    assert (T0 : 0 < t) by (unfold t; lra).
    clearbody t. nra.
  - apply Qnot_lt_le. intros G.
    assert (Z1 : (N + 2 * k * N < 2 * M)%Z).
    { rewrite Zlt_Qlt. rewrite inject_Z_plus, !inject_Z_mult.
      change (inject_Z 2) with 2. rewrite <- V. nra. }
    assert (Z2 : (N + 2 * k * N + 1 <= 2 * M)%Z) by lia.
    rewrite Zle_Qle in Z2.
    rewrite !inject_Z_plus, !inject_Z_mult in Z2.
    change (inject_Z 2) with 2 in Z2. change (inject_Z 1) with 1 in Z2.
    rewrite <- V in Z2.
    set (t := v - inject_Z k - (1 # 2)) in *.
    assert (T1 : 1 <= t * (2 * inject_Z N)) by (unfold t; nra).
    assert (T2 : t * inject_Z (2 ^ 53) <= 30000).
    { assert (t <= v - d) by (unfold t; lra).
      assert (0 < inject_Z (2 ^ 53)) by reflexivity.
      nra. }
    assert (T0 : 0 < t) by (unfold t; lra).
    clearbody t. nra.
Qed.

Lemma Qfloor_unique (x : Q) (k : Z) :
  inject_Z k <= x -> x < inject_Z k + 1 -> Qfloor x = k.
Proof.
  intros L U.
  pose proof (Qfloor_le x) as F1. pose proof (Qlt_floor x) as F2.
  rewrite inject_Z_plus in F2. change (inject_Z 1) with 1 in F2.
  assert (A : (k < Qfloor x + 1)%Z).
  { rewrite Zlt_Qlt, inject_Z_plus. change (inject_Z 1) with 1. lra. }
  assert (B : (Qfloor x < k + 1)%Z).
  { rewrite Zlt_Qlt, inject_Z_plus. change (inject_Z 1) with 1. lra. }
  lia.
Qed.

Lemma tokens_are_runs (content : string) : tokens content = tokens_spec content.
Proof. apply split_class_runs. Qed.

(** C5, as the specification words it, fails where the exact percentage
    lies half-way between two hundredths: 23 matching tokens out of 160
    are 14.375 per cent, which rounds to 14.38, and the code returns
    14.37, because the quotient is rounded to binary64 before it is
    scaled. *)
Lemma density_counterexample :
  List.length (tokens_spec Scenario.tieContent) = 160%nat /\
  List.length (matches_spec Scenario.tieContent "seo") = 23%nat /\
  calculateKeywordDensity Scenario.tieContent "seo" = fl (1437 # 100) /\
  density_spec Scenario.tieContent "seo" = fl (1438 # 100) /\
  calculateKeywordDensity Scenario.tieContent "seo" <>
  density_spec Scenario.tieContent "seo".
Proof.
  repeat split; try (vm_compute; reflexivity).
  vm_compute. discriminate.
Qed.

(** C5, amended.  [calculateKeywordDensity] lowercases the content and the
    keyword, takes the whitespace-delimited non-empty tokens of the
    content and counts those that hold the keyword as a substring.  It
    returns 0 when there is no token; otherwise (for at most 2^32 tokens,
    the bound of an array) it returns the binary64 number nearest to
    [k / 100] for an integer [k] nearest to [10000 * matches / total], so
    that it is the percentage rounded to two decimals whenever that
    percentage is not half-way between two hundredths; the result always
    lies between 0 and 100, and is a function of its inputs. *)
Theorem calculateKeywordDensity_spec :
  forall content keyword : string,
    let total := List.length (tokens_spec content) in
    let matches := List.length (matches_spec content keyword) in
    let d := calculateKeywordDensity content keyword in
    let exact := 10000 * inject_Z (Z.of_nat matches) / inject_Z (Z.of_nat total) in
    tokens content = tokens_spec content /\
    (total = 0%nat -> d = 0) /\
    (0 <= d /\ d <= 100) /\
    ((0 < total)%nat -> (Z.of_nat total <= 2 ^ 32)%Z ->
     (exists k : Z,
        d = div (inject_Z k) 100 /\ (0 <= k <= 10000)%Z /\
        inject_Z k - exact <= 1 # 2 /\ exact - inject_Z k <= 1 # 2) /\
     ((forall j : Z, ~ exact == inject_Z j + (1 # 2)) ->
      d = density_spec content keyword)).
Proof.
  intros content keyword total matches d exact.
  assert (T : tokens content = tokens_spec content) by apply tokens_are_runs.
  assert (D : d = if (total =? 0)%nat then 0
                  else div (inject_Z (Math_round
                         (mul (mul (div (of_nat matches) (of_nat total)) 100) 100))) 100).
  { unfold d, calculateKeywordDensity, total, matches, matches_spec.
    rewrite T. reflexivity. }
  assert (ML : (matches <= total)%nat) by apply filter_length_le.
  split; [exact T | ].
  split; [intros Z0; rewrite D, Z0; reflexivity | ].
  destruct (Nat.eqb_spec total 0) as [Z0 | NZ].
  { rewrite D. split; [split; discriminate | intros H; lia]. }
  set (q := of_nat matches / of_nat total).
  assert (Tp : 0 < of_nat total) by (apply of_nat_pos; exact NZ).
  assert (Mp : 0 <= of_nat matches).
  { unfold of_nat. change 0 with (inject_Z 0). rewrite <- Zle_Qle. lia. }
  assert (Mt : of_nat matches <= of_nat total).
  { unfold of_nat. rewrite <- Zle_Qle. lia. }
  assert (Qm : q * of_nat total == of_nat matches) by (unfold q; field; lra).
  assert (Q0 : 0 <= q) by nra.
  assert (Q1 : q <= 1) by nra.
  destruct (scale_chain q Q0 Q1) as (C0 & C1 & Cu & Cl).
  pose (d3 := mul (mul (div (of_nat matches) (of_nat total)) 100) 100).
  change (mul (mul (fl q) 100) 100) with d3 in C0, C1, Cu, Cl.
  change (mul (mul (div (of_nat matches) (of_nat total)) 100) 100) with d3 in D.
  clearbody d3.
  assert (K0 : (0 <= Math_round d3)%Z).
  { unfold Math_round. rewrite <- (Qfloor_Z 0). apply Qfloor_resp_le.
    change (inject_Z 0) with 0. lra. }
  assert (K1 : (Math_round d3 <= 10000)%Z).
  { unfold Math_round. pose proof (Qfloor_le (d3 + (1 # 2))) as F.
    assert (L : (Qfloor (d3 + (1 # 2)) < 10001)%Z).
    { rewrite Zlt_Qlt. assert (inject_Z 10001 == 10001) by reflexivity. lra. }
    lia. }
  assert (R : 0 <= d /\ d <= 100).
  { rewrite D. unfold div.
    assert (I0 : 0 <= inject_Z (Math_round d3)).
    { change 0 with (inject_Z 0). rewrite <- Zle_Qle. exact K0. }
    assert (I1 : inject_Z (Math_round d3) <= 10000).
    { assert (E : 10000 == inject_Z 10000) by reflexivity.
      rewrite E, <- Zle_Qle. exact K1. }
    split.
    - apply fl_nonneg. apply Qle_shift_div_l; lra.
    - apply fl_le; [ | | reflexivity].
      + apply Qle_shift_div_l; lra.
      + apply Qle_shift_div_r; lra. }
  split; [exact R | ].
  intros _ B32.
  assert (EX : exact == 10000 * q).
  { unfold exact, q, of_nat. field. unfold of_nat in Tp. lra. }
  assert (EQ : q == inject_Z (Z.of_nat matches * 1) / inject_Z (Z.of_nat total)).
  { unfold q, of_nat. rewrite Z.mul_1_r. reflexivity. }
  assert (EM : exact == inject_Z (10000 * Z.of_nat matches) / inject_Z (Z.of_nat total)).
  { unfold exact. rewrite inject_Z_mult.
    assert (inject_Z 10000 == 10000) by reflexivity.
    field. unfold of_nat in Tp. lra. }
  destruct (nearest_integer (10000 * Z.of_nat matches) (Z.of_nat total) d3)
    as [Nu Nl].
  { lia. }
  { rewrite <- EM, EX. exact Cu. }
  { rewrite <- EM, EX. exact Cl. }
  rewrite <- EM in Nu, Nl.
  split.
  - exists (Math_round d3). rewrite D. repeat split; try assumption; lia.
  - intros NT. rewrite D. unfold density_spec. fold total matches.
    destruct (Nat.eqb_spec total 0) as [Z0 | _]; [contradiction | ].
    unfold div, round2. apply fl_compat.
    assert (RH : roundHalfUp
                   (inject_Z (Z.of_nat matches) / inject_Z (Z.of_nat total) * 100 * 100)
                 = Math_round d3).
    { unfold roundHalfUp. apply Qfloor_unique.
      - assert (X : inject_Z (Z.of_nat matches) / inject_Z (Z.of_nat total) * 100 * 100
                    == exact).
        { unfold exact. field. unfold of_nat in Tp. lra. }
        rewrite X. lra.
      - assert (X : inject_Z (Z.of_nat matches) / inject_Z (Z.of_nat total) * 100 * 100
                    == exact).
        { unfold exact. field. unfold of_nat in Tp. lra. }
        rewrite X.
        destruct (Qlt_le_dec (exact + (1 # 2)) (inject_Z (Math_round d3) + 1))
          as [L | G]; [exact L | exfalso].
        apply (NT (Math_round d3)). lra. }
    rewrite RH. reflexivity.
Qed.

(** An instance of C5: the sample content of the scenario, 50 tokens of
    which one holds the keyword. *)
Lemma density_witness :
  (0 < List.length (tokens_spec Scenario.sampleContent))%nat /\
  (Z.of_nat (List.length (tokens_spec Scenario.sampleContent)) <= 2 ^ 32)%Z /\
  calculateKeywordDensity Scenario.sampleContent "seo" =
  density_spec Scenario.sampleContent "seo" /\
  calculateKeywordDensity Scenario.sampleContent "seo" = 2.
Proof.
  assert (P : (0 < List.length (tokens_spec Scenario.sampleContent))%nat)
    by (vm_compute; lia).
  assert (B : (Z.of_nat (List.length (tokens_spec Scenario.sampleContent)) <= 2 ^ 32)%Z)
    by (vm_compute; discriminate).
  destruct (calculateKeywordDensity_spec Scenario.sampleContent "seo")
    as (_ & _ & _ & H).
  destruct (H P B) as [_ NT].
  refine (conj P (conj B (conj (NT _) _))).
  - intros j E.
    match type of E with
    | ?e == _ => assert (X : e == 200) by (vm_compute; reflexivity)
    end.
    rewrite X in E. unfold Qeq in E. cbn in E. lia.
  - vm_compute. reflexivity.
Defined.

End DensityFacts.

(** ** The analysis as a whole *)

Module AnalyzeFacts.
Import JS Number Optimizer Spec JSFacts NumberFacts DensityFacts.
Local Open Scope nat_scope.

(** C10. With the empty keyword the keywordInTitle,
    keywordInMetaDescription and keywordInFirstParagraph checks pass for
    every artifact, keywordInH1 passes exactly when some heading has level
    1, the density of a content with at least one token is 100, and the
    keywordDensity check fails (for every content). *)
Theorem empty_keyword_checks :
  forall params : Params,
    keyword params = EmptyString ->
    let r := analyzeSEO params in
    keywordInTitle (checks r) = true /\
    keywordInMetaDescription (checks r) = true /\
    keywordInFirstParagraph (checks r) = true /\
    keywordInH1 (checks r) = existsb (fun h => (level h =? 1)%Z) (headings params) /\
    (tokens (content params) <> [] ->
     calculateKeywordDensity (content params) (keyword params) = 100%Q /\
     density r = 100%Q) /\
    keywordDensity (checks r) = false.
Proof.
  intros params K r. subst r.
  cbn [analyzeSEO checks density keywordInTitle keywordInMetaDescription
       keywordInFirstParagraph keywordInH1 keywordDensity].
  unfold checkKeywordInFirstParagraph, checkKeywordDensity.
  rewrite K. cbn [toLowerCase].
  rewrite density_empty_keyword.
  repeat split.
  - apply includes_empty.
  - apply includes_empty.
  - apply includes_empty.
  - induction (headings params) as [ | h hs IH]; [reflexivity | ].
    cbn [existsb]. rewrite IH, includes_empty, andb_true_r. reflexivity.
  - destruct (tokens (content params)); [congruence | reflexivity].
  - destruct (tokens (content params)); [congruence | reflexivity].
  - destruct (List.length (tokens (content params)) =? 0); reflexivity.
Qed.

(** What [analyzeSEO] returns, from its check set. *)
Lemma analyzeSEO_eq (p : Params) :
  score (analyzeSEO p) = calculateSEOScore (checks (analyzeSEO p)) /\
  recommendations (analyzeSEO p) =
    generateRecommendations (checks (analyzeSEO p))
      (calculateKeywordDensity (content p) (keyword p)) (keyword p) /\
  density (analyzeSEO p) = calculateKeywordDensity (content p) (keyword p).
Proof. repeat split; reflexivity. Qed.

Lemma checks_eq (p : Params) :
  checks (analyzeSEO p) =
  {| keywordDensity := checkKeywordDensity (content p) (keyword p);
     keywordInTitle := includes (toLowerCase (title p)) (toLowerCase (keyword p));
     keywordInMetaDescription :=
       includes (toLowerCase (orDefault (metaDescription p) EmptyString))
                (toLowerCase (keyword p));
     keywordInH1 :=
       existsb (fun h => (level h =? 1)%Z &&
                         includes (toLowerCase (text h)) (toLowerCase (keyword p)))
               (headings p);
     keywordInFirstParagraph := checkKeywordInFirstParagraph (content p) (keyword p);
     titleLength :=
       (30 <=? String.length (title p)) && (String.length (title p) <=? 60);
     metaDescriptionLength :=
       (120 <=? String.length (orDefault (metaDescription p) EmptyString)) &&
       (String.length (orDefault (metaDescription p) EmptyString) <=? 160);
     headingStructure := validateHeadingStructure (headings p);
     internalLinkCount :=
       (3 <=? List.length (orDefault (internalLinks p) [])) &&
       (List.length (orDefault (internalLinks p) []) <=? 7);
     externalLinkCount := 3 <=? List.length (orDefault (externalLinks p) []);
     wordCountCheck := (2000 <=? wordCount p)%Z;
     readabilityScoreCheck := geb (readabilityScore p) 60;
     hasFAQs := 3 <=? List.length (orDefault (faqs p) []);
     hasCallToAction :=
       includes (toLowerCase (content p)) "cta" ||
       includes (toLowerCase (content p)) "call to action" ||
       includes (toLowerCase (content p)) "get started" ||
       includes (toLowerCase (content p)) "learn more";
     hasImages := includes (content p) "<img" || includes (content p) "![";
     imageAltTags :=
       includes (content p) "alt=" ||
       match match_image (content p) with
       | Some l => 0 <? List.length l
       | None => false
       end |}.
Proof. reflexivity. Qed.








(** An instance of C10. *)
Lemma empty_keyword_witness :
  keyword Scenario.emptyKeywordArtifact = EmptyString /\
  tokens (content Scenario.emptyKeywordArtifact) <> [] /\
  density (analyzeSEO Scenario.emptyKeywordArtifact) = 100%Q /\
  keywordDensity (checks (analyzeSEO Scenario.emptyKeywordArtifact)) = false.
Proof.
  destruct (empty_keyword_checks Scenario.emptyKeywordArtifact eq_refl)
    as (_ & _ & _ & _ & D & K).
  assert (T : tokens (content Scenario.emptyKeywordArtifact) <> []).
  { vm_compute. discriminate. }
  exact (conj eq_refl (conj T (conj (proj2 (D T)) K))).
Defined.

(** ** The degenerate artifact *)

Lemma density_empty_content (k : string) :
  calculateKeywordDensity EmptyString k = 0%Q.
Proof. reflexivity. Qed.

Lemma includes_in_empty (sub : string) :
  sub <> EmptyString -> includes EmptyString sub = false.
Proof. intros H. destruct sub; [congruence | reflexivity]. Qed.

Lemma toLowerCase_nonempty (s : string) :
  s <> EmptyString -> toLowerCase s <> EmptyString.
Proof. destruct s; [congruence | discriminate]. Qed.

(** C7, as the specification words it, fails: an artifact with every
    listed input degenerate, whose title and readability are fine, does
    not score zero. *)
Lemma degenerate_score_counterexample :
  DegenerateArtifact Scenario.emptyBodyArtifact /\
  score (analyzeSEO Scenario.emptyBodyArtifact) = 19%Z /\
  score (analyzeSEO Scenario.emptyBodyArtifact) <> 0%Z.
Proof.
  split; [constructor; reflexivity | ].
  split; [vm_compute; reflexivity | vm_compute; discriminate].
Qed.

(** The checks of a degenerate artifact: eleven of them fail, and the
    five others depend on the title, the keyword and the readability. *)
Lemma degenerate_checks (p : Params) :
  DegenerateArtifact p ->
  checks (analyzeSEO p) =
  {| keywordDensity := false;
     keywordInTitle := includes (toLowerCase (title p)) (toLowerCase (keyword p));
     keywordInMetaDescription := includes EmptyString (toLowerCase (keyword p));
     keywordInH1 := false;
     keywordInFirstParagraph := includes EmptyString (toLowerCase (keyword p));
     titleLength :=
       (30 <=? String.length (title p)) && (String.length (title p) <=? 60);
     metaDescriptionLength := false; headingStructure := false;
     internalLinkCount := false; externalLinkCount := false;
     wordCountCheck := false;
     readabilityScoreCheck := geb (readabilityScore p) 60;
     hasFAQs := false; hasCallToAction := false; hasImages := false;
     imageAltTags := false |}.
Proof.
  intros [Hc Hh Hm Hf Hi He Hw].
  rewrite checks_eq. rewrite Hc, Hh, Hm, Hf, Hi, He, Hw.
  reflexivity.
Qed.

(** The score of a check set with the eleven checks failed. *)
Lemma degenerate_score (a b c d e : bool) :
  let cs :=
    {| keywordDensity := false; keywordInTitle := a;
       keywordInMetaDescription := b; keywordInH1 := false;
       keywordInFirstParagraph := c; titleLength := d;
       metaDescriptionLength := false; headingStructure := false;
       internalLinkCount := false; externalLinkCount := false;
       wordCountCheck := false; readabilityScoreCheck := e;
       hasFAQs := false; hasCallToAction := false; hasImages := false;
       imageAltTags := false |} in
  (0 <= calculateSEOScore cs <= 31)%Z /\
  (calculateSEOScore cs = 0%Z <->
   a = false /\ b = false /\ c = false /\ d = false /\ e = false).
Proof.
  destruct a, b, c, d, e; vm_compute; intuition discriminate.
Qed.

(** C7, amended.  [analyzeSEO] is a total function of the artifact: the
    only operation of it that can yield no value, the match of the image
    pattern, gives the outcome false when there is no match.  Each
    degenerate input makes the checks that read it fail, whatever the rest
    of the artifact: an empty content gives density 0 and fails
    keywordDensity, hasCallToAction, hasImages and imageAltTags (and
    keywordInFirstParagraph when the keyword is not empty); no heading
    fails keywordInH1 and headingStructure; no internal link, no external
    link, no FAQ and a word count of zero fail internalLinkCount,
    externalLinkCount, hasFAQs and wordCount; an empty or absent meta
    description fails metaDescriptionLength (and keywordInMetaDescription
    when the keyword is not empty).  The score is not zero for that: with
    all of these inputs degenerate at once it is at most 31, and it is 0
    exactly when the five checks on the title, the keyword and the
    readability fail too.  For every artifact, imageAltTags is false, not
    an error, when the content holds neither [alt=] nor the opening of a
    Markdown image. *)
Theorem degenerate_artifact :
  forall p : Params,
    let r := analyzeSEO p in
    let c := checks r in
    (content p = EmptyString ->
     density r = 0%Q /\ keywordDensity c = false /\ hasCallToAction c = false /\
     hasImages c = false /\ imageAltTags c = false /\
     (keyword p <> EmptyString -> keywordInFirstParagraph c = false)) /\
    (headings p = [] -> keywordInH1 c = false /\ headingStructure c = false) /\
    (orDefault (internalLinks p) [] = [] -> internalLinkCount c = false) /\
    (orDefault (externalLinks p) [] = [] -> externalLinkCount c = false) /\
    (orDefault (metaDescription p) EmptyString = EmptyString ->
     metaDescriptionLength c = false /\
     (keyword p <> EmptyString -> keywordInMetaDescription c = false)) /\
    (orDefault (faqs p) [] = [] -> hasFAQs c = false) /\
    (wordCount p = 0%Z -> wordCountCheck c = false) /\
    (DegenerateArtifact p ->
     (0 <= score r <= 31)%Z /\
     (score r = 0%Z <->
      keywordInTitle c = false /\ keywordInMetaDescription c = false /\
      keywordInFirstParagraph c = false /\ titleLength c = false /\
      readabilityScoreCheck c = false)) /\
    (includes (content p) "alt=" = false -> includes (content p) "![" = false ->
     imageAltTags c = false).
Proof.
  intros p r c. subst c r.
  destruct (analyzeSEO_eq p) as (Es & _ & Ed).
  split; [ | split; [ | split; [ | split; [ | split; [ | split; [ | split;
    [ | split]]]]]]].
  - intros H. rewrite Ed, checks_eq, H.
    cbn [keywordDensity hasCallToAction hasImages imageAltTags
         keywordInFirstParagraph].
    split; [apply density_empty_content | ].
    repeat split.
    intros K. unfold checkKeywordInFirstParagraph.
    change (firstParagraphOf EmptyString) with EmptyString.
    apply includes_in_empty, toLowerCase_nonempty, K.
  - intros H. rewrite checks_eq, H. split; reflexivity.
  - intros H. rewrite checks_eq, H. reflexivity.
  - intros H. rewrite checks_eq, H. reflexivity.
  - intros H. rewrite checks_eq, H. cbn [metaDescriptionLength keywordInMetaDescription].
    split; [reflexivity | ].
    intros K. apply includes_in_empty, toLowerCase_nonempty, K.
  - intros H. rewrite checks_eq, H. reflexivity.
  - intros H. rewrite checks_eq, H. reflexivity.
  - intros D. rewrite Es, (degenerate_checks p D).
    cbn [keywordInTitle keywordInMetaDescription keywordInFirstParagraph
         titleLength readabilityScoreCheck].
    split; apply degenerate_score.
  - intros A I. rewrite checks_eq. cbn [imageAltTags]. rewrite A.
    unfold match_image. rewrite (execImage_none _ I). reflexivity.
Qed.

(** An instance of C7: the artifact with nothing in it has density 0,
    fails its heading checks and scores zero; the artifact with a title
    and a readability, and nothing else, fails the checks on its empty
    content. *)
Lemma degenerate_witness :
  DegenerateArtifact Scenario.emptyArtifact /\
  density (analyzeSEO Scenario.emptyArtifact) = 0%Q /\
  headingStructure (checks (analyzeSEO Scenario.emptyArtifact)) = false /\
  score (analyzeSEO Scenario.emptyArtifact) = 0%Z /\
  hasImages (checks (analyzeSEO Scenario.emptyBodyArtifact)) = false.
Proof.
  assert (D : DegenerateArtifact Scenario.emptyArtifact)
    by (constructor; reflexivity).
  destruct (degenerate_artifact Scenario.emptyArtifact)
    as (C & H & _ & _ & _ & _ & _ & S & _).
  destruct (degenerate_artifact Scenario.emptyBodyArtifact) as (C' & _).
  destruct (S D) as (_ & Z0).
  refine (conj D (conj (proj1 (C eq_refl)) (conj (proj2 (H eq_refl)) (conj _ _)))).
  - apply Z0. repeat split; reflexivity.
  - exact (proj1 (proj2 (proj2 (proj2 (C' eq_refl))))).
Defined.

End AnalyzeFacts.

(** ** Bulk generation *)

Module BulkFacts.
Import BlogGenerator Spec.
Local Open Scope nat_scope.

Section Oracle.

Variable World : Type.
Variable Error : Type.
Variable generateObject : Prompt -> World -> (Error + GeneratedObject) * World.
Variable toISOString_now : World -> string * World.

(** The loop appends to the array built so far the results of a run over
    the items still to process. *)
Lemma bulkLoop_run (audience : string) (includeData : bool)
      (items : list BulkItem) (posts : list (BulkResult Error)) (w : World) :
  exists results w',
    bulkLoop World Error generateObject toISOString_now
             audience includeData items posts w = ((posts ++ results)%list, w') /\
    bulkRun World Error generateObject toISOString_now audience includeData
            w items results w'.
Proof.
  revert posts w. induction items as [ | item rest IH]; intros posts w.
  - exists [], w. cbn. rewrite app_nil_r. split; [reflexivity | constructor].
  - cbn [bulkLoop].
    destruct (generateBlogPost World Error generateObject toISOString_now
                {| topic := itemTopic item; keyword := itemKeyword item;
                   tone := Some (toneOrProfessional (itemTone item));
                   audience := Some audience; includeData := Some includeData;
                   targetWordCount := None |} w) as [[error | post] w1] eqn:G.
    + destruct (IH (posts ++ [Failed (itemTopic item) error])%list w1)
        as (results & w' & E & R).
      exists (Failed (itemTopic item) error :: results), w'.
      split.
      * rewrite E, <- app_assoc. reflexivity.
      * eapply bulkRun_failed; [exact G | exact R].
    + destruct (IH (posts ++ [Succeeded post])%list w1) as (results & w' & E & R).
      exists (Succeeded post :: results), w'.
      split.
      * rewrite E, <- app_assoc. reflexivity.
      * eapply bulkRun_succeeded; [exact G | exact R].
Qed.

Lemma run_results (audience : string) (includeData : bool)
      (w w' : World) (items : list BulkItem) (results : list (BulkResult Error)) :
  bulkRun World Error generateObject toISOString_now audience includeData
          w items results w' ->
  Forall2 (resultOf Error) items results.
Proof.
  induction 1; constructor; try assumption; cbn; auto.
Qed.

(** C8. [generateBulkPosts] processes the topics one after the other in
    the order of the input and goes on after a failure: its result is the
    result of the sequential run, it has the length and the order of the
    input, a failed item is marked [success: false] with its topic, a
    generated one [success: true] with its post; so, for three topics of
    which the second fails, the result is success, failure with the second
    topic, success. *)
Theorem generateBulkPosts_spec :
  (forall (params : BulkParams) (w : World),
     let audience := Optimizer.orDefault (bulkAudience params) "general audience"%string in
     let includeData := Optimizer.orDefault (bulkIncludeData params) true in
     let out := generateBulkPosts World Error generateObject toISOString_now params w in
     bulkRun World Error generateObject toISOString_now audience includeData
             w (topics params) (fst out) (snd out) /\
     List.length (fst out) = List.length (topics params) /\
     Forall2 (resultOf Error) (topics params) (fst out)) /\
  (forall (a : option string) (d : option bool) (t1 t2 t3 : BulkItem)
          (w w1 w2 w3 : World) (p1 p3 : Post) (e : Error),
     let audience := Optimizer.orDefault a "general audience"%string in
     let includeData := Optimizer.orDefault d true in
     generateBlogPost World Error generateObject toISOString_now
       (itemParams audience includeData t1) w = (inr p1, w1) ->
     generateBlogPost World Error generateObject toISOString_now
       (itemParams audience includeData t2) w1 = (inl e, w2) ->
     generateBlogPost World Error generateObject toISOString_now
       (itemParams audience includeData t3) w2 = (inr p3, w3) ->
     generateBulkPosts World Error generateObject toISOString_now
       {| topics := [t1; t2; t3]; bulkAudience := a; bulkIncludeData := d |} w =
     ([Succeeded p1; Failed (itemTopic t2) e; Succeeded p3], w3)).
Proof.
  split.
  - intros params w audience includeData out.
    destruct (bulkLoop_run audience includeData (topics params) [] w)
      as (results & w' & E & R).
    assert (O : out = (results, w')) by exact E.
    rewrite O. cbn [fst snd].
    pose proof (run_results _ _ _ _ _ _ R) as F.
    split; [exact R | split; [ | exact F]].
    symmetry. exact (Forall2_length F).
  - intros a d t1 t2 t3 w w1 w2 w3 p1 p3 e audience includeData G1 G2 G3.
    unfold generateBulkPosts. cbn [topics bulkAudience bulkIncludeData bulkLoop].
    fold audience includeData.
    unfold itemParams in G1, G2, G3.
    rewrite G1. cbn [List.app]. rewrite G2. cbn [List.app]. rewrite G3.
    reflexivity.
Qed.

End Oracle.

(** A run of the sample service: the second of three topics fails. *)
Lemma bulk_example :
  fst (generateBulkPosts nat string Scenario.sampleService Scenario.sampleClock
         {| topics := Scenario.sampleTopics; bulkAudience := None;
            bulkIncludeData := None |} 0) =
  [ Succeeded {| object :=
                   Scenario.sampleObject
                     {| promptTopic := "first"; promptKeyword := "seo";
                        promptTone := "professional";
                        promptAudience := "general audience";
                        promptIncludeData := true; promptWordCount := 2000 |};
                 postReadabilityScore := 100; postWordCount := 4;
                 generatedAt := "1" |};
    Failed "bad" "the model service timed out";
    Succeeded {| object :=
                   Scenario.sampleObject
                     {| promptTopic := "third"; promptKeyword := "seo";
                        promptTone := "professional";
                        promptAudience := "general audience";
                        promptIncludeData := true; promptWordCount := 2000 |};
                 postReadabilityScore := 100; postWordCount := 4;
                 generatedAt := "3" |} ]%string.
Proof.
  pose proof (generateBulkPosts_spec nat string Scenario.sampleService
                Scenario.sampleClock) as [_ Three].
  exact (f_equal fst
           (Three None None Scenario.firstItem Scenario.badItem Scenario.thirdItem
                  0 1 2 3 _ _ _ eq_refl eq_refl eq_refl)).
Defined.

End BulkFacts.

(** ** Rounding, whatever the sign *)

Module NumberMore.
Import Number NumberFacts DensityFacts.
Local Open Scope Q_scope.

(** Rounding to the nearest integer, ties to even, is symmetric. *)
Lemma rne_opp (t : Q) : rne (- t) = (- rne t)%Z.
Proof.
  pose proof (Qfloor_le t) as F1. pose proof (Qlt_floor t) as F2.
  rewrite inject_Z_plus in F2. change (inject_Z 1) with 1 in F2.
  destruct (Qeq_dec t (inject_Z (Qfloor t))) as [I | N].
  - assert (F : Qfloor (- t) = (- Qfloor t)%Z).
    { apply Qfloor_unique; rewrite inject_Z_opp; lra. }
    unfold rne. rewrite F, inject_Z_opp.
    destruct (Qcompare_spec (t - inject_Z (Qfloor t)) (1 # 2)) as [C | C | C];
      try lra.
    destruct (Qcompare_spec (- t - - inject_Z (Qfloor t)) (1 # 2)) as [D | D | D];
      try lra.
    reflexivity.
  - assert (L : inject_Z (Qfloor t) < t).
    { apply Qnot_le_lt. intros H. apply N. lra. }
    assert (F : Qfloor (- t) = (- (Qfloor t + 1))%Z).
    { apply Qfloor_unique; rewrite inject_Z_opp, inject_Z_plus;
        change (inject_Z 1) with 1; lra. }
    unfold rne. rewrite F, inject_Z_opp, inject_Z_plus.
    change (inject_Z 1) with 1.
    assert (P : Z.even (- (Qfloor t + 1)) = negb (Z.even (Qfloor t))).
    { rewrite Z.even_opp, Z.even_add. destruct (Z.even (Qfloor t)); reflexivity. }
    rewrite P.
    destruct (Qcompare_spec (t - inject_Z (Qfloor t)) (1 # 2)) as [C | C | C];
      destruct (Qcompare_spec (- t - - (inject_Z (Qfloor t) + 1)) (1 # 2))
        as [D | D | D]; try lra; try lia.
    destruct (Z.even (Qfloor t)); cbn [negb]; lia.
Qed.

Lemma fl_opp (x : Q) : fl (- x) == - fl x.
Proof.
  unfold fl.
  destruct (Qeq_bool x 0) eqn:X.
  - apply Qeq_bool_iff in X.
    assert (Y : Qeq_bool (- x) 0 = true) by (apply Qeq_bool_iff; lra).
    rewrite Y. reflexivity.
  - assert (NX : ~ x == 0).
    { intros H. apply Qeq_bool_iff in H. congruence. }
    assert (Y : Qeq_bool (- x) 0 = false).
    { destruct (Qeq_bool (- x) 0) eqn:Y; [ | reflexivity].
      apply Qeq_bool_iff in Y. exfalso. apply NX. lra. }
    rewrite Y.
    assert (A : 0 < Qabs x).
    { destruct (Qlt_le_dec 0 x) as [P | P].
      - rewrite Qabs_pos by lra. exact P.
      - rewrite Qabs_neg by exact P.
        destruct (Qlt_le_dec x 0) as [P' | P']; [lra | exfalso; apply NX; lra]. }
    assert (E : ilog2 (Qabs (- x)) = ilog2 (Qabs x)).
    { apply ilog2_compat; [rewrite Qabs_opp; exact A | apply Qabs_opp]. }
    rewrite E.
    set (u := 2 ^ (ilog2 (Qabs x) - 52)).
    assert (U : 0 < u) by apply pow2_pos.
    rewrite !Qred_correct.
    rewrite (rne_compat (- x / u) (- (x / u))) by (field; lra).
    rewrite rne_opp, inject_Z_opp. ring.
Qed.

(** Rounding to binary64 keeps the order, whatever the signs. *)
Lemma fl_monotone (x y : Q) : x <= y -> fl x <= fl y.
Proof.
  intros H.
  destruct (Qlt_le_dec x 0) as [X | X]; [ | apply fl_mono; assumption].
  assert (NX : fl x <= 0).
  { pose proof (fl_nonneg (- x) ltac:(lra)) as P. rewrite fl_opp in P. lra. }
  destruct (Qlt_le_dec y 0) as [Y | Y].
  - pose proof (fl_mono (- y) (- x) ltac:(lra) ltac:(lra)) as M.
    rewrite !fl_opp in M. lra.
  - pose proof (fl_nonneg y Y). lra.
Qed.

(** The error of a rounding to binary64 is at most 2^-53 of the
    magnitude, whatever the sign. *)
Lemma fl_close (x : Q) :
  (0 <= x -> (fl x - x) * inject_Z (2 ^ 53) <= x /\ (x - fl x) * inject_Z (2 ^ 53) <= x) /\
  (x <= 0 -> (fl x - x) * inject_Z (2 ^ 53) <= - x /\ (x - fl x) * inject_Z (2 ^ 53) <= - x).
Proof.
  split; intros H.
  - apply fl_error, H.
  - pose proof (fl_error (- x) ltac:(lra)) as [A B].
    rewrite fl_opp in A, B. split; lra.
Qed.

End NumberMore.

(** ** The Flesch expression in binary64 *)

Module FleschFacts.
Import JS Number BlogGenerator Spec NumberFacts DensityFacts NumberMore.
Local Open Scope Q_scope.

Lemma of_nat_nonneg (n : nat) : 0 <= inject_Z (Z.of_nat n).
Proof. change 0 with (inject_Z 0). rewrite <- Zle_Qle. lia. Qed.

(** The binary64 evaluation of the Flesch expression is within 2^-50 of
    the magnitude of its terms from the exact value. *)
Lemma fleschScore_error (w s y : nat) :
  w <> 0%nat -> s <> 0%nat ->
  let E := flesch_spec w s y in
  let r := fleschScore w s y in
  E <= 206835 # 1000 /\
  (r - E) * inject_Z (2 ^ 50) <= (413670 # 1000) - E /\
  (E - r) * inject_Z (2 ^ 50) <= (413670 # 1000) - E.
Proof.
  intros W S E r. subst E r.
  unfold flesch_spec, fleschScore, sub, mul, div, literal, of_nat.
  pose proof (of_nat_pos w W) as Pw. pose proof (of_nat_pos s S) as Ps.
  pose proof (of_nat_nonneg y) as Py. unfold of_nat in Pw, Ps.
  set (qw := inject_Z (Z.of_nat w)) in *. set (qs := inject_Z (Z.of_nat s)) in *.
  set (qy := inject_Z (Z.of_nat y)) in *. clearbody qw qs qy.
  assert (A0 : 0 <= qw / qs) by (apply Qle_shift_div_l; lra).
  assert (B0 : 0 <= qy / qw) by (apply Qle_shift_div_l; lra).
  set (A := qw / qs) in *. set (B := qy / qw) in *. clearbody A B.
  clear Pw Ps Py qw qs qy.
  let v := eval vm_compute in (fl (206835 # 1000)) in
    change (fl (206835 # 1000)) with v.
  let v := eval vm_compute in (fl (1015 # 1000)) in
    change (fl (1015 # 1000)) with v.
  let v := eval vm_compute in (fl (846 # 10)) in
    change (fl (846 # 10)) with v.
  let v := eval vm_compute in (inject_Z (2 ^ 50)) in
    change (inject_Z (2 ^ 50)) with v.
  pose proof (fl_error A A0) as [a1 a2].
  pose proof (fl_nonneg A A0) as a0.
  set (a := fl A) in *. clearbody a.
  pose proof (fl_error B B0) as [b1 b2].
  pose proof (fl_nonneg B B0) as b0.
  set (b := fl B) in *. clearbody b.
  match goal with |- context [fl (?c * a)] =>
    pose proof (fl_error (c * a) ltac:(lra)) as [m1 m2];
    set (ma := fl (c * a)) in * end.
  match goal with |- context [fl (?c * b)] =>
    pose proof (fl_error (c * b) ltac:(lra)) as [n1 n2];
    set (mb := fl (c * b)) in * end.
  clearbody ma mb.
  match goal with |- context [fl (?c - ma)] =>
    pose proof (fl_close (c - ma)) as [xp xn];
    set (x := fl (c - ma)) in * end.
  clearbody x.
  pose proof (fl_close (x - mb)) as [rp rn].
  set (r := fl (x - mb)) in *. clearbody r.
  let v := eval vm_compute in (inject_Z (2 ^ 53)) in
    change (inject_Z (2 ^ 53)) with v in *.
  split; [lra | ].
  match type of xp with (0 <= ?d -> _) =>
    destruct (Qlt_le_dec d 0) as [Dn | Dp];
    [specialize (xn ltac:(lra)); clear xp | specialize (xp Dp); clear xn] end;
  (destruct (Qlt_le_dec (x - mb) 0) as [En | Ep];
   [specialize (rn ltac:(lra)); clear rp | specialize (rp Ep); clear rn]);
  split; lra.
Qed.


Lemma Qle_bool_false (x y : Q) : Qle_bool x y = false -> y < x.
Proof.
  intros H. apply Qnot_le_lt. intros L. apply Qle_bool_iff in L. congruence.
Qed.

(** After the clamp, the binary64 score is within 2^-41 of the exact
    one. *)
Lemma clamp_close (w s y : nat) :
  w <> 0%nat -> s <> 0%nat ->
  clamp (fleschScore w s y) - clamp (flesch_spec w s y) <= 1 # 2 ^ 41 /\
  clamp (flesch_spec w s y) - clamp (fleschScore w s y) <= 1 # 2 ^ 41.
Proof.
  intros W S.
  pose proof (fleschScore_error w s y W S) as (B & U & L).
  cbv zeta in B, U, L.
  let v := eval vm_compute in (inject_Z (2 ^ 50)) in
    change (inject_Z (2 ^ 50)) with v in U, L.
  set (E := flesch_spec w s y) in *. set (r := fleschScore w s y) in *.
  clearbody E r.
  change (1 # 2 ^ 41) with (1 # 2199023255552).
  unfold clamp.
  destruct (Qle_bool r 0) eqn:R0; [apply Qle_bool_iff in R0 | apply Qle_bool_false in R0];
    (destruct (Qle_bool 100 r) eqn:R1;
     [apply Qle_bool_iff in R1 | apply Qle_bool_false in R1]);
    (destruct (Qle_bool E 0) eqn:E0;
     [apply Qle_bool_iff in E0 | apply Qle_bool_false in E0]);
    (destruct (Qle_bool 100 E) eqn:E1;
     [apply Qle_bool_iff in E1 | apply Qle_bool_false in E1]);
    split; lra.
Qed.

End FleschFacts.

(** ** Readability *)

Module ReadabilityFacts.
Import JS Number BlogGenerator Spec JSFacts NumberFacts DensityFacts NumberMore
       FleschFacts.
Local Open Scope nat_scope.

Lemma trimEnd_empty (s : string) :
  trimEnd s = EmptyString <-> allChars isWhiteSpace s = true.
Proof.
  induction s as [ | c r IH]; cbn [trimEnd allChars]; [tauto | ].
  destruct (trimEnd r) eqn:E.
  - destruct (isWhiteSpace c); cbn [andb].
    + split; [intros _; apply IH; reflexivity | reflexivity].
    + split; discriminate.
  - split; [discriminate | ].
    intros H. apply andb_prop in H. destruct H as [_ H].
    apply IH in H. discriminate H.
Qed.

Lemma allChars_trimStart (s : string) :
  allChars isWhiteSpace (trimStart s) = allChars isWhiteSpace s.
Proof.
  induction s as [ | c r IH]; [reflexivity | ].
  cbn [trimStart]. destruct (isWhiteSpace c) eqn:W.
  - rewrite IH. cbn [allChars]. rewrite W. reflexivity.
  - reflexivity.
Qed.

(** What [trim] leaves is not empty exactly when the string is not
    blank. *)
Lemma trim_notBlank (s : string) :
  (0 <? String.length (trim s)) = notBlank s.
Proof.
  unfold notBlank, trim. rewrite <- allChars_trimStart.
  destruct (allChars isWhiteSpace (trimStart s)) eqn:A.
  - apply trimEnd_empty in A. rewrite A. reflexivity.
  - destruct (trimEnd (trimStart s)) eqn:E.
    + apply trimEnd_empty in E. congruence.
    + reflexivity.
Qed.

Lemma filter_filter_sub {A : Type} (f g : A -> bool) (l : list A) :
  (forall x, f x = true -> g x = true) ->
  filter f (filter g l) = filter f l.
Proof.
  intros H. induction l as [ | a l IH]; [reflexivity | ].
  cbn [filter]. destruct (g a) eqn:G.
  - cbn [filter]. rewrite IH. reflexivity.
  - destruct (f a) eqn:F; [ | exact IH].
    apply H in F. congruence.
Qed.

Lemma sentencesOf_spec (text : string) : sentencesOf text = sentences_spec text.
Proof.
  unfold sentencesOf, sentences_spec, split_class.
  rewrite (filter_ext _ notBlank) by (intros a; apply trim_notBlank).
  rewrite <- (filter_filter_sub notBlank (fun w => 0 <? String.length w)).
  - rewrite split_class_runs. reflexivity.
  - intros x. destruct x; [discriminate | reflexivity].
Qed.

Lemma wordsOf_spec (text : string) : wordsOf text = words_spec text.
Proof. apply split_class_runs. Qed.

(** A letter is not a white space, and the space is one. *)
Lemma letter_notWhiteSpace (c : ascii) :
  notWhiteSpace (if isLowerLetter c then c else " "%char) = isLowerLetter c.
Proof.
  destruct c as [[ | ] [ | ] [ | ] [ | ] [ | ] [ | ] [ | ] [ | ]]; reflexivity.
Qed.

Lemma startsWith_replace (s : string) :
  startsWith notWhiteSpace (replace_non_letters s) = startsWith isLowerLetter s.
Proof. destruct s as [ | c r]; [reflexivity | apply letter_notWhiteSpace]. Qed.

(** After the non-letters are replaced by spaces, the words between the
    white space are the runs of letters. *)
Lemma runs_replace (s : string) :
  runs notWhiteSpace (replace_non_letters s) = runs isLowerLetter s.
Proof.
  induction s as [ | c r IH]; [reflexivity | ].
  cbn [replace_non_letters runs].
  rewrite letter_notWhiteSpace, startsWith_replace, IH.
  destruct (isLowerLetter c); reflexivity.
Qed.

Lemma vowelRuns_runs (s : string) : vowelRuns s = runs isVowel s.
Proof.
  induction s as [ | c r IH]; [reflexivity | ].
  cbn [vowelRuns runs]. rewrite IH.
  destruct r; reflexivity.
Qed.

Lemma syllablesOfWord_spec (word : string) :
  syllablesOfWord word = syllables_spec word.
Proof.
  unfold syllablesOfWord, syllables_spec, match_vowels.
  rewrite vowelRuns_runs.
  destruct (String.length word <=? 3); [reflexivity | ].
  destruct (runs isVowel word); reflexivity.
Qed.

Lemma fold_sum (f : string -> nat) (l : list string) (acc : nat) :
  fold_left (fun a w => a + f w) l acc = acc + list_sum (map f l).
Proof.
  revert acc. induction l as [ | x l IH]; intros acc; cbn [fold_left map].
  - cbn. lia.
  - rewrite IH.
    change (list_sum (f x :: map f l)) with (f x + list_sum (map f l)).
    lia.
Qed.

Lemma countSyllables_spec (text : string) :
  countSyllables text = syllableCount_spec text.
Proof.
  unfold countSyllables, syllableCount_spec, letterWords, split_class.
  rewrite split_class_runs.
  change (fun c => negb (isWhiteSpace c)) with notWhiteSpace.
  rewrite runs_replace, fold_sum.
  cbn [Nat.add]. f_equal. apply map_ext, syllablesOfWord_spec.
Qed.

(** Rounding and then clamping is clamping and then rounding. *)
Lemma clamp_round (x : Q) :
  Z.max 0 (Z.min 100 (Math_round x)) = Math_round (clamp x).
Proof.
  unfold clamp, Math_round.
  pose proof (Qfloor_le (x + (1 # 2))) as F1.
  pose proof (Qlt_floor (x + (1 # 2))) as F2.
  rewrite inject_Z_plus in F2. change (inject_Z 1) with 1%Q in F2.
  destruct (Qle_bool x 0) eqn:L0.
  - apply Qle_bool_iff in L0.
    assert (K : (Qfloor (x + (1 # 2)) < 1)%Z).
    { rewrite Zlt_Qlt. change (inject_Z 1) with 1%Q. lra. }
    change (Qfloor (0 + (1 # 2))) with 0%Z. lia.
  - destruct (Qle_bool 100 x) eqn:L1.
    + apply Qle_bool_iff in L1.
      assert (K : (100 <= Qfloor (x + (1 # 2)))%Z).
      { rewrite <- (Qfloor_Z 100). apply Qfloor_resp_le.
        assert (inject_Z 100 == 100)%Q by reflexivity. lra. }
      change (Qfloor (100 + (1 # 2))) with 100%Z. lia.
    + assert (A : (0 < x)%Q).
      { apply Qnot_le_lt. intros H. apply Qle_bool_iff in H. congruence. }
      assert (B : (x < 100)%Q).
      { apply Qnot_le_lt. intros H. apply Qle_bool_iff in H. congruence. }
      assert (K0 : (0 <= Qfloor (x + (1 # 2)))%Z).
      { rewrite <- (Qfloor_Z 0). apply Qfloor_resp_le.
        change (inject_Z 0) with 0%Q. lra. }
      assert (K1 : (Qfloor (x + (1 # 2)) < 101)%Z).
      { rewrite Zlt_Qlt. assert (inject_Z 101 == 101)%Q by reflexivity. lra. }
      lia.
Qed.

(** C4, as the specification words it, fails in two ways.  The syllables
    are counted on the runs of letters, not on the words: the three words
    of the first text have one run of vowels each, which gives a score
    above 100, and the code counts two syllables for each of them (the
    letters before and after the apostrophe are two words to it) and
    returns 35.  And the expression is evaluated in binary64: on a text of
    520 words, 14 sentences and 637 syllables its exact value is 65.5,
    which rounds to 66, and the code computes 65.49999999999999 and
    returns 65. *)
Lemma readability_counterexample :
  (calculateReadability "don't don't don't." = 35%Z /\
   readability_claimed "don't don't don't." = 100%Z /\
   countSyllables "don't don't don't." = 6 /\
   syllableCount_claimed "don't don't don't." = 3) /\
  (List.length (words_spec Scenario.halfPointText) = 520 /\
   List.length (sentences_spec Scenario.halfPointText) = 14 /\
   syllableCount_spec Scenario.halfPointText = 637 /\
   (flesch_spec 520 14 637 == 131 # 2)%Q /\
   readability_spec Scenario.halfPointText = 66%Z /\
   readability_claimed Scenario.halfPointText = 66%Z /\
   calculateReadability Scenario.halfPointText = 65%Z).
Proof. repeat split; vm_compute; reflexivity. Qed.

(** C4, amended.  The readability score is the Flesch expression
    [206.835 - 1.015 * (words / sentences) - 84.6 * (syllables / words)],
    evaluated in binary64, clamped to the interval from 0 to 100 and
    rounded to the nearest integer, where the sentences are the pieces
    between the runs of [.], [!], [?] that are not blank, the words are
    the pieces between the runs of white space, and the syllables are
    counted on the maximal runs of the letters a to z of the lowercased
    text (any other character separates two of them): 1 for a run of at
    most three letters, else the number of its runs of the vowels
    a, e, i, o, u, y, and 1 at least.  The score is within 1/2 + 2^-40 of
    the exact value of the expression clamped to that interval, and it is
    that value rounded to the nearest integer, a half going up, whenever
    the value is 2^-40 away from the half-integers.  Without a sentence or
    without a word the score is 0; the empty text scores 0. *)
Theorem calculateReadability_spec :
  forall text : string,
    let words := List.length (words_spec text) in
    let sentences := List.length (sentences_spec text) in
    let syllables := syllableCount_spec text in
    let exact := clamp (flesch_spec words sentences syllables) in
    sentencesOf text = sentences_spec text /\
    wordsOf text = words_spec text /\
    countSyllables text = syllableCount_spec text /\
    (sentences <> 0 -> words <> 0 ->
     (inject_Z (calculateReadability text) - (1 # 2) - tieMargin <= exact)%Q /\
     (exact <= inject_Z (calculateReadability text) + (1 # 2) + tieMargin)%Q) /\
    (clearOfTies exact = true ->
     calculateReadability text = readability_spec text) /\
    (0 <= calculateReadability text <= 100)%Z /\
    (sentences_spec text = [] \/ words_spec text = [] ->
     calculateReadability text = 0%Z) /\
    calculateReadability EmptyString = 0%Z.
Proof.
  intros text words sentences syllables exact.
  pose proof (sentencesOf_spec text) as S.
  pose proof (wordsOf_spec text) as W.
  pose proof (countSyllables_spec text) as Y.
  assert (E : calculateReadability text =
              if (sentences =? 0) || (words =? 0) then 0%Z
              else Math_round (clamp (fleschScore words sentences syllables))).
  { unfold calculateReadability. rewrite S, W, Y. fold sentences words syllables.
    destruct ((sentences =? 0) || (words =? 0)); [reflexivity | ].
    apply clamp_round. }
  split; [exact S | ]. split; [exact W | ]. split; [exact Y | ].
  split; [ | split; [ | split; [ | split]]].
  - intros Ns Nw. rewrite E.
    destruct (Nat.eqb_spec sentences 0) as [Z0 | _]; [contradiction | ].
    destruct (Nat.eqb_spec words 0) as [Z0 | _]; [contradiction | ].
    cbn [orb].
    destruct (clamp_close words sentences syllables Nw Ns) as [C1 C2].
    fold exact in C1, C2.
    set (c := clamp (fleschScore words sentences syllables)) in *. clearbody c.
    unfold Math_round.
    pose proof (Qfloor_le (c + (1 # 2))) as F1.
    pose proof (Qlt_floor (c + (1 # 2))) as F2.
    rewrite inject_Z_plus in F2. change (inject_Z 1) with 1%Q in F2.
    change (1 # 2 ^ 41)%Q with (1 # 2199023255552)%Q in C1, C2.
    change tieMargin with (1 # 1099511627776)%Q.
    split; lra.
  - intros T. unfold readability_spec, readabilityOf.
    fold words sentences syllables. rewrite E.
    destruct ((sentences =? 0) || (words =? 0)) eqn:Z0; [reflexivity | ].
    apply orb_false_iff in Z0. destruct Z0 as [Zs Zw].
    apply Nat.eqb_neq in Zs, Zw.
    destruct (clamp_close words sentences syllables Zw Zs) as [C1 C2].
    fold exact in C1, C2 |- *.
    unfold clearOfTies in T. apply andb_prop in T. destruct T as [T1 T2].
    apply Qle_bool_iff in T1, T2.
    set (c := clamp (fleschScore words sentences syllables)) in *. clearbody c.
    set (j := roundHalfUp exact) in *. clearbody j.
    change (1 # 2 ^ 41)%Q with (1 # 2199023255552)%Q in C1, C2.
    change tieMargin with (1 # 1099511627776)%Q in T1, T2.
    unfold Math_round. apply Qfloor_unique; lra.
  - rewrite E. destruct ((sentences =? 0) || (words =? 0)); [lia | ].
    rewrite <- clamp_round. lia.
  - rewrite E. subst sentences words.
    intros [H | H]; rewrite H; cbn [List.length Nat.eqb orb]; [reflexivity | ].
    rewrite orb_true_r. reflexivity.
  - reflexivity.
Qed.

(** An instance of C4: a text of sentence ends only has no sentence, and
    a text of two words in one sentence, whose exact value is clear of
    the ties. *)
Lemma calculateReadability_witness :
  (sentences_spec "..." = [] \/ words_spec "..." = []) /\
  calculateReadability "..." = 0%Z /\
  clearOfTies
    (clamp (flesch_spec (List.length (words_spec "Cat sat."))
                        (List.length (sentences_spec "Cat sat."))
                        (syllableCount_spec "Cat sat."))) = true /\
  calculateReadability "Cat sat." = readability_spec "Cat sat.".
Proof.
  assert (S : sentences_spec "..." = [] \/ words_spec "..." = [])
    by (left; reflexivity).
  assert (T : clearOfTies
                (clamp (flesch_spec (List.length (words_spec "Cat sat."))
                                    (List.length (sentences_spec "Cat sat."))
                                    (syllableCount_spec "Cat sat."))) = true)
    by (vm_compute; reflexivity).
  destruct (calculateReadability_spec "...") as (_ & _ & _ & _ & _ & _ & Z0 & _).
  destruct (calculateReadability_spec "Cat sat.") as (_ & _ & _ & _ & E & _).
  exact (conj S (conj (Z0 S) (conj T (E T)))).
Defined.

End ReadabilityFacts.

(** * Further properties of the code *)

(** ** Text *)

Module TextFacts.
Import JS Spec Observations JSFacts.
Local Open Scope nat_scope.
Local Open Scope string_scope.

Lemma lowerUnit_idem (c : ascii) : lowerUnit (lowerUnit c) = lowerUnit c.
Proof.
  destruct c as [[ | ] [ | ] [ | ] [ | ] [ | ] [ | ] [ | ] [ | ]]; reflexivity.
Qed.

Lemma toLowerCase_idem (s : string) : toLowerCase (toLowerCase s) = toLowerCase s.
Proof.
  induction s as [ | c r IH]; [reflexivity | ].
  cbn [toLowerCase]. rewrite lowerUnit_idem, IH. reflexivity.
Qed.

Lemma toLowerCase_app (a b : string) :
  toLowerCase (a ++ b) = toLowerCase a ++ toLowerCase b.
Proof. induction a as [ | c r IH]; cbn; congruence. Qed.

Lemma isWhiteSpace_lower (c : ascii) : isWhiteSpace (lowerUnit c) = isWhiteSpace c.
Proof.
  destruct c as [[ | ] [ | ] [ | ] [ | ] [ | ] [ | ] [ | ] [ | ]]; reflexivity.
Qed.

Lemma isSentenceEnd_lower (c : ascii) : isSentenceEnd (lowerUnit c) = isSentenceEnd c.
Proof.
  destruct c as [[ | ] [ | ] [ | ] [ | ] [ | ] [ | ] [ | ] [ | ]]; reflexivity.
Qed.

Lemma LF_lower (c : ascii) : Ascii.eqb (lowerUnit c) LF = Ascii.eqb c LF.
Proof.
  destruct c as [[ | ] [ | ] [ | ] [ | ] [ | ] [ | ] [ | ] [ | ]]; reflexivity.
Qed.

Lemma prefix_split (p s : string) :
  String.prefix p s = true -> exists b, s = p ++ b.
Proof.
  revert s. induction p as [ | c p IH]; intros s H.
  - exists s. reflexivity.
  - destruct s as [ | d s]; [discriminate H | ].
    cbn in H. destruct (ascii_dec c d) as [<- | N]; [ | discriminate H].
    destruct (IH s H) as [b ->]. exists b. reflexivity.
Qed.

(** A string includes another one exactly when it is that one between
    two strings. *)
Lemma includes_split (s sub : string) :
  includes s sub = true <-> exists a b, s = a ++ sub ++ b.
Proof.
  split.
  - induction s as [ | c r IH]; cbn [includes]; intros H.
    + rewrite orb_false_r in H. destruct (prefix_split _ _ H) as [b E].
      exists EmptyString, b. exact E.
    + apply orb_prop in H. destruct H as [H | H].
      * destruct (prefix_split _ _ H) as [b E]. exists EmptyString, b. exact E.
      * destruct (IH H) as (a & b & ->). exists (String c a), b. reflexivity.
  - intros (a & b & ->). apply includes_app.
Qed.

Lemma includes_extend (a b sub : string) :
  includes a sub = true -> includes (a ++ b) sub = true.
Proof.
  intros H. apply includes_split in H. destruct H as (x & y & ->).
  apply includes_split. exists x, (y ++ b).
  rewrite !append_assoc3. reflexivity.
Qed.

Lemma includes_allChars (p : ascii -> bool) (w sub : string) :
  includes w sub = true -> allChars p w = true -> allChars p sub = true.
Proof.
  intros H A. apply includes_split in H. destruct H as (x & y & ->).
  rewrite !allChars_app in A.
  apply andb_prop in A. destruct A as [_ A].
  apply andb_prop in A. tauto.
Qed.

Lemma allChars_lower (p : ascii -> bool) (s : string) :
  (forall c, p (lowerUnit c) = p c) ->
  allChars p (toLowerCase s) = allChars p s.
Proof.
  intros H. induction s as [ | c r IH]; [reflexivity | ].
  cbn. rewrite H, IH. reflexivity.
Qed.

Lemma startsWith_runs (p : ascii -> bool) (s : string) :
  startsWith p s = true -> exists h t, runs p s = h :: t.
Proof.
  destruct s as [ | c r]; [discriminate | ].
  cbn [startsWith runs]. intros ->.
  destruct (startsWith p r).
  - destruct (runs p r); cbn [consHead]; eexists _, _; reflexivity.
  - eexists _, _. reflexivity.
Qed.

(** The runs of a text are the runs of what precedes a separator
    followed by the runs of what follows it. *)
Lemma runs_app_sep (p : ascii -> bool) (a b : string) (c : ascii) :
  p c = false -> runs p (a ++ String c b) = (runs p a ++ runs p b)%list.
Proof.
  intros Hc. induction a as [ | x a IH].
  - cbn. rewrite Hc. reflexivity.
  - cbn [String.append runs]. rewrite IH.
    assert (S : startsWith p (a ++ String c b) = startsWith p a).
    { destruct a; cbn; [exact Hc | reflexivity]. }
    rewrite S.
    destruct (p x); [ | reflexivity].
    destruct (startsWith p a) eqn:Sa; [ | reflexivity].
    destruct (startsWith_runs p a Sa) as (h & t & E). rewrite E. reflexivity.
Qed.

(** Every run satisfies the test of its characters and is not empty. *)
Lemma runs_allChars (p : ascii -> bool) (s : string) :
  Forall (fun w => allChars p w = true /\ w <> EmptyString) (runs p s).
Proof.
  induction s as [ | c r IH]; [constructor | ].
  cbn [runs]. destruct (p c) eqn:Pc; [ | exact IH].
  destruct (startsWith p r).
  - destruct (runs p r) as [ | h t]; cbn [consHead].
    + constructor; [ | constructor]. cbn. rewrite Pc. split; [reflexivity | discriminate].
    + inversion IH as [ | ? ? [Hh _] Ht]; subst.
      constructor; [ | exact Ht]. cbn. rewrite Pc, Hh. split; [reflexivity | discriminate].
  - constructor; [ | exact IH]. cbn. rewrite Pc. split; [reflexivity | discriminate].
Qed.

(** Lowering the case maps the runs of a class that it respects. *)
Lemma runs_lower (p : ascii -> bool) (s : string) :
  (forall c, p (lowerUnit c) = p c) ->
  runs p (toLowerCase s) = map toLowerCase (runs p s).
Proof.
  intros H. induction s as [ | c r IH]; [reflexivity | ].
  cbn [toLowerCase runs]. rewrite H, IH.
  assert (S : startsWith p (toLowerCase r) = startsWith p r).
  { destruct r; cbn; [reflexivity | apply H]. }
  rewrite S.
  destruct (p c); [ | reflexivity].
  destruct (startsWith p r); [ | reflexivity].
  destruct (runs p r); reflexivity.
Qed.

(** The characters of the runs are characters of the text. *)
Lemma runs_length (p : ascii -> bool) (s : string) :
  list_sum (map String.length (runs p s)) <= String.length s /\
  List.length (runs p s) <= String.length s.
Proof.
  assert (C : forall (n : nat) (l : list nat), list_sum (n :: l) = n + list_sum l)
    by reflexivity.
  induction s as [ | c r [IH1 IH2]]; [split; cbn; lia | ].
  cbn [runs String.length].
  destruct (p c); [ | split; lia].
  destruct (startsWith p r).
  - destruct (runs p r) as [ | h t]; cbn [consHead map List.length] in *;
      rewrite ?C in *; cbn [String.length] in *; split; lia.
  - cbn [map List.length]. rewrite C. cbn [String.length]. split; lia.
Qed.

End TextFacts.

(** ** Keyword density, further *)

Module DensityMore.
Import JS Number Optimizer Spec Observations JSFacts NumberFacts DensityFacts TextFacts.
Local Open Scope nat_scope.

(** The density in terms of the two counts. *)
Lemma density_of_counts (content keyword : string) :
  calculateKeywordDensity content keyword =
  if List.length (tokens content) =? 0 then 0%Q
  else
    div (inject_Z
           (Math_round
              (mul (mul (div (of_nat (matchCount content keyword))
                             (of_nat (List.length (tokens content)))) 100) 100)))
        100.
Proof. reflexivity. Qed.

Lemma matchCount_le (content keyword : string) :
  matchCount content keyword <= List.length (tokens content).
Proof. apply filter_length_le. Qed.

Lemma filter_none {A : Type} (f : A -> bool) (l : list A) :
  Forall (fun x => f x = false) l -> filter f l = [].
Proof.
  induction 1 as [ | x l Hx _ IH]; [reflexivity | ].
  cbn. rewrite Hx. exact IH.
Qed.

Lemma notWhiteSpace_lower (c : ascii) :
  notWhiteSpace (lowerUnit c) = notWhiteSpace c.
Proof. unfold notWhiteSpace. rewrite isWhiteSpace_lower. reflexivity. Qed.

(** No token holds a keyword that has a white space in it. *)
Lemma matchCount_white_space (content keyword : string) :
  allChars notWhiteSpace keyword = false -> matchCount content keyword = 0.
Proof.
  intros H. unfold matchCount. rewrite tokens_are_runs. unfold tokens_spec.
  rewrite filter_none; [reflexivity | ].
  pose proof (runs_allChars notWhiteSpace (toLowerCase content)) as F.
  apply Forall_impl with (2 := F). intros w [A _].
  destruct (includes w (toLowerCase keyword)) eqn:I; [exfalso | reflexivity].
  pose proof (includes_allChars notWhiteSpace _ _ I A) as K.
  rewrite (allChars_lower notWhiteSpace keyword notWhiteSpace_lower) in K.
  congruence.
Qed.

Lemma density_no_match (content keyword : string) :
  matchCount content keyword = 0 -> calculateKeywordDensity content keyword = 0%Q.
Proof.
  intros H. rewrite density_of_counts, H.
  destruct (List.length (tokens content) =? 0) eqn:E; [reflexivity | ].
  apply Nat.eqb_neq in E.
  assert (Z0 : div (of_nat 0) (of_nat (List.length (tokens content))) = 0%Q).
  { unfold div. apply fl_zero.
    pose proof (of_nat_pos _ E). unfold of_nat at 1. cbn [Z.of_nat].
    change (inject_Z 0) with 0%Q. field. lra. }
  rewrite Z0. reflexivity.
Qed.

(** X2. A keyword that holds a white space (a keyword of several words)
    matches no token: whatever the content, the density is 0 and the
    keywordDensity check fails. *)
Theorem keyword_of_several_words :
  forall content keyword : string,
    allChars notWhiteSpace keyword = false ->
    matchCount content keyword = 0 /\
    calculateKeywordDensity content keyword = 0%Q /\
    checkKeywordDensity content keyword = false.
Proof.
  intros content keyword H.
  pose proof (matchCount_white_space content keyword H) as M.
  pose proof (density_no_match content keyword M) as D.
  split; [exact M | split; [exact D | ]].
  unfold checkKeywordDensity. rewrite D. reflexivity.
Qed.

(** An instance of X2: the keyword of two words occurs in the content and
    still has density 0. *)
Lemma keyword_of_several_words_witness :
  allChars notWhiteSpace "learn more" = false /\
  includes (toLowerCase Scenario.sampleContent) "learn more" = true /\
  calculateKeywordDensity Scenario.sampleContent "learn more" = 0%Q.
Proof.
  assert (H : allChars notWhiteSpace "learn more" = false) by reflexivity.
  destruct (keyword_of_several_words Scenario.sampleContent "learn more" H)
    as (_ & D & _).
  refine (conj H (conj _ D)). vm_compute. reflexivity.
Defined.

Local Open Scope Q_scope.

(** The density of a content with tokens is the rounding of [k / 100]
    for an integer [k] nearest to [10000 * matches / total]. *)
Lemma density_nearest (content keyword : string) :
  let n := Z.of_nat (List.length (tokens content)) in
  let m := Z.of_nat (matchCount content keyword) in
  (0 < n <= 2 ^ 32)%Z ->
  exists k : Z,
    calculateKeywordDensity content keyword = div (inject_Z k) 100 /\
    (0 <= k <= 10000)%Z /\
    (2 * k * n <= 20000 * m + n)%Z /\ (20000 * m <= 2 * k * n + n)%Z.
Proof.
  intros n m [N0 N32].
  pose proof (matchCount_le content keyword) as ML.
  rewrite density_of_counts.
  destruct (Nat.eqb_spec (List.length (tokens content)) 0) as [E | NE];
    [unfold n in N0; rewrite E in N0; cbn in N0; lia | ].
  set (q := of_nat (matchCount content keyword) / of_nat (List.length (tokens content))).
  assert (Tp : 0 < of_nat (List.length (tokens content))) by (apply of_nat_pos; exact NE).
  assert (Mp : 0 <= of_nat (matchCount content keyword)).
  { unfold of_nat. change 0 with (inject_Z 0). rewrite <- Zle_Qle. lia. }
  assert (Mt : of_nat (matchCount content keyword) <= of_nat (List.length (tokens content))).
  { unfold of_nat. rewrite <- Zle_Qle. lia. }
  assert (Qm : q * of_nat (List.length (tokens content)) == of_nat (matchCount content keyword))
    by (unfold q; field; lra).
  assert (Q0 : 0 <= q) by nra.
  assert (Q1 : q <= 1) by nra.
  destruct (scale_chain q Q0 Q1) as (C0 & C1 & Cu & Cl).
  pose (d3 := mul (mul (div (of_nat (matchCount content keyword))
                            (of_nat (List.length (tokens content)))) 100) 100).
  change (mul (mul (fl q) 100) 100) with d3 in C0, C1, Cu, Cl.
  fold d3. clearbody d3.
  assert (EM : inject_Z (10000 * m) / inject_Z n == 10000 * q).
  { unfold q, of_nat, m, n. rewrite inject_Z_mult.
    assert (inject_Z 10000 == 10000) by reflexivity.
    unfold of_nat in Tp. field. lra. }
  destruct (nearest_integer (10000 * m) n d3) as [Nu Nl].
  { unfold n. lia. }
  { rewrite EM. exact Cu. }
  { rewrite EM. exact Cl. }
  assert (K0 : (0 <= Math_round d3)%Z).
  { unfold Math_round. rewrite <- (Qfloor_Z 0). apply Qfloor_resp_le.
    change (inject_Z 0) with 0. lra. }
  assert (K1 : (Math_round d3 <= 10000)%Z).
  { unfold Math_round. pose proof (Qfloor_le (d3 + (1 # 2))) as F.
    assert (L : (Qfloor (d3 + (1 # 2)) < 10001)%Z).
    { rewrite Zlt_Qlt. assert (inject_Z 10001 == 10001) by reflexivity. lra. }
    lia. }
  exists (Math_round d3). split; [reflexivity | split; [lia | ]].
  assert (Np : 0 < inject_Z n).
  { change 0 with (inject_Z 0). rewrite <- Zlt_Qlt. exact N0. }
  assert (V : inject_Z (10000 * m) / inject_Z n * inject_Z n == inject_Z (10000 * m)).
  { field. lra. }
  set (v := inject_Z (10000 * m) / inject_Z n) in *.
  set (k := Math_round d3) in *.
  split.
  - rewrite Zle_Qle. rewrite inject_Z_plus, !inject_Z_mult.
    rewrite inject_Z_mult in V.
    change (inject_Z 2) with 2. change (inject_Z 20000) with (2 * inject_Z 10000).
    nra.
  - rewrite Zle_Qle. rewrite inject_Z_plus, !inject_Z_mult.
    rewrite inject_Z_mult in V.
    change (inject_Z 2) with 2. change (inject_Z 20000) with (2 * inject_Z 10000).
    nra.
Qed.

(** Where the rounding of [k / 100] stands with respect to 1 and to 3. *)
Lemma hundredths_in_range (k : Z) :
  (0 <= k)%Z ->
  (geb (div (inject_Z k) 100) 1 && leb (div (inject_Z k) 100) 3 = true <->
   (100 <= k <= 300)%Z).
Proof.
  intros K0. unfold geb, leb, div.
  assert (P : 0 <= inject_Z k).
  { change 0 with (inject_Z 0). rewrite <- Zle_Qle. exact K0. }
  assert (H100 : inject_Z 100 == 100) by reflexivity.
  split.
  - intros H. apply andb_prop in H. destruct H as [H1 H3].
    apply Qle_bool_iff in H1. apply Qle_bool_iff in H3.
    split.
    + destruct (Z_le_gt_dec 100 k) as [L | G]; [exact L | exfalso].
      assert (B : inject_Z k <= 99).
      { assert (E : 99 == inject_Z 99) by reflexivity.
        rewrite E, <- Zle_Qle. lia. }
      assert (M : fl (inject_Z k / 100) <= fl (99 # 100)).
      { apply fl_mono; [apply Qle_shift_div_l; lra | ].
        apply Qle_shift_div_r; [reflexivity | ].
        assert ((99 # 100) * 100 == 99) by reflexivity. lra. }
      assert (S : fl (99 # 100) < 1) by reflexivity.
      lra.
    + destruct (Z_le_gt_dec k 300) as [L | G]; [exact L | exfalso].
      assert (B : 301 <= inject_Z k).
      { assert (E : 301 == inject_Z 301) by reflexivity.
        rewrite E, <- Zle_Qle. lia. }
      assert (M : fl (301 # 100) <= fl (inject_Z k / 100)).
      { apply fl_mono; [discriminate | ].
        apply Qle_shift_div_l; [reflexivity | ].
        assert ((301 # 100) * 100 == 301) by reflexivity. lra. }
      assert (S : 3 < fl (301 # 100)) by reflexivity.
      lra.
  - intros [L U].
    assert (B1 : 100 <= inject_Z k) by (rewrite <- H100, <- Zle_Qle; exact L).
    assert (B3 : inject_Z k <= 300).
    { assert (E : 300 == inject_Z 300) by reflexivity.
      rewrite E, <- Zle_Qle. exact U. }
    apply andb_true_intro. split; apply Qle_bool_iff.
    + assert (M : fl 1 <= fl (inject_Z k / 100)).
      { apply fl_mono; [discriminate | ]. apply Qle_shift_div_l; lra. }
      exact M.
    + apply fl_le; [ | | reflexivity].
      * apply Qle_shift_div_l; lra.
      * apply Qle_shift_div_r; lra.
Qed.

(** X3. For a content of at most 2^32 tokens (the bound of an array), the
    keywordDensity check passes whenever the exact percentage of matching
    tokens lies between 1 and 3, and passes only when it lies between
    0.995 and 3.005: the binary64 arithmetic moves the thresholds by half
    a hundredth at most. *)
Theorem density_check_thresholds :
  forall content keyword : string,
    let n := Z.of_nat (List.length (tokens content)) in
    let m := Z.of_nat (matchCount content keyword) in
    (0 < n <= 2 ^ 32)%Z ->
    ((n <= 100 * m <= 3 * n)%Z -> checkKeywordDensity content keyword = true) /\
    (checkKeywordDensity content keyword = true ->
     (199 * n <= 20000 * m <= 601 * n)%Z).
Proof.
  intros content keyword n m B.
  destruct (density_nearest content keyword B) as (k & E & [K0 K1] & Ku & Kl).
  fold n m in Ku, Kl.
  unfold checkKeywordDensity, TARGET_KEYWORD_DENSITY_min, TARGET_KEYWORD_DENSITY_max.
  rewrite E.
  pose proof (hundredths_in_range k K0) as R.
  split.
  - intros [L U]. apply R. split; nia.
  - intros H. apply R in H. destruct H as [L U]. split; nia.
Qed.

(** An instance of X3: one matching token out of fifty. *)
Lemma density_check_thresholds_witness :
  (0 < Z.of_nat (List.length (tokens Scenario.sampleContent)) <= 2 ^ 32)%Z /\
  checkKeywordDensity Scenario.sampleContent "seo" = true.
Proof.
  assert (B : (0 < Z.of_nat (List.length (tokens Scenario.sampleContent)) <= 2 ^ 32)%Z)
    by (vm_compute; split; [reflexivity | discriminate]).
  destruct (density_check_thresholds Scenario.sampleContent "seo" B) as [P _].
  refine (conj B (P _)). vm_compute. split; discriminate.
Defined.

End DensityMore.

(** ** Density, monotone *)

Module DensityOrder.
Import JS Number Optimizer Spec Observations JSFacts NumberFacts DensityFacts
       TextFacts DensityMore.
Local Open Scope nat_scope.

Lemma Math_round_mono (x y : Q) : (x <= y)%Q -> (Math_round x <= Math_round y)%Z.
Proof. intros H. apply Qfloor_resp_le. lra. Qed.

(** X4. Among the contents of one number of tokens the density grows
    with the number of matching tokens: it is 0 without a match, 100 when
    every token matches, and never smaller for more matches. *)
Theorem density_grows_with_matches :
  forall (a b keyword keyword' : string),
    List.length (tokens a) = List.length (tokens b) ->
    matchCount a keyword <= matchCount b keyword' ->
    (calculateKeywordDensity a keyword <= calculateKeywordDensity b keyword')%Q /\
    (matchCount a keyword = 0 -> calculateKeywordDensity a keyword = 0%Q) /\
    (matchCount b keyword' = List.length (tokens b) -> tokens b <> [] ->
     calculateKeywordDensity b keyword' = 100%Q).
Proof.
  intros a b k k' EN LM.
  split; [ | split].
  - rewrite !density_of_counts, <- EN.
    destruct (Nat.eqb_spec (List.length (tokens a)) 0) as [Z0 | NZ];
      [apply Qle_refl | ].
    pose proof (of_nat_pos _ NZ) as Tp.
    set (n := of_nat (List.length (tokens a))) in *.
    assert (M0 : (0 <= of_nat (matchCount a k))%Q).
    { unfold of_nat. change 0%Q with (inject_Z 0). rewrite <- Zle_Qle. lia. }
    assert (MM : (of_nat (matchCount a k) <= of_nat (matchCount b k'))%Q).
    { unfold of_nat. rewrite <- Zle_Qle. lia. }
    assert (Q0 : (0 <= of_nat (matchCount a k) / n)%Q)
      by (apply Qle_shift_div_l; lra).
    assert (QQ : (of_nat (matchCount a k) / n <= of_nat (matchCount b k') / n)%Q).
    { apply Qmult_le_compat_r; [exact MM | ].
      apply Qlt_le_weak, Qinv_lt_0_compat, Tp. }
    unfold div, mul.
    pose proof (fl_nonneg _ Q0) as D1.
    pose proof (fl_mono _ _ Q0 QQ) as M1.
    set (x1 := fl (of_nat (matchCount a k) / n)) in *.
    set (y1 := fl (of_nat (matchCount b k') / n)) in *.
    assert (D2 : (0 <= fl (x1 * 100))%Q) by (apply fl_nonneg; lra).
    assert (M2 : (fl (x1 * 100) <= fl (y1 * 100))%Q) by (apply fl_mono; lra).
    set (x2 := fl (x1 * 100)) in *. set (y2 := fl (y1 * 100)) in *.
    assert (D3 : (0 <= fl (x2 * 100))%Q) by (apply fl_nonneg; lra).
    assert (M3 : (fl (x2 * 100) <= fl (y2 * 100))%Q) by (apply fl_mono; lra).
    set (x3 := fl (x2 * 100)) in *. set (y3 := fl (y2 * 100)) in *.
    pose proof (Math_round_mono _ _ M3) as MR.
    assert (R0 : (0 <= Math_round x3)%Z).
    { unfold Math_round. rewrite <- (Qfloor_Z 0). apply Qfloor_resp_le.
      change (inject_Z 0) with 0%Q. lra. }
    rewrite Zle_Qle in MR, R0. change (inject_Z 0) with 0%Q in R0.
    apply fl_mono.
    + apply Qle_shift_div_l; lra.
    + apply Qmult_le_compat_r; [exact MR | discriminate].
  - apply density_no_match.
  - intros EA NE. rewrite density_of_counts, EA.
    assert (NZ : List.length (tokens b) <> 0).
    { destruct (tokens b); [congruence | discriminate]. }
    destruct (Nat.eqb_spec (List.length (tokens b)) 0) as [Z0 | _]; [contradiction | ].
    rewrite (div_same _ NZ). reflexivity.
Qed.

(** An instance of X4. *)
Lemma density_grows_witness :
  List.length (tokens "seo tips and tricks") = List.length (tokens "seo tips for seo") /\
  matchCount "seo tips and tricks" "seo" <= matchCount "seo tips for seo" "SEO" /\
  (calculateKeywordDensity "seo tips and tricks" "seo" <=
   calculateKeywordDensity "seo tips for seo" "SEO")%Q.
Proof.
  assert (E : List.length (tokens "seo tips and tricks") =
              List.length (tokens "seo tips for seo")) by reflexivity.
  assert (L : matchCount "seo tips and tricks" "seo" <=
              matchCount "seo tips for seo" "SEO") by (vm_compute; lia).
  exact (conj E (conj L
           (proj1 (density_grows_with_matches _ _ _ _ E L)))).
Defined.

End DensityOrder.

(** ** Headings, further *)

Module HeadingMore.
Import Optimizer Spec HeadingFacts.
Local Open Scope nat_scope.

(** A walk that succeeds goes down by one level at a time at most: the
    levels between the start and a heading have all been met before it,
    and no heading is deeper than its position allows. *)
Lemma walk_levels (hs : list Heading) (prev : Z) :
  walkHeadings prev hs <> None ->
  forall i h, nth_error hs i = Some h ->
    (level h <= prev + Z.of_nat i + 1)%Z /\
    (forall l : Z, (prev < l < level h)%Z ->
       exists j h', j < i /\ nth_error hs j = Some h' /\ level h' = l).
Proof.
  revert prev. induction hs as [ | a hs IH]; intros prev W i h E.
  - destruct i; discriminate E.
  - cbn [walkHeadings] in W.
    destruct (Z.gtb_spec (level a) (prev + 1)) as [G | L]; [congruence | ].
    destruct i as [ | i].
    + injection E as <-. split; [lia | ]. intros l B. lia.
    + cbn [nth_error] in E.
      destruct (IH (level a) W i h E) as [D P].
      split; [lia | ].
      intros l B.
      destruct (Z.eq_dec l (level a)) as [-> | N].
      * exists 0, a. split; [lia | split; reflexivity].
      * destruct (P l ltac:(lia)) as (j & h' & Lj & Ej & El).
        exists (S j), h'. split; [lia | split; assumption].
Qed.

(** X5. In a heading structure that [validateHeadingStructure] accepts,
    the heading of index [i] is of level [i + 2] at most (the first one
    of level 2 at most), and every heading of level 3 or more comes after
    a heading of the level just above it. *)
Theorem valid_structure_has_parents :
  forall hs : list Heading,
    validateHeadingStructure hs = true ->
    forall i h, nth_error hs i = Some h ->
      (level h <= Z.of_nat i + 2)%Z /\
      ((3 <= level h)%Z ->
       exists j h', j < i /\ nth_error hs j = Some h' /\ level h' = (level h - 1)%Z).
Proof.
  intros hs V i h E.
  unfold validateHeadingStructure in V.
  destruct (List.length hs =? 0); [discriminate | ].
  destruct (negb (existsb (fun h => (level h =? 1)%Z) hs)); [discriminate | ].
  assert (W : walkHeadings 1 hs <> None).
  { destruct (walkHeadings 1 hs); [discriminate | discriminate V]. }
  destruct (walk_levels hs 1 W i h E) as [D P].
  split; [lia | ].
  intros L3. apply P. lia.
Qed.

(** An instance of X5: the H3 of the third place comes after an H2. *)
Lemma valid_structure_witness :
  validateHeadingStructure
    [{| level := 1; text := "Guide" |}; {| level := 2; text := "Plan" |};
     {| level := 3; text := "Steps" |}] = true /\
  exists j h',
    j < 2 /\
    nth_error [{| level := 1; text := "Guide" |}; {| level := 2; text := "Plan" |};
               {| level := 3; text := "Steps" |}] j = Some h' /\
    level h' = 2%Z.
Proof.
  assert (V : validateHeadingStructure
                [{| level := 1; text := "Guide" |}; {| level := 2; text := "Plan" |};
                 {| level := 3; text := "Steps" |}] = true) by reflexivity.
  refine (conj V _).
  exact (proj2 (valid_structure_has_parents _ V 2 {| level := 3; text := "Steps" |}
                  eq_refl) ltac:(cbn; lia)).
Defined.

End HeadingMore.

(** ** The analysis, further *)

Module AnalysisMore.
Import JS Number NumberToString Optimizer Spec Observations JSFacts NumberFacts
       DensityFacts TextFacts ScoreFacts AnalyzeFacts KeywordFacts.
Local Open Scope nat_scope.
Local Open Scope string_scope.

Lemma beforeEmptyLines_lower (s : string) :
  beforeEmptyLines (toLowerCase s) = toLowerCase (beforeEmptyLines s).
Proof.
  induction s as [ | c r IH]; [reflexivity | ].
  cbn [toLowerCase beforeEmptyLines].
  assert (S : startsWithLF (toLowerCase r) = startsWithLF r).
  { destruct r; cbn; [reflexivity | apply LF_lower]. }
  rewrite LF_lower, S.
  destruct (Ascii.eqb c LF && startsWithLF r); [reflexivity | ].
  cbn [toLowerCase]. rewrite IH. reflexivity.
Qed.

Lemma toLowerCase_empty (s : string) :
  String.eqb (toLowerCase s) EmptyString = String.eqb s EmptyString.
Proof. destruct s; reflexivity. Qed.

(** Taking the first paragraph and lowering the case commute. *)
Lemma firstParagraphOf_lower (s : string) :
  firstParagraphOf (toLowerCase s) = toLowerCase (firstParagraphOf s).
Proof.
  rewrite !firstParagraphOf_eq, beforeEmptyLines_lower, toLowerCase_empty.
  destruct (String.eqb (beforeEmptyLines s) EmptyString); reflexivity.
Qed.

Lemma firstParagraph_case (c c' k k' : string) :
  sameUpToCase c c' -> sameUpToCase k k' ->
  checkKeywordInFirstParagraph c k = checkKeywordInFirstParagraph c' k'.
Proof.
  unfold sameUpToCase, checkKeywordInFirstParagraph. intros Hc Hk.
  rewrite <- !firstParagraphOf_lower, Hc, Hk. reflexivity.
Qed.

Lemma density_case (c c' k k' : string) :
  sameUpToCase c c' -> sameUpToCase k k' ->
  calculateKeywordDensity c k = calculateKeywordDensity c' k'.
Proof.
  unfold sameUpToCase, calculateKeywordDensity, tokens. intros Hc Hk.
  rewrite Hc, Hk. reflexivity.
Qed.

Lemma inH1_case (hs hs' : list Heading) (k k' : string) :
  sameHeadings hs hs' -> sameUpToCase k k' ->
  existsb (fun h => (level h =? 1)%Z &&
                    includes (toLowerCase (text h)) (toLowerCase k)) hs =
  existsb (fun h => (level h =? 1)%Z &&
                    includes (toLowerCase (text h)) (toLowerCase k')) hs'.
Proof.
  unfold sameUpToCase. intros F Hk.
  induction F as [ | h h' hs hs' [Hl Ht] _ IH]; [reflexivity | ].
  cbn [existsb]. unfold sameUpToCase in Ht. rewrite IH, Hl, Ht, Hk. reflexivity.
Qed.

(** X1. The keyword checks do not look at the case of the letters: two
    artifacts whose content, keyword, title, meta description and heading
    texts are the same up to case get the same density and the same
    outcomes of the keywordDensity, keywordInTitle,
    keywordInMetaDescription, keywordInH1, keywordInFirstParagraph and
    hasCallToAction checks. *)
Theorem keyword_checks_ignore_case :
  forall p q : Params,
    sameUpToCase (content p) (content q) ->
    sameUpToCase (keyword p) (keyword q) ->
    sameUpToCase (title p) (title q) ->
    sameUpToCase (orDefault (metaDescription p) EmptyString)
                 (orDefault (metaDescription q) EmptyString) ->
    sameHeadings (headings p) (headings q) ->
    density (analyzeSEO p) = density (analyzeSEO q) /\
    keywordDensity (checks (analyzeSEO p)) = keywordDensity (checks (analyzeSEO q)) /\
    keywordInTitle (checks (analyzeSEO p)) = keywordInTitle (checks (analyzeSEO q)) /\
    keywordInMetaDescription (checks (analyzeSEO p)) =
      keywordInMetaDescription (checks (analyzeSEO q)) /\
    keywordInH1 (checks (analyzeSEO p)) = keywordInH1 (checks (analyzeSEO q)) /\
    keywordInFirstParagraph (checks (analyzeSEO p)) =
      keywordInFirstParagraph (checks (analyzeSEO q)) /\
    hasCallToAction (checks (analyzeSEO p)) = hasCallToAction (checks (analyzeSEO q)).
Proof.
  intros p q Hc Hk Ht Hm Hh.
  destruct (analyzeSEO_eq p) as (_ & _ & Dp), (analyzeSEO_eq q) as (_ & _ & Dq).
  rewrite Dp, Dq, !checks_eq.
  cbn [keywordDensity keywordInTitle keywordInMetaDescription keywordInH1
       keywordInFirstParagraph hasCallToAction].
  unfold checkKeywordDensity.
  rewrite (density_case _ _ _ _ Hc Hk), (firstParagraph_case _ _ _ _ Hc Hk),
    (inH1_case _ _ _ _ Hh Hk).
  unfold sameUpToCase in Hc, Hk, Ht, Hm. rewrite Hc, Hk, Ht, Hm.
  repeat split; reflexivity.
Qed.

(** An instance of X1: the artifact of the scenarios and the same in
    capital letters. *)
Lemma keyword_checks_ignore_case_witness :
  density (analyzeSEO Scenario.fullScoreArtifact) =
    density (analyzeSEO upperCaseArtifact) /\
  keywordDensity (checks (analyzeSEO Scenario.fullScoreArtifact)) =
    keywordDensity (checks (analyzeSEO upperCaseArtifact)) /\
  keywordInTitle (checks (analyzeSEO Scenario.fullScoreArtifact)) =
    keywordInTitle (checks (analyzeSEO upperCaseArtifact)) /\
  keywordInMetaDescription (checks (analyzeSEO Scenario.fullScoreArtifact)) =
    keywordInMetaDescription (checks (analyzeSEO upperCaseArtifact)) /\
  keywordInH1 (checks (analyzeSEO Scenario.fullScoreArtifact)) =
    keywordInH1 (checks (analyzeSEO upperCaseArtifact)) /\
  keywordInFirstParagraph (checks (analyzeSEO Scenario.fullScoreArtifact)) =
    keywordInFirstParagraph (checks (analyzeSEO upperCaseArtifact)) /\
  hasCallToAction (checks (analyzeSEO Scenario.fullScoreArtifact)) =
    hasCallToAction (checks (analyzeSEO upperCaseArtifact)).
Proof.
  apply (keyword_checks_ignore_case Scenario.fullScoreArtifact upperCaseArtifact).
  - reflexivity.
  - vm_compute. reflexivity.
  - vm_compute. reflexivity.
  - reflexivity.
  - repeat constructor.
Defined.

(** X9. When the keywordInFirstParagraph check passes, the keyword occurs
    in the content. *)
Theorem first_paragraph_is_in_content :
  forall content keyword : string,
    checkKeywordInFirstParagraph content keyword = true ->
    includes (toLowerCase content) (toLowerCase keyword) = true.
Proof.
  intros content keyword H.
  unfold checkKeywordInFirstParagraph in H. rewrite firstParagraphOf_eq in H.
  destruct (String.eqb (beforeEmptyLines content) EmptyString); [exact H | ].
  assert (P : exists rest, content = beforeEmptyLines content ++ rest).
  { clear H. induction content as [ | c r [rest IH]].
    - exists EmptyString. reflexivity.
    - cbn [beforeEmptyLines]. destruct (Ascii.eqb c LF && startsWithLF r).
      + exists (String c r). reflexivity.
      + exists rest. cbn. rewrite <- IH. reflexivity. }
  destruct P as [rest E]. rewrite E at 1.
  rewrite toLowerCase_app. apply includes_extend, H.
Qed.

(** An instance of X9. *)
Lemma first_paragraph_witness :
  checkKeywordInFirstParagraph Scenario.sampleContent "SEO" = true /\
  includes (toLowerCase Scenario.sampleContent) (toLowerCase "SEO") = true.
Proof.
  assert (H : checkKeywordInFirstParagraph Scenario.sampleContent "SEO" = true)
    by (vm_compute; reflexivity).
  exact (conj H (first_paragraph_is_in_content _ _ H)).
Defined.

(** X10. The two image checks: a Markdown image written on one line
    passes both; imageAltTags passes without hasImages only for a content
    that holds the characters [alt=]; and an [img] tag without them and
    without a Markdown image passes hasImages and fails imageAltTags. *)
Theorem image_checks :
  forall p : Params,
    let c := checks (analyzeSEO p) in
    (hasMarkdownImage (content p) -> hasImages c = true /\ imageAltTags c = true) /\
    (imageAltTags c = true -> hasImages c = false ->
     includes (content p) "alt=" = true) /\
    (includes (content p) "<img" = true -> includes (content p) "alt=" = false ->
     includes (content p) "![" = false ->
     hasImages c = true /\ imageAltTags c = false).
Proof.
  intros p c. subst c. rewrite checks_eq. cbn [hasImages imageAltTags].
  split; [ | split].
  - intros M. destruct (match_image_ok _ M) as (l & Ml & Ll).
    destruct M as (pre & alt & url & post & E & _ & _).
    rewrite Ml, Ll, !orb_true_r. split; [ | reflexivity].
    rewrite E. rewrite includes_app. apply orb_true_r.
  - intros A I. apply orb_false_iff in I. destruct I as [_ I].
    unfold match_image in A. rewrite (execImage_none _ I) in A.
    rewrite orb_false_r in A. exact A.
  - intros T A I. rewrite T, A. unfold match_image.
    rewrite (execImage_none _ I). split; reflexivity.
Qed.

(** An instance of X10: the content of the scenarios holds the image
    [![chart](chart.png)] after its first 72 characters. *)
Lemma image_checks_witness :
  hasMarkdownImage Scenario.sampleContent /\
  hasImages (checks (analyzeSEO Scenario.fullScoreArtifact)) = true /\
  imageAltTags (checks (analyzeSEO Scenario.fullScoreArtifact)) = true.
Proof.
  assert (M : hasMarkdownImage Scenario.sampleContent).
  { exists (substring 0 72 Scenario.sampleContent), "chart", "chart.png",
           (substring 91 207 Scenario.sampleContent).
    repeat split; vm_compute; reflexivity. }
  exact (conj M (proj1 (image_checks Scenario.fullScoreArtifact) M)).
Defined.

End AnalysisMore.

(** ** Score and recommendations, further *)

Module RecommendationMore.
Import JS Number NumberToString Optimizer Spec Observations JSFacts ScoreFacts
       AnalyzeFacts.
Local Open Scope nat_scope.

(** The score as a quotient of integers. *)
Lemma score_closed_form (c : SEOChecks) :
  passedCount c <= 16 /\
  calculateSEOScore c = ((100 * Z.of_nat (passedCount c) + 8) / 16)%Z.
Proof.
  assert (L : passedCount c <= 16).
  { unfold passedCount. exact (count_occ_le_length (Object_values c)). }
  split; [exact L | ].
  assert (E : calculateSEOScore c =
              Math_round (mul (div (of_nat (passedCount c)) (of_nat 16)) 100)).
  { unfold passedCount. rewrite count_occ_filter. reflexivity. }
  rewrite E. clear E. revert L. generalize (passedCount c). intros n L.
  do 17 (destruct n as [ | n]; [vm_compute; reflexivity | ]).
  lia.
Qed.

Lemma all_pass_count (l : list bool) :
  count_occ bool_dec l true = List.length l <-> Forall (fun b => b = true) l.
Proof.
  induction l as [ | b l IH]; cbn [count_occ List.length].
  - split; [constructor | reflexivity].
  - pose proof (count_occ_le_length l) as B.
    destruct (bool_dec b true) as [-> | N].
    + split.
      * intros H. constructor; [reflexivity | ]. apply IH. lia.
      * intros H. inversion H; subst. f_equal. apply IH. assumption.
    + split; [lia | ].
      intros H. inversion H; subst. congruence.
Qed.

(** The score, the number of recommendations and the outcomes of an
    analysis in terms of the number of checks that pass. *)
Lemma score_and_length (p : Params) :
  passedCount (checks (analyzeSEO p)) <= 16 /\
  score (analyzeSEO p) =
    ((100 * Z.of_nat (passedCount (checks (analyzeSEO p))) + 8) / 16)%Z /\
  List.length (recommendations (analyzeSEO p)) =
    16 - passedCount (checks (analyzeSEO p)) /\
  (Forall (fun b => b = true) (Object_values (checks (analyzeSEO p))) <->
   passedCount (checks (analyzeSEO p)) = 16).
Proof.
  destruct (analyzeSEO_eq p) as (Sp & Rp & _).
  destruct (recommendations_of_table (checks (analyzeSEO p))
              (calculateKeywordDensity (content p) (keyword p)) (keyword p))
    as (_ & Lp & _).
  destruct (score_closed_form (checks (analyzeSEO p))) as [Bp Fp].
  split; [exact Bp | split; [ | split]].
  - rewrite Sp. exact Fp.
  - rewrite Rp. exact Lp.
  - unfold passedCount.
    rewrite <- (all_pass_count (Object_values (checks (analyzeSEO p)))).
    reflexivity.
Qed.

(** X7. The score and the recommendations tell the same thing: the score
    is 100 exactly when there is no recommendation, which is exactly when
    the 16 checks pass, and of two analyses the one of the higher score is
    the one of fewer recommendations. *)
Theorem score_and_recommendations :
  forall p q : Params,
    (score (analyzeSEO p) = 100%Z <-> recommendations (analyzeSEO p) = []) /\
    (recommendations (analyzeSEO p) = [] <->
     Forall (fun b => b = true) (Object_values (checks (analyzeSEO p)))) /\
    ((score (analyzeSEO p) < score (analyzeSEO q))%Z <->
     List.length (recommendations (analyzeSEO q)) <
     List.length (recommendations (analyzeSEO p))).
Proof.
  intros p q.
  pose proof (score_and_length p) as (Bp & Fp & Lp & Vp).
  pose proof (score_and_length q) as (Bq & Fq & Lq & _).
  set (sp := score (analyzeSEO p)) in *. set (sq := score (analyzeSEO q)) in *.
  set (rp := recommendations (analyzeSEO p)) in *.
  set (rq := recommendations (analyzeSEO q)) in *.
  set (vp := Object_values (checks (analyzeSEO p))) in *.
  set (a := passedCount (checks (analyzeSEO p))) in *.
  set (b := passedCount (checks (analyzeSEO q))) in *.
  clearbody sp sq rp rq vp a b.
  assert (E0 : rp = [] <-> a = 16).
  { split.
    - intros H. rewrite H in Lp. change (List.length (@nil string)) with 0 in Lp. lia.
    - intros H. destruct rp; [reflexivity | ]. cbn [List.length] in Lp. lia. }
  split; [ | split].
  - rewrite E0, Fp.
    split; intros H.
    + destruct (Nat.eq_dec a 16) as [E | N]; [exact E | exfalso].
      assert (D : ((100 * Z.of_nat a + 8) / 16 < 100)%Z)
        by (apply Z.div_lt_upper_bound; lia).
      lia.
    + rewrite H. reflexivity.
  - rewrite E0, <- Vp. reflexivity.
  - rewrite Fp, Fq, Lp, Lq.
    split; intros H.
    + destruct (Nat.lt_ge_cases a b) as [L | G]; [lia | exfalso].
      assert (M : ((100 * Z.of_nat b + 8) / 16 <= (100 * Z.of_nat a + 8) / 16)%Z)
        by (apply Z.div_le_mono; lia).
      lia.
    + assert (L : a < b) by lia.
      assert (M : ((100 * Z.of_nat a + 8) / 16 + 6
                   <= (100 * Z.of_nat b + 8) / 16)%Z).
      { replace ((100 * Z.of_nat a + 8) / 16 + 6)%Z
          with ((100 * Z.of_nat a + 8 + 6 * 16) / 16)%Z
          by (rewrite Z.div_add; lia).
        apply Z.div_le_mono; lia. }
      lia.
Qed.

(** The messages of the rules that fail carry the keys of their rules. *)
Lemma failedMessages_keys (table : list Rule) (m : string) :
  In m (failedMessages table) ->
  In (messageKey m) (map (fun r => messageKey (message r)) table).
Proof.
  unfold failedMessages. intros H.
  apply in_map_iff in H. destruct H as (r & <- & Hr).
  apply filter_In in Hr. destruct Hr as [Hr _].
  apply in_map_iff. exists r. split; [reflexivity | exact Hr].
Qed.

Lemma failedMessages_cons (r : Rule) (table : list Rule) :
  failedMessages (r :: table) =
  ((if outcome r then [] else [message r]) ++ failedMessages table)%list.
Proof.
  unfold failedMessages. cbn [filter]. destruct (outcome r); reflexivity.
Qed.

(** X8. The recommendation to add mentions of the keyword is made
    exactly when the density is below 1, and the recommendation to reduce
    the keyword usage exactly when the density is above 3. *)
Theorem density_recommendations :
  forall p : Params,
    let r := analyzeSEO p in
    (In (addMentionsMessage (density r) (keyword p)) (recommendations r) <->
     ltb (density r) 1 = true) /\
    (In (reduceUsageMessage (density r)) (recommendations r) <->
     ltb 3 (density r) = true).
Proof.
  intros p r. subst r.
  destruct (analyzeSEO_eq p) as (_ & Rp & Dp).
  rewrite Rp, Dp, generateRecommendations_table.
  assert (KD : keywordDensity (checks (analyzeSEO p)) =
               geb (calculateKeywordDensity (content p) (keyword p)) 1 &&
               leb (calculateKeywordDensity (content p) (keyword p)) 3)
    by (rewrite checks_eq; reflexivity).
  set (d := calculateKeywordDensity (content p) (keyword p)) in *.
  set (k := keyword p) in *.
  set (c := checks (analyzeSEO p)) in *. clearbody c d k.
  assert (G : geb d 1 = negb (ltb d 1)).
  { unfold geb, ltb. rewrite negb_involutive. reflexivity. }
  assert (L : leb d 3 = negb (ltb 3 d)).
  { unfold leb, ltb. rewrite negb_involutive. reflexivity. }
  assert (O : ltb d 1 = true -> ltb 3 d = false).
  { unfold ltb. intros H. apply negb_true_iff in H. apply negb_false_iff.
    apply Qle_bool_iff.
    destruct (Qlt_le_dec 3 d) as [X | X]; [exfalso | exact X].
    assert (Y : Qle_bool 1 d = true) by (apply Qle_bool_iff; lra).
    congruence. }
  assert (Rest : forall m,
             In m (failedMessages (tl (ruleTable c d k))) ->
             messageKey m <> "Add mo"%string /\ messageKey m <> "Reduce"%string).
  { intros m H. apply failedMessages_keys in H.
    cbn in H. split; intros E; rewrite E in H; intuition discriminate. }
  assert (Head : failedMessages (ruleTable c d k) =
                 ((if keywordDensity c then [] else [densityMessage d k]) ++
                  failedMessages (tl (ruleTable c d k)))%list).
  { exact (failedMessages_cons
             {| ruleName := "keywordDensity"; outcome := keywordDensity c;
                message := densityMessage d k |} (tl (ruleTable c d k))). }
  assert (DM : densityMessage d k =
               if ltb d 1 then addMentionsMessage d k else reduceUsageMessage d)
    by reflexivity.
  assert (KA : messageKey (addMentionsMessage d k) = "Add mo"%string) by reflexivity.
  assert (KR : messageKey (reduceUsageMessage d) = "Reduce"%string) by reflexivity.
  rewrite Head, DM, KD, G, L.
  set (A := addMentionsMessage d k) in *. set (R := reduceUsageMessage d) in *.
  set (rest := failedMessages (tl (ruleTable c d k))) in *.
  clearbody A R rest. clear Head DM KD G L.
  assert (NA : ~ In A rest) by (intros H; apply Rest in H; tauto).
  assert (NR : ~ In R rest) by (intros H; apply Rest in H; tauto).
  assert (AR : A <> R) by (intros E; rewrite E in KA; congruence).
  destruct (ltb d 1) eqn:B1; destruct (ltb 3 d) eqn:B3;
    try (specialize (O eq_refl); discriminate O);
    cbn [negb andb List.app];
    (split; split; intros H;
     try reflexivity; try discriminate H;
     try (left; reflexivity);
     try (destruct H as [H | H]; [congruence | contradiction]);
     try contradiction).
Qed.

End RecommendationMore.

(** ** The markup *)

Module MarkupFacts.
Import JS Optimizer Markup Observations.
Local Open Scope nat_scope.
Local Open Scope string_scope.

(** Reading a property after an assignment. *)
Lemma lookup_assign (props : list (string * JSValue)) (key key' : string) (v : JSValue) :
  lookup (assign props key v) key' =
  if String.eqb key key' then v else lookup props key'.
Proof.
  induction props as [ | [k x] rest IH]; cbn [assign lookup].
  - destruct (String.eqb key key'); reflexivity.
  - destruct (String.eqb k key) eqn:E; cbn [lookup].
    + apply String.eqb_eq in E. subst k.
      destruct (String.eqb key key'); reflexivity.
    + destruct (String.eqb k key') eqn:E'.
      * apply String.eqb_eq in E'. subst k. rewrite String.eqb_sym, E. reflexivity.
      * exact IH.
Qed.

Lemma faqOfNode_questionNode (faq : FAQ) : faqOfNode (questionNode faq) = Some faq.
Proof. destruct faq. reflexivity. Qed.

Lemma allSome_questionNodes (faqs : list FAQ) :
  allSome (map faqOfNode (map questionNode faqs)) = Some faqs.
Proof.
  induction faqs as [ | faq rest IH]; [reflexivity | ].
  cbn [map allSome]. rewrite faqOfNode_questionNode, IH. reflexivity.
Qed.

(** X11. The FAQs of a schema can be read back: with one FAQ at least the
    schema is a graph of two nodes, the BlogPosting node of the schema
    without FAQs and a FAQPage node that holds the questions and the
    answers in the order of the input; without FAQs, or with an empty list
    of them, the schema is the BlogPosting node alone. *)
Theorem schema_faqs_round_trip :
  forall (title description author publishedAt modifiedAt url : string)
         (image : option string) (faqs : list FAQ),
    let plain :=
      generateSchemaMarkup title description author publishedAt modifiedAt url
                           image None in
    let schema :=
      generateSchemaMarkup title description author publishedAt modifiedAt url
                           image (Some faqs) in
    get plain "@type" = JString "BlogPosting" /\
    faqsOfSchema plain = None /\
    blogPostingOf schema = plain /\
    (faqs = [] -> schema = plain) /\
    (faqs <> [] ->
     faqsOfSchema schema = Some faqs /\
     get (item (get schema "@graph") 1) "@type" = JString "FAQPage" /\
     get schema "@context" = get plain "@context").
Proof.
  intros title description author publishedAt modifiedAt url image faqs plain schema.
  assert (T : get plain "@type" = JString "BlogPosting" /\
              get plain "@graph" = JUndefined /\
              get plain "@context" = JString "https://schema.org").
  { subst plain. unfold generateSchemaMarkup.
    destruct (truthy image); repeat split; reflexivity. }
  destruct T as (T1 & T2 & T3).
  split; [exact T1 | ].
  split; [unfold faqsOfSchema; rewrite T2; reflexivity | ].
  destruct faqs as [ | faq rest].
  - assert (E : schema = plain) by reflexivity.
    rewrite E. split; [ | split].
    + unfold blogPostingOf. rewrite T2. reflexivity.
    + reflexivity.
    + intros N. contradiction N. reflexivity.
  - split; [reflexivity | ].
    split; [discriminate | ].
    intros _. split; [ | split].
    + subst schema. unfold generateSchemaMarkup, faqsOfSchema.
      cbn [List.length Nat.ltb Nat.leb get lookup String.eqb Ascii.eqb item nth].
      cbn -[allSome map faqOfNode questionNode].
      apply allSome_questionNodes.
    + reflexivity.
    + rewrite T3. reflexivity.
Qed.

(** An instance of X11. *)
Lemma schema_faqs_witness :
  Scenario.sampleFaqs <> [] /\
  faqsOfSchema
    (generateSchemaMarkup "A guide" "About pages" "Ann" "2025-01-01" "2025-02-01"
                          "https://blog.example/guide" None
                          (Some Scenario.sampleFaqs)) = Some Scenario.sampleFaqs.
Proof.
  assert (N : Scenario.sampleFaqs <> []) by discriminate.
  refine (conj N _).
  destruct (schema_faqs_round_trip "A guide" "About pages" "Ann" "2025-01-01"
              "2025-02-01" "https://blog.example/guide" None Scenario.sampleFaqs)
    as (_ & _ & _ & _ & R).
  exact (proj1 (R N)).
Defined.

(** X12. An image that is absent or the empty string leaves no trace:
    the meta tags have no images and the schema is the one without image.
    Another image is named in three places, the Open Graph images, the
    Twitter images and the image of the schema, and adding it changes no
    other property of the schema. *)
Theorem image_in_markup :
  forall (title description keyword author publishedAt modifiedAt url : string)
         (image published : option string),
    let meta := generateMetaTags title description keyword url image published in
    let schema :=
      generateSchemaMarkup title description author publishedAt modifiedAt url
                           image None in
    let bare :=
      generateSchemaMarkup title description author publishedAt modifiedAt url
                           None None in
    (truthy image = false ->
     get (get meta "openGraph") "images" = JUndefined /\
     get (get meta "twitter") "images" = JUndefined /\
     schema = bare) /\
    (truthy image = true ->
     get (item (get (get meta "openGraph") "images") 0) "url" = optional image /\
     item (get (get meta "twitter") "images") 0 = optional image /\
     get (get schema "image") "url" = optional image /\
     get bare "image" = JUndefined /\
     forall key : string, key <> "image" -> get schema key = get bare key).
Proof.
  intros title description keyword author publishedAt modifiedAt url image
         published meta schema bare.
  subst meta schema bare. unfold generateMetaTags, generateSchemaMarkup.
  split; intros H; rewrite H.
  - repeat split; reflexivity.
  - split; [reflexivity | ]. split; [reflexivity | ]. split; [reflexivity | ].
    split; [reflexivity | ].
    intros key N. cbn [truthy setProp get]. rewrite lookup_assign.
    destruct (String.eqb "image" key) eqn:E; [ | reflexivity].
    apply String.eqb_eq in E. congruence.
Qed.

(** An instance of X12: the empty image, and a cover image. *)
Lemma image_in_markup_witness :
  generateSchemaMarkup "A guide" "About pages" "Ann" "2025-01-01" "2025-02-01"
                       "https://blog.example/guide" (Some EmptyString) None =
  generateSchemaMarkup "A guide" "About pages" "Ann" "2025-01-01" "2025-02-01"
                       "https://blog.example/guide" None None /\
  get (get (generateSchemaMarkup "A guide" "About pages" "Ann" "2025-01-01"
              "2025-02-01" "https://blog.example/guide"
              (Some "https://blog.example/cover.png") None) "image") "url" =
  JString "https://blog.example/cover.png".
Proof.
  split.
  - exact (proj2 (proj2 (proj1 (image_in_markup "A guide" "About pages" "seo" "Ann"
                                  "2025-01-01" "2025-02-01"
                                  "https://blog.example/guide"
                                  (Some EmptyString) None) eq_refl))).
  - exact (proj1 (proj2 (proj2 (proj2 (image_in_markup "A guide" "About pages" "seo"
                                  "Ann" "2025-01-01" "2025-02-01"
                                  "https://blog.example/guide"
                                  (Some "https://blog.example/cover.png") None)
                                  eq_refl)))).
Defined.

End MarkupFacts.

(** ** Readability, further *)

Module ReadabilityMore.
Import JS Number BlogGenerator Spec Observations JSFacts NumberFacts TextFacts
       ReadabilityFacts DensityFacts DensityOrder NumberMore.
Local Open Scope nat_scope.
Local Open Scope string_scope.

Lemma length_toLowerCase (s : string) :
  String.length (toLowerCase s) = String.length s.
Proof. induction s as [ | c r IH]; cbn; congruence. Qed.

Lemma list_sum_cons (n : nat) (l : list nat) : list_sum (n :: l) = n + list_sum l.
Proof. reflexivity. Qed.

(** A word counts one syllable at least and one per character at most. *)
Lemma syllables_spec_bounds (w : string) :
  w <> EmptyString -> 1 <= syllables_spec w <= String.length w.
Proof.
  intros N. unfold syllables_spec.
  destruct (String.length w <=? 3)%nat eqn:L.
  - destruct w; [congruence | cbn; lia].
  - apply Nat.leb_gt in L.
    destruct (runs_length isVowel w) as [_ R]. lia.
Qed.

Lemma syllables_sum_bounds (l : list string) :
  Forall (fun w => w <> EmptyString) l ->
  List.length l <= list_sum (map syllables_spec l) <=
  list_sum (map String.length l).
Proof.
  induction 1 as [ | w l N _ IH]; [cbn; lia | ].
  cbn [map List.length]. rewrite !list_sum_cons.
  pose proof (syllables_spec_bounds w N). lia.
Qed.

(** X13. The number of syllables of a text lies between the number of
    its words of letters and the number of its characters: each run of
    letters counts one syllable at least and one per letter at most, and
    nothing else counts. *)
Theorem countSyllables_bounds :
  forall text : string,
    List.length (letterWords text) <= countSyllables text <= String.length text.
Proof.
  intros text. rewrite countSyllables_spec. unfold syllableCount_spec.
  assert (F : Forall (fun w => w <> EmptyString) (letterWords text)).
  { eapply Forall_impl; [ | apply runs_allChars]. cbn. tauto. }
  pose proof (syllables_sum_bounds _ F) as [A B].
  split; [exact A | ].
  destruct (runs_length isLowerLetter (toLowerCase text)) as [R _].
  rewrite length_toLowerCase in R. unfold letterWords in *. lia.
Qed.

Lemma notBlank_lower (s : string) : notBlank (toLowerCase s) = notBlank s.
Proof.
  unfold notBlank. rewrite allChars_lower; [reflexivity | apply isWhiteSpace_lower].
Qed.

Lemma filter_map_length {A B : Type} (f : B -> bool) (g : A -> B) (l : list A) :
  List.length (filter f (map g l)) = List.length (filter (fun x => f (g x)) l).
Proof.
  induction l as [ | a l IH]; [reflexivity | ].
  cbn [map filter]. destruct (f (g a)); cbn [List.length]; congruence.
Qed.

Lemma notWhiteSpace_lowerUnit (c : ascii) :
  notWhiteSpace (lowerUnit c) = notWhiteSpace c.
Proof. unfold notWhiteSpace. rewrite isWhiteSpace_lower. reflexivity. Qed.

Lemma notSentenceEnd_lowerUnit (c : ascii) :
  notSentenceEnd (lowerUnit c) = notSentenceEnd c.
Proof. unfold notSentenceEnd. rewrite isSentenceEnd_lower. reflexivity. Qed.

(** X15. The readability score does not look at the case of the
    letters: a text and its lowercased form have the same numbers of
    words, of sentences and of syllables, and the same score. *)
Theorem readability_ignores_case :
  forall text : string,
    List.length (wordsOf (toLowerCase text)) = List.length (wordsOf text) /\
    List.length (sentencesOf (toLowerCase text)) = List.length (sentencesOf text) /\
    countSyllables (toLowerCase text) = countSyllables text /\
    calculateReadability (toLowerCase text) = calculateReadability text.
Proof.
  intros text.
  assert (W : List.length (wordsOf (toLowerCase text)) = List.length (wordsOf text)).
  { rewrite !wordsOf_spec. unfold words_spec.
    rewrite runs_lower by apply notWhiteSpace_lowerUnit. apply length_map. }
  assert (S : List.length (sentencesOf (toLowerCase text)) =
              List.length (sentencesOf text)).
  { rewrite !sentencesOf_spec. unfold sentences_spec.
    rewrite runs_lower by apply notSentenceEnd_lowerUnit.
    rewrite filter_map_length. f_equal. apply filter_ext. apply notBlank_lower. }
  assert (Y : countSyllables (toLowerCase text) = countSyllables text).
  { unfold countSyllables. rewrite toLowerCase_idem. reflexivity. }
  repeat split; try assumption.
  unfold calculateReadability. rewrite W, S, Y. reflexivity.
Qed.

Lemma separator_not_letter (c : ascii) :
  isWhiteSpace c = true \/ isSentenceEnd c = true ->
  isLowerLetter (lowerUnit c) = false.
Proof.
  destruct c as [[ | ] [ | ] [ | ] [ | ] [ | ] [ | ] [ | ] [ | ]]; cbn;
    intros [H | H]; try reflexivity; discriminate H.
Qed.

(** X14. Counting is additive over a separator: the words of two texts
    joined by a white space character are the words of the first followed
    by the words of the second, the sentences of two texts joined by one
    of [.], [!], [?] are the sentences of the first followed by the
    sentences of the second, and in both cases the syllables add up. *)
Theorem counts_add_up :
  forall (a b : string) (c : ascii),
    (isWhiteSpace c = true ->
     wordsOf (a ++ String c b) = (wordsOf a ++ wordsOf b)%list) /\
    (isSentenceEnd c = true ->
     sentencesOf (a ++ String c b) = (sentencesOf a ++ sentencesOf b)%list) /\
    (isWhiteSpace c = true \/ isSentenceEnd c = true ->
     countSyllables (a ++ String c b) = countSyllables a + countSyllables b).
Proof.
  intros a b c. split; [ | split].
  - intros H. rewrite !wordsOf_spec. unfold words_spec.
    apply runs_app_sep. unfold notWhiteSpace. rewrite H. reflexivity.
  - intros H. rewrite !sentencesOf_spec. unfold sentences_spec.
    rewrite runs_app_sep by (unfold notSentenceEnd; rewrite H; reflexivity).
    apply filter_app.
  - intros H. rewrite !countSyllables_spec. unfold syllableCount_spec, letterWords.
    rewrite toLowerCase_app. cbn [toLowerCase].
    rewrite runs_app_sep by (apply separator_not_letter, H).
    rewrite map_app. apply list_sum_app.
Qed.

(** An instance of X14. *)
Lemma counts_add_up_witness :
  wordsOf ("Cat sat." ++ String " " "Dog ran.") =
    (wordsOf "Cat sat." ++ wordsOf "Dog ran.")%list /\
  sentencesOf ("Cat sat" ++ String "." " Dog ran.") =
    (sentencesOf "Cat sat" ++ sentencesOf " Dog ran.")%list /\
  countSyllables ("Cat sat." ++ String " " "Dog ran.") =
    countSyllables "Cat sat." + countSyllables "Dog ran.".
Proof.
  split; [ | split].
  - exact (proj1 (counts_add_up "Cat sat." "Dog ran." " ") eq_refl).
  - exact (proj1 (proj2 (counts_add_up "Cat sat" " Dog ran." ".")) eq_refl).
  - exact (proj2 (proj2 (counts_add_up "Cat sat." "Dog ran." " "))
                 (or_introl eq_refl)).
Defined.

Lemma of_nat_le (m n : nat) : m <= n -> (of_nat m <= of_nat n)%Q.
Proof. intros H. unfold of_nat. rewrite <- Zle_Qle. lia. Qed.

(** The Flesch expression, as the host evaluates it, does not decrease
    when the sentences get shorter or the words get fewer syllables. *)
Lemma fleschScore_monotone (w s s' y y' : nat) :
  w <> 0 -> s <> 0 -> s <= s' -> y' <= y ->
  (fleschScore w s y <= fleschScore w s' y')%Q.
Proof.
  intros W S Ss Yy. unfold fleschScore, sub, mul, div, literal.
  pose proof (of_nat_pos w W) as Pw. pose proof (of_nat_pos s S) as Ps.
  pose proof (of_nat_le _ _ Ss) as Ls. pose proof (of_nat_le _ _ Yy) as Ly.
  pose proof (of_nat_le 0 y' ltac:(lia)) as Y0.
  change (of_nat 0) with 0%Q in Y0.
  set (qw := of_nat w) in *. set (qs := of_nat s) in *. set (qs' := of_nat s') in *.
  set (qy := of_nat y) in *. set (qy' := of_nat y') in *.
  clearbody qw qs qs' qy qy'.
  assert (C1 : (0 <= fl (1015 # 1000))%Q) by (apply fl_nonneg; lra).
  assert (C2 : (0 <= fl (846 # 10))%Q) by (apply fl_nonneg; lra).
  set (c0 := fl (206835 # 1000)). set (c1 := fl (1015 # 1000)) in *.
  set (c2 := fl (846 # 10)) in *. clearbody c0 c1 c2.
  assert (A : (fl (qw / qs') <= fl (qw / qs))%Q).
  { apply fl_monotone.
    apply Qle_shift_div_r; [lra | ].
    assert (E : (qw / qs * qs == qw)%Q) by (field; lra).
    assert (P : (0 <= qw / qs)%Q) by (apply Qle_shift_div_l; lra).
    nra. }
  assert (B : (fl (qy' / qw) <= fl (qy / qw))%Q).
  { apply fl_monotone.
    apply Qle_shift_div_r; [lra | ].
    assert (E : (qy / qw * qw == qy)%Q) by (field; lra).
    lra. }
  set (a := fl (qw / qs)) in *. set (a' := fl (qw / qs')) in *.
  set (b := fl (qy / qw)) in *. set (b' := fl (qy' / qw)) in *.
  clearbody a a' b b'.
  assert (M1 : (fl (c1 * a') <= fl (c1 * a))%Q) by (apply fl_monotone; nra).
  assert (M2 : (fl (c2 * b') <= fl (c2 * b))%Q) by (apply fl_monotone; nra).
  set (m1 := fl (c1 * a)) in *. set (m1' := fl (c1 * a')) in *.
  set (m2 := fl (c2 * b)) in *. set (m2' := fl (c2 * b')) in *.
  clearbody m1 m1' m2 m2'.
  assert (X : (fl (c0 - m1) <= fl (c0 - m1'))%Q) by (apply fl_monotone; lra).
  set (x := fl (c0 - m1)) in *. set (x' := fl (c0 - m1')) in *. clearbody x x'.
  apply fl_monotone. lra.
Qed.

Lemma calculateReadability_range (text : string) :
  (0 <= calculateReadability text <= 100)%Z.
Proof.
  unfold calculateReadability.
  destruct ((List.length (sentencesOf text) =? 0)%nat ||
            (List.length (wordsOf text) =? 0)%nat); lia.
Qed.

(** X16. Of two texts of the same number of words, the one with at least
    as many sentences and at most as many syllables scores at least as
    high: shorter sentences and shorter words never lower the score. *)
Theorem readability_monotone :
  forall a b : string,
    List.length (wordsOf a) = List.length (wordsOf b) ->
    List.length (sentencesOf a) <= List.length (sentencesOf b) ->
    countSyllables b <= countSyllables a ->
    (calculateReadability a <= calculateReadability b)%Z.
Proof.
  intros a b W Hs Hy.
  pose proof (calculateReadability_range b) as Rb.
  assert (E : forall t,
             calculateReadability t =
             if (List.length (sentencesOf t) =? 0)%nat ||
                (List.length (wordsOf t) =? 0)%nat then 0%Z
             else Z.max 0 (Z.min 100
                    (Math_round (fleschScore (List.length (wordsOf t))
                                             (List.length (sentencesOf t))
                                             (countSyllables t)))))
    by reflexivity.
  rewrite (E a). rewrite (E b) in Rb |- *. clear E. rewrite <- W in *.
  destruct (List.length (sentencesOf a)) as [ | sa];
    [cbn [Nat.eqb orb] in *; lia | ].
  destruct (List.length (wordsOf a)) as [ | wa];
    [cbn [Nat.eqb orb] in *; lia | ].
  destruct (List.length (sentencesOf b)) as [ | sb]; [lia | ].
  cbn [Nat.eqb orb].
  pose proof (fleschScore_monotone (S wa) (S sa) (S sb) _ _
                ltac:(lia) ltac:(lia) Hs Hy) as F.
  apply Math_round_mono in F. lia.
Qed.

(** An instance of X16: a shorter word and one more sentence. *)
Lemma readability_monotone_witness :
  List.length (wordsOf "The kitten sat down.") =
    List.length (wordsOf "The cat sat. Down.") /\
  List.length (sentencesOf "The kitten sat down.") <=
    List.length (sentencesOf "The cat sat. Down.") /\
  countSyllables "The cat sat. Down." <= countSyllables "The kitten sat down." /\
  (calculateReadability "The kitten sat down." <=
   calculateReadability "The cat sat. Down.")%Z.
Proof.
  assert (W : List.length (wordsOf "The kitten sat down.") =
              List.length (wordsOf "The cat sat. Down.")) by reflexivity.
  assert (S : List.length (sentencesOf "The kitten sat down.") <=
              List.length (sentencesOf "The cat sat. Down."))
    by (vm_compute; lia).
  assert (Y : countSyllables "The cat sat. Down." <=
              countSyllables "The kitten sat down.") by (vm_compute; lia).
  exact (conj W (conj S (conj Y (readability_monotone _ _ W S Y)))).
Defined.

End ReadabilityMore.

(** ** The generator *)

Module GeneratorFacts.
Import JS Number BlogGenerator Spec Observations JSFacts NumberFacts TextFacts
       ReadabilityFacts BulkFacts ReadabilityMore.
Local Open Scope nat_scope.
Local Open Scope string_scope.

Lemma consHead_length (c : ascii) (l : list string) :
  l <> [] -> List.length (consHead c l) = List.length l.
Proof. destruct l; [congruence | reflexivity]. Qed.

Lemma splitRuns_nonempty (sep : ascii -> bool) (b : bool) (s : string) :
  splitRuns sep b s <> [].
Proof.
  revert b. induction s as [ | c r IH]; intros b; cbn [splitRuns]; [discriminate | ].
  destruct (sep c).
  - destruct b; [apply IH | discriminate].
  - specialize (IH false). destruct (splitRuns sep false r); [congruence | discriminate].
Qed.

Lemma endsWith_cons (p : ascii -> bool) (c : ascii) (r : string) :
  endsWith p (String c r) =
  match r with EmptyString => p c | String _ _ => endsWith p r end.
Proof. reflexivity. Qed.

(** The number of pieces of a split on the runs of a class: the pieces
    that hold a character, one more when the text does not start with
    such a piece, one more when it ends with a separator. *)
Lemma splitRuns_length (sep : ascii -> bool) (b : bool) (s : string) :
  List.length (splitRuns sep b s) =
  List.length (runs (fun c => negb (sep c)) s) +
  (if b then match s with EmptyString => 1 | String _ _ => 0 end
   else if startsWith (fun c => negb (sep c)) s then 0 else 1) +
  (if endsWith sep s then 1 else 0).
Proof.
  revert b. induction s as [ | c r IH]; intros b.
  - destruct b; reflexivity.
  - rewrite endsWith_cons. cbn [splitRuns runs startsWith].
    destruct (sep c) eqn:Sc; cbn [negb].
    + assert (T : List.length (splitRuns sep true r) =
                  List.length (runs (fun c => negb (sep c)) r) +
                  (if match r with EmptyString => true | String _ _ => endsWith sep r end
                   then 1 else 0)).
      { rewrite (IH true). destruct r; [reflexivity | lia]. }
      destruct b; cbn [List.length]; rewrite T; lia.
    + rewrite consHead_length by apply splitRuns_nonempty.
      rewrite (IH false).
      assert (E : (if match r with EmptyString => false | String _ _ => endsWith sep r end
                   then 1 else 0) = (if endsWith sep r then 1 else 0)).
      { destruct r; reflexivity. }
      rewrite E.
      destruct (startsWith (fun c => negb (sep c)) r) eqn:St.
      * destruct (startsWith_runs _ _ St) as (h & t & R). rewrite R.
        cbn [consHead List.length]. destruct b; lia.
      * cbn [List.length]. destruct b; lia.
Qed.

Section Oracle.

Variable World : Type.
Variable Error : Type.
Variable generateObject : Prompt -> World -> (Error + GeneratedObject) * World.
Variable toISOString_now : World -> string * World.

(** The prompt that [generateBlogPost] makes of its parameters. *)
Lemma generateBlogPost_inr (params : GenerateParams) (w w' : World) (post : Post) :
  generateBlogPost World Error generateObject toISOString_now params w =
    (inr post, w') ->
  exists w1,
    generateObject
      {| promptTopic := topic params;
         promptKeyword := keyword params;
         promptTone := Optimizer.orDefault (tone params) "professional";
         promptAudience := Optimizer.orDefault (audience params) "general audience";
         promptIncludeData := Optimizer.orDefault (includeData params) true;
         promptWordCount := Optimizer.orDefault (targetWordCount params) 2000%Z |} w =
      (inr (object post), w1) /\
    toISOString_now w1 = (generatedAt post, w') /\
    postReadabilityScore post = calculateReadability (content (object post)) /\
    postWordCount post =
      List.length (split_class isWhiteSpace (content (object post))).
Proof.
  unfold generateBlogPost. intros H.
  destruct (generateObject _ w) as [[error | obj] w1] eqn:G; [discriminate H | ].
  destruct (toISOString_now w1) as [stamp w2] eqn:C.
  injection H as <- <-. exists w1.
  cbn [object generatedAt postReadabilityScore postWordCount].
  split; [reflexivity | ]. split; [exact C | ]. split; reflexivity.
Qed.

(** X17. In a generated post the readability score is the one of the
    content, between 0 and 100, whatever the service reported, and the
    word count is the number of pieces of the split of the content on the
    runs of white space: the number of words, one more when the content is
    empty or starts with white space, one more when it ends with white
    space; so it is never 0. *)
Theorem generated_post_counts :
  forall (params : GenerateParams) (w w' : World) (post : Post),
    generateBlogPost World Error generateObject toISOString_now params w =
      (inr post, w') ->
    let text := content (object post) in
    postReadabilityScore post = calculateReadability text /\
    (0 <= postReadabilityScore post <= 100)%Z /\
    postWordCount post =
      List.length (wordsOf text) +
      (if startsWith notWhiteSpace text then 0 else 1) +
      (if endsWith isWhiteSpace text then 1 else 0) /\
    1 <= postWordCount post.
Proof.
  intros params w w' post H text.
  destruct (generateBlogPost_inr _ _ _ _ H) as (w1 & _ & _ & R & C).
  fold text in R, C.
  assert (L : postWordCount post =
              List.length (wordsOf text) +
              (if startsWith notWhiteSpace text then 0 else 1) +
              (if endsWith isWhiteSpace text then 1 else 0)).
  { rewrite C. unfold split_class. rewrite splitRuns_length.
    rewrite wordsOf_spec. reflexivity. }
  split; [exact R | ].
  split; [rewrite R; apply calculateReadability_range | ].
  split; [exact L | ].
  rewrite L. destruct text as [ | c r] eqn:T.
  - cbn. lia.
  - cbn [startsWith]. destruct (notWhiteSpace c) eqn:N; [ | lia].
    assert (St : startsWith notWhiteSpace (String c r) = true) by exact N.
    destruct (startsWith_runs _ _ St) as (h & t & R').
    rewrite wordsOf_spec. unfold words_spec. rewrite R'. cbn [List.length]. lia.
Qed.

(** The loop over two lists of items is the loop over the first followed
    by the loop over the second. *)
Lemma bulkLoop_app (audience : string) (includeData : bool)
      (items items' : list BulkItem) (posts : list (BulkResult Error)) (w : World) :
  bulkLoop World Error generateObject toISOString_now audience includeData
           (items ++ items') posts w =
  bulkLoop World Error generateObject toISOString_now audience includeData items'
           (fst (bulkLoop World Error generateObject toISOString_now
                          audience includeData items posts w))
           (snd (bulkLoop World Error generateObject toISOString_now
                          audience includeData items posts w)).
Proof.
  revert posts w. induction items as [ | item rest IH]; intros posts w.
  - reflexivity.
  - cbn [List.app bulkLoop].
    destruct (generateBlogPost World Error generateObject toISOString_now _ w)
      as [[error | post] w1]; apply IH.
Qed.

(** The array built so far is a prefix of the result of the loop. *)
Lemma bulkLoop_posts (audience : string) (includeData : bool)
      (items : list BulkItem) (posts : list (BulkResult Error)) (w : World) :
  bulkLoop World Error generateObject toISOString_now audience includeData
           items posts w =
  ((posts ++ fst (bulkLoop World Error generateObject toISOString_now
                           audience includeData items [] w))%list,
   snd (bulkLoop World Error generateObject toISOString_now
                 audience includeData items [] w)).
Proof.
  revert posts w. induction items as [ | item rest IH]; intros posts w.
  - cbn. rewrite app_nil_r. reflexivity.
  - cbn [bulkLoop List.app].
    destruct (generateBlogPost World Error generateObject toISOString_now _ w)
      as [[error | post] w1];
      rewrite IH; rewrite (IH [_]); cbn [fst snd]; rewrite <- app_assoc; reflexivity.
Qed.

(** X19. A bulk run over two lists of topics joined is the run over the
    first followed, in the world that it leaves, by the run over the
    second: the results are those of the first run and then those of the
    second. *)
Theorem generateBulkPosts_app :
  forall (a : option string) (d : option bool) (ts ts' : list BulkItem) (w : World),
    let run := fun items w0 =>
      generateBulkPosts World Error generateObject toISOString_now
        {| topics := items; bulkAudience := a; bulkIncludeData := d |} w0 in
    run (ts ++ ts')%list w =
    ((fst (run ts w) ++ fst (run ts' (snd (run ts w))))%list,
     snd (run ts' (snd (run ts w)))).
Proof.
  intros a d ts ts' w run. subst run. unfold generateBulkPosts.
  cbn [topics bulkAudience bulkIncludeData].
  rewrite bulkLoop_app. apply bulkLoop_posts.
Qed.

End Oracle.

(** An instance of X17: a post of the sample service. *)
Lemma generated_post_witness :
  generateBlogPost nat string Scenario.sampleService Scenario.sampleClock
                   sampleRequest 0 = (inr samplePost, 1) /\
  postWordCount samplePost =
    List.length (wordsOf (content (object samplePost))) +
    (if startsWith notWhiteSpace (content (object samplePost)) then 0 else 1) +
    (if endsWith isWhiteSpace (content (object samplePost)) then 1 else 0).
Proof.
  assert (G : generateBlogPost nat string Scenario.sampleService Scenario.sampleClock
                               sampleRequest 0 = (inr samplePost, 1))
    by (vm_compute; reflexivity).
  refine (conj G _).
  exact (proj1 (proj2 (proj2
           (generated_post_counts nat string Scenario.sampleService
              Scenario.sampleClock sampleRequest 0 1 samplePost G)))).
Defined.

End GeneratorFacts.

(** ** The revision of a content *)

Module RevisionFacts.
Import JS Number BlogGenerator Spec Observations NumberFacts ReadabilityMore.
Local Open Scope nat_scope.
Local Open Scope string_scope.

Section Oracle.

Variable World : Type.
Variable Error : Type.
Variable generateText : RevisionPrompt -> World -> (Error + string) * World.

(** X18. [improveReadability] with a target of 0 or less returns the
    content as it is and leaves the service alone; with a target above
    100, which no score reaches, it always asks the service, with the
    current score in the prompt, and returns what the service answers. *)
Theorem improveReadability_targets :
  forall (content : string) (targetScore : option Q) (w : World),
    let target := Optimizer.orDefault targetScore 70%Q in
    ((target <= 0)%Q ->
     improveReadability World Error generateText content targetScore w =
       (inr content, w)) /\
    ((100 < target)%Q ->
     improveReadability World Error generateText content targetScore w =
       generateText {| revisedContent := content;
                       revisionTarget := target;
                       revisionCurrent := calculateReadability content |} w).
Proof.
  intros content targetScore w target.
  pose proof (calculateReadability_range content) as [R0 R1].
  rewrite Zle_Qle in R0, R1.
  change (inject_Z 0) with 0%Q in R0. change (inject_Z 100) with 100%Q in R1.
  unfold improveReadability. fold target. unfold geb.
  set (current := calculateReadability content) in *. clearbody current.
  split; intros H.
  - assert (G : Qle_bool target (inject_Z current) = true)
      by (apply Qle_bool_iff; lra).
    rewrite G. reflexivity.
  - assert (G : Qle_bool target (inject_Z current) = false).
    { destruct (Qle_bool target (inject_Z current)) eqn:G; [ | reflexivity].
      apply Qle_bool_iff in G. lra. }
    rewrite G.
    destruct (generateText _ w) as [[error | text] w1]; reflexivity.
Qed.

End Oracle.

(** An instance of X18: the targets 0 and 101. *)
Lemma improveReadability_witness :
  improveReadability nat string sampleRevision "Cat sat." (Some 0%Q) 0 =
    (inr "Cat sat.", 0) /\
  improveReadability nat string sampleRevision "Cat sat." (Some 101%Q) 0 =
    sampleRevision {| revisedContent := "Cat sat.";
                      revisionTarget := 101;
                      revisionCurrent := calculateReadability "Cat sat." |} 0.
Proof.
  split.
  - exact (proj1 (improveReadability_targets nat string sampleRevision
                    "Cat sat." (Some 0%Q) 0) ltac:(cbn; lra)).
  - exact (proj2 (improveReadability_targets nat string sampleRevision
                    "Cat sat." (Some 101%Q) 0) ltac:(cbn; lra)).
Defined.

End RevisionFacts.

(** ** The route *)

Module RouteFacts.
Import JS Number Optimizer BlogGenerator Route Spec Observations NumberFacts
       AnalyzeFacts GeneratorFacts ReadabilityMore.
Local Open Scope nat_scope.
Local Open Scope string_scope.

Lemma geb_inject_Z (z k : Z) : geb (inject_Z z) (inject_Z k) = (k <=? z)%Z.
Proof.
  unfold geb. destruct (k <=? z)%Z eqn:L.
  - apply Qle_bool_iff. rewrite <- Zle_Qle. apply Z.leb_le, L.
  - destruct (Qle_bool (inject_Z k) (inject_Z z)) eqn:G; [ | reflexivity].
    apply Qle_bool_iff in G. rewrite <- Zle_Qle in G. apply Z.leb_le in G. congruence.
Qed.

(** A keyword that passes the validation and is a string is not the
    empty string. *)
Lemma truthy_string (k : string) :
  truthy (Some (JsonString k)) = true -> k <> EmptyString.
Proof. destruct k; [discriminate | discriminate]. Qed.

Section Handler.

Variable World : Type.
Variable Error : Type.
Variable generateObjectRaw : RawPrompt -> World -> (Error + GeneratedObject) * World.
Variable toISOString_now : World -> string * World.
Variable messageOf : Error -> option string.
Variable nullBodyError : Error.
Variable notAFunction : option Json -> Error.

(** What a post that [generateBlogPost] returns is made of. *)
Lemma generateBlogPostRaw_inr (params : RawParams) (w w' : World) (post : Post) :
  generateBlogPostRaw World Error generateObjectRaw toISOString_now params w =
    (inr post, w') ->
  postReadabilityScore post = calculateReadability (content (object post)) /\
  postWordCount post =
    List.length (split_class isWhiteSpace (content (object post))).
Proof.
  unfold generateBlogPostRaw. intros H.
  destruct (generateObjectRaw _ w) as [[error | obj] w1]; [discriminate H | ].
  destruct (toISOString_now w1) as [stamp w2].
  injection H as <- <-. split; reflexivity.
Qed.

(** On values of the declared types, [generateBlogPost] on the values of
    the request is [generateBlogPost] on the typed parameters, the model
    service being given the typed prompt as values. *)
Lemma generateBlogPostRaw_typed (params : GenerateParams) (w : World) :
  generateBlogPostRaw World Error generateObjectRaw toISOString_now
    (rawOfParams params) w =
  generateBlogPost World Error
    (fun pr => generateObjectRaw (rawOfPrompt pr)) toISOString_now params w.
Proof.
  unfold generateBlogPostRaw, generateBlogPost, rawOfParams, rawOfPrompt.
  cbn [givenTopic givenKeyword givenTone givenAudience givenIncludeData
       givenWordCount promptTopic promptKeyword promptTone promptAudience
       promptIncludeData promptWordCount].
  destruct (tone params), (audience params), (includeData params),
    (targetWordCount params); reflexivity.
Qed.

(** The handler on a body that is not [null]. *)
Lemma POST_body (body : Json) (w : World) :
  body <> JsonNull ->
  POST World Error generateObjectRaw toISOString_now messageOf nullBodyError
       notAFunction (inr body) w =
  if negb (truthy (property body "topic")) ||
     negb (truthy (property body "keyword")) then
    ({| payload :=
          MissingFields "Missing required fields: topic and keyword are required";
        status := 400 |}, [], w)
  else
    match generateBlogPostRaw World Error generateObjectRaw toISOString_now
            (requestOf body) w with
    | (inl error, w1) => (caught Error messageOf error, w1)
    | (inr post, w1) =>
        match property body "keyword" with
        | Some (JsonString keyword) =>
            ({| payload := Generated post (analyzeSEO (seoParams post keyword));
                status := 200 |}, [], w1)
        | _ => (caught Error messageOf (notAFunction (property body "keyword")), w1)
        end
    end.
Proof.
  intros N. destruct body; [exfalso; apply N; reflexivity | reflexivity ..].
Qed.

(** X20. Every request gets one of three responses.  Status 400 with
    the message of the missing fields, when the body is not [null] and
    its topic or its keyword is absent or falsy ([null], [false], zero,
    the empty string; a body that is no object has neither): then
    nothing is logged and the service is not called.  Status 200 with
    the generated post and the analysis of that post for the keyword of
    the request, when the topic is truthy, the keyword is a string that
    is not empty and the generation succeeds: nothing is logged.  Status
    500 otherwise, with the message of the error, or a fixed message when
    the thrown value is no error object, the error being logged, once:
    when the body is no JSON, when it is [null], when the generation
    fails, and when the generation succeeds for a keyword that is no
    string, on which the analysis throws. *)
Theorem route_outcomes :
  forall (json : Error + Json) (w : World),
    let out :=
      POST World Error generateObjectRaw toISOString_now messageOf nullBodyError
           notAFunction json w in
    let response := fst (fst out) in
    let logged := snd (fst out) in
    let generation := fun body : Json =>
      generateBlogPostRaw World Error generateObjectRaw toISOString_now
        (requestOf body) w in
    (status response = 400 /\ logged = [] /\ snd out = w /\
     payload response =
       MissingFields "Missing required fields: topic and keyword are required" /\
     exists body,
       json = inr body /\ body <> JsonNull /\
       (truthy (property body "topic") = false \/
        truthy (property body "keyword") = false)) \/
    (status response = 200 /\ logged = [] /\
     exists body keyword post,
       json = inr body /\
       truthy (property body "topic") = true /\
       property body "keyword" = Some (JsonString keyword) /\
       keyword <> EmptyString /\
       generation body = (inr post, snd out) /\
       payload response = Generated post (analyzeSEO (seoParams post keyword))) \/
    (status response = 500 /\
     exists error,
       logged = [error] /\
       payload response =
         Unsuccessful (orDefault (messageOf error) "Failed to generate blog post") /\
       ((json = inl error /\ snd out = w) \/
        (json = inr JsonNull /\ error = nullBodyError /\ snd out = w) \/
        (exists body,
           json = inr body /\
           truthy (property body "topic") = true /\
           truthy (property body "keyword") = true /\
           (generation body = (inl error, snd out) \/
            exists post,
              generation body = (inr post, snd out) /\
              (forall keyword, property body "keyword" <> Some (JsonString keyword)) /\
              error = notAFunction (property body "keyword"))))).
Proof.
  intros json w out response logged generation.
  destruct json as [error | body].
  { right. right. split; [reflexivity | ]. exists error.
    split; [reflexivity | ]. split; [reflexivity | ]. left. split; reflexivity. }
  destruct (match body with JsonNull => true | _ => false end) eqn:B.
  { destruct body; try discriminate B.
    right. right. split; [reflexivity | ]. exists nullBodyError.
    split; [reflexivity | ]. split; [reflexivity | ].
    right. left. repeat split. }
  assert (N : body <> JsonNull) by (intros ->; discriminate B).
  pose proof (POST_body body w N) as E. fold out in E.
  destruct (truthy (property body "topic")) eqn:T.
  2:{ left. subst response logged. rewrite E. cbn [negb orb fst snd status payload].
      repeat split. exists body. split; [reflexivity | ]. split; [exact N | ].
      left. exact T. }
  destruct (truthy (property body "keyword")) eqn:K.
  2:{ left. subst response logged. rewrite E. cbn [negb orb fst snd status payload].
      repeat split. exists body. split; [reflexivity | ]. split; [exact N | ].
      right. exact K. }
  cbn [negb orb] in E. fold (generation body) in E.
  destruct (generation body) as [[error | post] w1] eqn:G.
  { right. right. subst response logged. rewrite E.
    cbn [fst snd status payload caught].
    split; [reflexivity | ]. exists error.
    split; [reflexivity | ]. split; [reflexivity | ].
    right. right. exists body.
    split; [reflexivity | ]. split; [exact T | ]. split; [exact K | ].
    left. exact G. }
  destruct (property body "keyword") as [[ | b | x | n | k | l | o] | ] eqn:P;
    try (right; right; subst response logged; rewrite E;
         cbn [fst snd status payload caught];
         split; [reflexivity | ]; eexists;
         split; [reflexivity | ]; split; [reflexivity | ];
         right; right; exists body; rewrite P;
         split; [reflexivity | ]; split; [exact T | ]; split; [exact K | ];
         right; exists post;
         split; [exact G | ]; split; [intros; discriminate | reflexivity]).
  right. left. subst response logged. rewrite E. cbn [fst snd status payload].
  split; [reflexivity | ]. split; [reflexivity | ].
  exists body, k, post.
  split; [reflexivity | ]. split; [exact T | ]. split; [exact P | ].
  split; [apply truthy_string, K | ]. split; [exact G | reflexivity].
Qed.

(** X6. In a response of status 200 the analysis is made for a keyword
    that is a string and is not empty, and its wordCount and
    readabilityScore checks are decided by the content of the post alone,
    whatever the service reported: the first by the number of pieces of
    the split of the content on white space, the second by the
    readability score of the content. *)
Theorem response_analysis :
  forall (body : Json) (w w' : World) (post : Post) (seo : SEOAnalysis)
         (code : nat) (logged : list Error),
    POST World Error generateObjectRaw toISOString_now messageOf nullBodyError
         notAFunction (inr body) w =
      ({| payload := Generated post seo; status := code |}, logged, w') ->
    code = 200 /\ logged = [] /\
    exists keyword,
      property body "keyword" = Some (JsonString keyword) /\
      keyword <> EmptyString /\
      seo = analyzeSEO (seoParams post keyword) /\
      wordCountCheck (checks seo) =
        (2000 <=? List.length (split_class isWhiteSpace
                                 (content (object post))))%nat /\
      readabilityScoreCheck (checks seo) =
        (60 <=? calculateReadability (content (object post)))%Z /\
      hasFAQs (checks seo) = (3 <=? List.length (faqs (object post)))%nat.
Proof.
  intros body w w' post seo code logged H.
  destruct (match body with JsonNull => true | _ => false end) eqn:B.
  { destruct body; try discriminate B. discriminate H. }
  assert (N : body <> JsonNull) by (intros ->; discriminate B).
  rewrite (POST_body body w N) in H.
  destruct (negb (truthy (property body "topic")) ||
            negb (truthy (property body "keyword"))) eqn:M; [discriminate H | ].
  apply orb_false_iff in M. destruct M as [_ MK]. apply negb_false_iff in MK.
  destruct (generateBlogPostRaw World Error generateObjectRaw toISOString_now
              (requestOf body) w) as [[error | post'] w1] eqn:G;
    [discriminate H | ].
  destruct (property body "keyword") as [[ | b | x | n | keyword | l | o] | ] eqn:P;
    try discriminate H.
  injection H as <- <- <- <- <-.
  destruct (generateBlogPostRaw_inr _ _ _ _ G) as (R & C).
  split; [reflexivity | ]. split; [reflexivity | ].
  exists keyword. split; [reflexivity | ].
  split; [apply truthy_string, MK | ].
  split; [reflexivity | ].
  rewrite checks_eq. cbn [wordCountCheck readabilityScoreCheck hasFAQs seoParams
                          Optimizer.wordCount Optimizer.readabilityScore
                          Optimizer.faqs orDefault].
  rewrite R, C. split; [ | split; [ | reflexivity]].
  - destruct (Nat.leb_spec 2000 (List.length (split_class isWhiteSpace
                                                (content (object post'))))) as [L | L].
    + apply Z.leb_le. lia.
    + apply Z.leb_gt. lia.
  - apply (geb_inject_Z _ 60).
Qed.

End Handler.

(** An instance of X6: a request to the sample service. *)
Lemma response_analysis_witness :
  POST nat string sampleRawService Scenario.sampleClock Some
       "Cannot destructure" (fun _ => "keyword.toLowerCase is not a function")
       (inr sampleBody) 0 =
    ({| payload := Generated samplePost (analyzeSEO (seoParams samplePost "seo"));
        status := 200 |}, [], 1) /\
  exists keyword,
    property sampleBody "keyword" = Some (JsonString keyword) /\
    keyword <> EmptyString /\
    wordCountCheck (checks (analyzeSEO (seoParams samplePost "seo"))) =
      (2000 <=? List.length (split_class isWhiteSpace
                               (content (object samplePost))))%nat.
Proof.
  assert (H : POST nat string sampleRawService Scenario.sampleClock Some
                   "Cannot destructure"
                   (fun _ => "keyword.toLowerCase is not a function")
                   (inr sampleBody) 0 =
              ({| payload := Generated samplePost
                               (analyzeSEO (seoParams samplePost "seo"));
                  status := 200 |}, [], 1))
    by (vm_compute; reflexivity).
  refine (conj H _).
  destruct (response_analysis nat string sampleRawService Scenario.sampleClock
              Some "Cannot destructure"
              (fun _ => "keyword.toLowerCase is not a function")
              sampleBody 0 1 samplePost _ 200 [] H)
    as (_ & _ & keyword & K & N & _ & W & _).
  exists keyword. exact (conj K (conj N W)).
Defined.

(** The three requests of the samples: a post is generated for the
    first; the second, whose keyword is empty, is rejected and the service
    is not called; for the third, whose keyword is a number, the post is
    generated and the analysis throws. *)
Lemma route_examples :
  status (fst (fst (POST nat string sampleRawService Scenario.sampleClock Some
                         "Cannot destructure"
                         (fun _ => "keyword.toLowerCase is not a function")
                         (inr sampleBody) 0))) = 200 /\
  POST nat string sampleRawService Scenario.sampleClock Some
       "Cannot destructure" (fun _ => "keyword.toLowerCase is not a function")
       (inr bodyWithoutKeyword) 0 =
    ({| payload :=
          MissingFields "Missing required fields: topic and keyword are required";
        status := 400 |}, [], 0) /\
  POST nat string sampleRawService Scenario.sampleClock Some
       "Cannot destructure" (fun _ => "keyword.toLowerCase is not a function")
       (inr bodyWithNumberKeyword) 0 =
    ({| payload := Unsuccessful "keyword.toLowerCase is not a function";
        status := 500 |}, ["keyword.toLowerCase is not a function"], 1) /\
  POST nat string sampleRawService Scenario.sampleClock Some
       "Cannot destructure" (fun _ => "keyword.toLowerCase is not a function")
       (inr JsonNull) 0 =
    ({| payload := Unsuccessful "Cannot destructure"; status := 500 |},
     ["Cannot destructure"], 0).
Proof. repeat split; vm_compute; reflexivity. Qed.

End RouteFacts.
